(** * Atmos weather widget: a shallow embedding of [script.js]

    The script wires a city search box to two HTTP calls (geocoding, then
    current weather) and renders the answer into a handful of DOM elements.
    This file embeds

    - the JavaScript values the script manipulates (JSON documents, numbers,
      strings) together with the coercions the script relies on,
    - [getWeatherInfo], the WMO-code classifier,
    - the asynchronous handler [handleSearch] and its helpers, as programs of
      a small free monad whose nodes are the DOM writes, the two kinds of
      [await] and [throw],
    - two semantics for those programs: a run to completion of one search
      against the replies of the network, and an event loop in which several
      searches may be suspended at the same time.

    Conventions.  A [string] is a sequence of UTF-16 code units restricted to
    U+0000..U+00FF, one [ascii] per code unit.  A finite JavaScript number is
    represented by its exact rational value; negative zero is identified with
    zero, which no operation used by the script can tell apart. *)

From Stdlib Require Import ZArith QArith Qround Bool List String Ascii Lia Lqa.
From Stdlib Require Import DecimalString.
Import ListNotations.

Set Warnings "-register-all".

Local Open Scope string_scope.
Local Open Scope Z_scope.

(* ------------------------------------------------------------------------- *)
(** ** JavaScript values *)

Module Js.

(** Numbers: a finite value, or one of the three non-finite ones. *)
Inductive JsNum : Type :=
| Fin (q : Q)
| NaN
| PosInf
| NegInf.

(** What [JSON.parse] can produce, plus [undefined] (the value of a missing
    property). *)
Inductive JsVal : Type :=
| VUndefined
| VNull
| VBool (b : bool)
| VNumber (n : JsNum)
| VString (s : string)
| VArray (items : list JsVal)
| VObject (fields : list (string * JsVal)).

(** An exception object; the script only ever reads its [message]. *)
Record JsError : Type := mkError { message : string }.

(** The result of evaluating an expression: a value, or an exception. *)
Inductive Completion (A : Type) : Type :=
| Normal (a : A)
| Thrown (e : JsError).
Arguments Normal {A} a.
Arguments Thrown {A} e.

(** Why the engine raises a [TypeError] in this script: a property of
    [undefined] or [null] is read, [undefined] or [null] is destructured, or
    an object cannot be converted to a primitive value.  [expr] is the source
    text of the expression and [v] its value. *)
Inductive TypeErrorCause : Type :=
| ReadOfNullish (expr : string) (v : JsVal) (key : string)
| DestructuringOfNullish (expr : string) (v : JsVal)
| NotPrimitive (expr : string) (v : JsVal).

(** The parts of the JavaScript engine whose results the script passes on
    without inspecting them. *)
Record Engine : Type := {
  (** [Number(s)] for a string [s]. *)
  StringToNumber : string -> JsNum;
  (** [String(x)] for a finite [x] that is not an integer below 2^53. *)
  NumberToString_other : Q -> string;
  (** Message of a [TypeError]; it may depend on the expression, on its
      value and on the property that was read. *)
  TypeError_message : TypeErrorCause -> string
}.

Definition int (z : Z) : JsVal := VNumber (Fin (inject_Z z)).

Definition Z_decimal (z : Z) : string := NilZero.string_of_int (Z.to_int z).

Definition is_integer (q : Q) : bool := Qnum q mod Zpos (Qden q) =? 0.

(** [Math.round]: the nearest integer, ties towards +infinity. *)
Definition Math_round (n : JsNum) : JsNum :=
  match n with
  | Fin q => Fin (inject_Z (Qfloor (q + (1 # 2))))
  | other => other
  end.

(** [ToBoolean]. *)
Definition truthy (v : JsVal) : bool :=
  match v with
  | VUndefined | VNull => false
  | VBool b => b
  | VNumber (Fin q) => negb (Qeq_bool q 0)
  | VNumber NaN => false
  | VNumber _ => true
  | VString s => negb (s =? "")%string
  | VArray _ | VObject _ => true
  end.

(** The object has an own property [key]. *)
Definition has_key (key : string) (fields : list (string * JsVal)) : bool :=
  existsb (fun kv => (fst kv =? key)%string) fields.

Fixpoint assoc (key : string) (fields : list (string * JsVal)) : JsVal :=
  match fields with
  | [] => VUndefined
  | (k, v) :: rest => if (k =? key)%string then v else assoc key rest
  end.

(** Element whose index, written in decimal, is [key]. *)
Fixpoint at_index {A : Type} (key : string) (i : Z) (l : list A) : option A :=
  match l with
  | [] => None
  | x :: rest =>
      if (Z_decimal i =? key)%string then Some x else at_index key (i + 1) rest
  end.

Definition length_value {A : Type} (l : list A) : JsVal :=
  int (Z.of_nat (List.length l)).

(** Property read [v.key] / [v[key]]; [None] when the read throws a
    [TypeError], that is when [v] is [undefined] or [null]. *)
Definition get_prop (v : JsVal) (key : string) : option JsVal :=
  match v with
  | VUndefined | VNull => None
  | VBool _ | VNumber _ => Some VUndefined
  | VString s =>
      if (key =? "length")%string then Some (length_value (list_ascii_of_string s))
      else match at_index key 0 (list_ascii_of_string s) with
           | Some c => Some (VString (String c ""))
           | None => Some VUndefined
           end
  | VArray items =>
      if (key =? "length")%string then Some (length_value items)
      else match at_index key 0 items with
           | Some x => Some x
           | None => Some VUndefined
           end
  | VObject fields => Some (assoc key fields)
  end.

Section WithEngine.

Variable engine : Engine.

(** [Number::toString].  An integer below 2^53 is printed with all its
    digits; the digits of any other finite number are the engine's. *)
Definition Number_toString (n : JsNum) : string :=
  match n with
  | NaN => "NaN"
  | PosInf => "Infinity"
  | NegInf => "-Infinity"
  | Fin q =>
      if is_integer q && (Z.abs (Qfloor q) <? 2 ^ 53)
      then Z_decimal (Qfloor q)
      else NumberToString_other engine q
  end.

(** [ToString], as applied by template literals; [None] when the conversion
    throws a [TypeError].  An object is converted by [toString], then by
    [valueOf]: a parsed object with an own [toString] property, which is
    never callable, is left with [Object.prototype.valueOf], which returns
    the object itself, and the conversion fails.  An array is converted by
    [join], which converts its elements in turn. *)
Fixpoint ToString (v : JsVal) : option string :=
  match v with
  | VUndefined => Some "undefined"
  | VNull => Some "null"
  | VBool true => Some "true"
  | VBool false => Some "false"
  | VNumber n => Some (Number_toString n)
  | VString s => Some s
  | VArray items =>
      (fix join (l : list JsVal) : option string :=
         match l with
         | [] => Some ""
         | x :: rest =>
             match match x with
                   | VUndefined | VNull => Some ""
                   | _ => ToString x
                   end with
             | None => None
             | Some here =>
                 match rest with
                 | [] => Some here
                 | _ :: _ =>
                     match join rest with
                     | Some tail => Some (here ++ "," ++ tail)
                     | None => None
                     end
                 end
             end
         end) items
  | VObject fields =>
      if has_key "toString" fields then None else Some "[object Object]"
  end.

(** [ToNumber]; [None] when the conversion throws.  Arrays and objects are
    first converted to a primitive value, which is the string above. *)
Definition ToNumber (v : JsVal) : option JsNum :=
  match v with
  | VUndefined => Some NaN
  | VNull => Some (Fin 0)
  | VBool true => Some (Fin 1)
  | VBool false => Some (Fin 0)
  | VNumber n => Some n
  | VString s => Some (StringToNumber engine s)
  | VArray _ | VObject _ =>
      match ToString v with
      | Some s => Some (StringToNumber engine s)
      | None => None
      end
  end.

(** The two conversions as evaluations of the expression [expr]. *)
Definition to_string (expr : string) (v : JsVal) : Completion string :=
  match ToString v with
  | Some s => Normal s
  | None => Thrown (mkError (TypeError_message engine (NotPrimitive expr v)))
  end.

Definition to_number (expr : string) (v : JsVal) : Completion JsNum :=
  match ToNumber v with
  | Some n => Normal n
  | None => Thrown (mkError (TypeError_message engine (NotPrimitive expr v)))
  end.

(** [v === k] for an integer literal [k]. *)
Definition strict_eq (v : JsVal) (k : Z) : bool :=
  match v with
  | VNumber (Fin q) => Qeq_bool q (inject_Z k)
  | _ => false
  end.

Definition num_ge (n : JsNum) (k : Z) : bool :=
  match n with
  | Fin q => Qle_bool (inject_Z k) q
  | PosInf => true
  | NaN | NegInf => false
  end.

Definition num_le (n : JsNum) (k : Z) : bool :=
  match n with
  | Fin q => Qle_bool q (inject_Z k)
  | NegInf => true
  | NaN | PosInf => false
  end.

(** [v >= k] and [v <= k] for an integer literal [k]; [expr] is the source
    text of the left operand, which is converted to a number first. *)
Definition ge (expr : string) (v : JsVal) (k : Z) : Completion bool :=
  match to_number expr v with
  | Normal n => Normal (num_ge n k)
  | Thrown e => Thrown e
  end.

Definition le (expr : string) (v : JsVal) (k : Z) : Completion bool :=
  match to_number expr v with
  | Normal n => Normal (num_le n k)
  | Thrown e => Thrown e
  end.

End WithEngine.

End Js.

Import Js.

(* ------------------------------------------------------------------------- *)
(** ** The weather-code classifier *)

Record WeatherInfo : Type := mkInfo { description : string; icon : string }.

Section Classifier.

Variable engine : Engine.

Notation "c '===' k" := (strict_eq c k) (at level 70, no associativity).

(** [code >= lo && code <= hi]: the second comparison is evaluated only
    when the first one holds. *)
Definition between (code : JsVal) (lo hi : Z) : Completion bool :=
  match ge engine "code" code lo with
  | Thrown e => Thrown e
  | Normal false => Normal false
  | Normal true => le engine "code" code hi
  end.

(** A branch of the chain: the entry when the test holds, the rest of the
    chain otherwise; an exception of the test ends the call. *)
Definition branch (test : Completion bool) (descr icon : string)
    (rest : Completion WeatherInfo) : Completion WeatherInfo :=
  match test with
  | Thrown e => Thrown e
  | Normal true => Normal {| description := descr; icon := icon |}
  | Normal false => rest
  end.

(** [getWeatherInfo(code)]: the two [let]s start at the default entry and
    the first branch of the chain whose test succeeds overwrites both. *)
Definition getWeatherInfo (code : JsVal) : Completion WeatherInfo :=
  let description := "Unknown" in
  let icon := "fa-cloud" in
  branch (Normal (code === 0)) "Clear Sky" "fa-sun"
  (branch (between code 1 3) "Partly Cloudy" "fa-cloud-sun"
  (branch (between code 45 48) "Foggy" "fa-smog"
  (branch (between code 51 55) "Drizzle" "fa-cloud-rain"
  (branch (between code 61 65) "Rain" "fa-cloud-showers-heavy"
  (branch (between code 71 77) "Snow Fall" "fa-snowflake"
  (branch (between code 80 82) "Rain Showers" "fa-cloud-showers-water"
  (branch (between code 95 99) "Thunderstorm" "fa-cloud-bolt"
  (Normal {| description := description; icon := icon |})))))))).

End Classifier.

(* ------------------------------------------------------------------------- *)
(** ** String helpers of the platform *)

Definition chr (n : nat) : string := String (ascii_of_nat n) "".

(** The double quote, and the two code units U+00C2 U+00B0 that follow the
    rounded apparent temperature in the source text of [updateUI]. *)
Definition dquote : string := chr 34.
Definition degree_suffix : string := chr 194 ++ chr 176.

(** White space and line terminators among U+0000..U+00FF. *)
Definition is_space (c : ascii) : bool :=
  existsb (N.eqb (N_of_ascii c)) [9; 10; 11; 12; 13; 32; 160]%N.

Fixpoint trim_start (s : string) : string :=
  match s with
  | "" => ""
  | String c rest => if is_space c then trim_start rest else s
  end.

Fixpoint trim_end (s : string) : string :=
  match s with
  | "" => ""
  | String c rest =>
      let rest' := trim_end rest in
      if is_space c && (rest' =? "")%string then "" else String c rest'
  end.

(** [String.prototype.trim]. *)
Definition trim (s : string) : string := trim_end (trim_start s).

Definition only_spaces (s : string) : bool :=
  forallb is_space (list_ascii_of_string s).

Definition hex_digit (n : N) : string :=
  match String.get (N.to_nat n) "0123456789ABCDEF" with
  | Some c => String c ""
  | None => ""
  end.

Definition percent (byte : N) : string :=
  "%" ++ hex_digit (byte / 16) ++ hex_digit (byte mod 16).

Definition unreserved (c : ascii) : bool :=
  let n := N_of_ascii c in
  ((65 <=? n) && (n <=? 90) || (97 <=? n) && (n <=? 122) ||
   (48 <=? n) && (n <=? 57) ||
   existsb (N.eqb n) [45; 95; 46; 33; 126; 42; 39; 40; 41])%N.

(** [encodeURIComponent]: every code unit outside the unreserved set is
    replaced by the percent-escapes of its UTF-8 bytes. *)
Fixpoint encodeURIComponent (s : string) : string :=
  match s with
  | "" => ""
  | String c rest =>
      let n := N_of_ascii c in
      (if unreserved c then String c ""
       else if (n <? 128)%N then percent n
       else percent (192 + n / 64) ++ percent (128 + n mod 64))
      ++ encodeURIComponent rest
  end.

(* ------------------------------------------------------------------------- *)
(** ** The page *)

(** The handles taken with [document.getElementById] when the script
    starts. *)
Inductive ElemId : Type :=
| cityInput | searchBtn | weatherContainer | errorContainer | loadingIndicator
| cityNameEl | dateEl | tempEl | weatherDescEl | weatherIconEl
| humidityEl | windSpeedEl | feelsLikeEl | errorTextEl.

Definition ElemId_eqb (a b : ElemId) : bool :=
  match a, b with
  | cityInput, cityInput | searchBtn, searchBtn
  | weatherContainer, weatherContainer | errorContainer, errorContainer
  | loadingIndicator, loadingIndicator | cityNameEl, cityNameEl
  | dateEl, dateEl | tempEl, tempEl | weatherDescEl, weatherDescEl
  | weatherIconEl, weatherIconEl | humidityEl, humidityEl
  | windSpeedEl, windSpeedEl | feelsLikeEl, feelsLikeEl
  | errorTextEl, errorTextEl => true
  | _, _ => false
  end.

Record Element : Type := mkElement {
  classList : list string;   (* the tokens of the class attribute, in order *)
  textContent : string;
  value : string             (* meaningful for the input field *)
}.

Record Page : Type := mkPage {
  dom : ElemId -> Element;
  (** What [new Date().toLocaleDateString('en-US', ...)] evaluates to. *)
  locale_date : string
}.

Definition has_token (token : string) (l : list string) : bool :=
  existsb (String.eqb token) l.

Definition add_token (token : string) (l : list string) : list string :=
  if has_token token l then l else l ++ [token].

Definition remove_token (token : string) (l : list string) : list string :=
  filter (fun t => negb (token =? t)%string) l.

Definition is_class_space (c : ascii) : bool :=
  existsb (N.eqb (N_of_ascii c)) [9; 10; 12; 13; 32]%N.

(** The ordered set of tokens of a class attribute. *)
Fixpoint class_tokens (cur : string) (s : string) : list string :=
  let flush (l : list string) :=
    if (cur =? "")%string then l else add_token cur l in
  match s with
  | "" => flush []
  | String c rest =>
      if is_class_space c
      then (fix merge (front back : list string) :=
              match back with
              | [] => front
              | t :: back' => merge (add_token t front) back'
              end) (flush []) (class_tokens "" rest)
      else class_tokens (cur ++ String c "") rest
  end.

(** The synchronous effects of the script. *)
Inductive Action : Type :=
| ClassList_add (el : ElemId) (token : string)
| ClassList_remove (el : ElemId) (token : string)
| Set_textContent (el : ElemId) (text : string)
| Set_className (el : ElemId) (name : string)
| Console_error (label : string) (e : JsError).

Definition update (pg : Page) (el : ElemId) (f : Element -> Element) : Page :=
  {| dom := fun x => if ElemId_eqb x el then f (dom pg x) else dom pg x;
     locale_date := locale_date pg |}.

Definition apply_action (a : Action) (pg : Page) : Page :=
  match a with
  | ClassList_add el token =>
      update pg el (fun e => {| classList := add_token token (classList e);
                                textContent := textContent e; value := value e |})
  | ClassList_remove el token =>
      update pg el (fun e => {| classList := remove_token token (classList e);
                                textContent := textContent e; value := value e |})
  | Set_textContent el text =>
      update pg el (fun e => {| classList := classList e;
                                textContent := text; value := value e |})
  | Set_className el name =>
      update pg el (fun e => {| classList := class_tokens "" name;
                                textContent := textContent e; value := value e |})
  | Console_error _ _ => pg
  end.

(** Modelled from the spec: the style sheet of the page is not among the
    sources; as the comments of [handleSearch] and the description of the
    panels say, an element is displayed unless it carries the class
    [hidden]. *)
Definition hidden (pg : Page) (el : ElemId) : bool :=
  has_token "hidden" (classList (dom pg el)).

Definition visible (pg : Page) (el : ElemId) : bool := negb (hidden pg el).

(* ------------------------------------------------------------------------- *)
(** ** Asynchronous programs *)

(** How a promise settles. *)
Inductive Settled (A : Type) : Type :=
| Fulfilled (a : A)
| Rejected (e : JsError).
Arguments Fulfilled {A} a.
Arguments Rejected {A} e.

(** A [Response]: its [ok] flag, and what [response.json()] settles to. *)
Record Response : Type := mkResponse { ok : bool; body : Settled JsVal }.

(** Programs: the body of an [async function], cut at each effect.  [Read]
    looks at the page, [Do] performs a synchronous effect, the two [Await]
    nodes suspend the function until the promise settles. *)
Inductive Prog (A : Type) : Type :=
| Ret (a : A)
| Throw (e : JsError)
| Read (k : Page -> Prog A)
| Do (a : Action) (k : Prog A)
| AwaitFetch (url : string) (k : Settled Response -> Prog A)
| AwaitJson (r : Response) (k : Settled JsVal -> Prog A).
Arguments Ret {A} a.
Arguments Throw {A} e.
Arguments Read {A} k.
Arguments Do {A} a k.
Arguments AwaitFetch {A} url k.
Arguments AwaitJson {A} r k.

Fixpoint bind {A B : Type} (p : Prog A) (f : A -> Prog B) : Prog B :=
  match p with
  | Ret a => f a
  | Throw e => Throw e
  | Read k => Read (fun pg => bind (k pg) f)
  | Do a k => Do a (bind k f)
  | AwaitFetch url k => AwaitFetch url (fun r => bind (k r) f)
  | AwaitJson r k => AwaitJson r (fun s => bind (k s) f)
  end.

Notation "x <- p ;; q" := (bind p (fun x => q))
  (at level 61, p at next level, right associativity).
Notation "p ;; q" := (bind p (fun _ => q))
  (at level 61, right associativity).

(** [try { p } catch (error) { handler error }]. *)
Fixpoint try_catch {A : Type} (p : Prog A) (handler : JsError -> Prog A) : Prog A :=
  match p with
  | Ret a => Ret a
  | Throw e => handler e
  | Read k => Read (fun pg => try_catch (k pg) handler)
  | Do a k => Do a (try_catch k handler)
  | AwaitFetch url k => AwaitFetch url (fun r => try_catch (k r) handler)
  | AwaitJson r k => AwaitJson r (fun s => try_catch (k s) handler)
  end.

(** [try { p } finally { cleanup }]: the cleanup runs on both exits, and the
    completion of [p] is resumed after it. *)
Fixpoint try_finally {A : Type} (p : Prog A) (cleanup : Prog unit) : Prog A :=
  match p with
  | Ret a => cleanup ;; Ret a
  | Throw e => cleanup ;; Throw e
  | Read k => Read (fun pg => try_finally (k pg) cleanup)
  | Do a k => Do a (try_finally k cleanup)
  | AwaitFetch url k => AwaitFetch url (fun r => try_finally (k r) cleanup)
  | AwaitJson r k => AwaitJson r (fun s => try_finally (k s) cleanup)
  end.

Definition try_catch_finally {A : Type}
    (p : Prog A) (handler : JsError -> Prog A) (cleanup : Prog unit) : Prog A :=
  try_finally (try_catch p handler) cleanup.

Definition act (a : Action) : Prog unit := Do a (Ret tt).

Definition settle {A : Type} (s : Settled A) : Prog A :=
  match s with
  | Fulfilled a => Ret a
  | Rejected e => Throw e
  end.

(** [await fetch(url)] and [await response.json()]. *)
Definition fetch (url : string) : Prog Response := AwaitFetch url settle.
Definition json (r : Response) : Prog JsVal := AwaitJson r settle.

(* ------------------------------------------------------------------------- *)
(** ** The script *)

Section Script.

Variable engine : Engine.

(** [new Error(msg)] thrown. *)
Definition throw_Error {A : Type} (msg : string) : Prog A := Throw (mkError msg).

(** An expression evaluated inside a function body. *)
Definition lift {A : Type} (c : Completion A) : Prog A :=
  match c with
  | Normal a => Ret a
  | Thrown e => Throw e
  end.

(** A property read that may raise a [TypeError]; [expr] is the source text
    of the object expression. *)
Definition prop (v : JsVal) (key : string) (expr : string) : Prog JsVal :=
  match get_prop v key with
  | Some x => Ret x
  | None => Throw (mkError (TypeError_message engine (ReadOfNullish expr v key)))
  end.

(** A property taken by a destructuring pattern, which raises a [TypeError]
    when the destructured value is [undefined] or [null]. *)
Definition destructured (v : JsVal) (key : string) (expr : string)
  : Prog JsVal :=
  match get_prop v key with
  | Some x => Ret x
  | None =>
      Throw (mkError (TypeError_message engine (DestructuringOfNullish expr v)))
  end.

Definition geocoding_url (city : string) : string :=
  "https://geocoding-api.open-meteo.com/v1/search?name="
    ++ encodeURIComponent city ++ "&count=1&language=en&format=json".

(** The template literal of [fetchWeather]: [lat] is converted, then
    [lon]. *)
Definition weather_url (lat lon : JsVal) : Completion string :=
  match to_string engine "lat" lat with
  | Thrown e => Thrown e
  | Normal latitude =>
      match to_string engine "lon" lon with
      | Thrown e => Thrown e
      | Normal longitude =>
          Normal
            ("https://api.open-meteo.com/v1/forecast?latitude=" ++ latitude
               ++ "&longitude=" ++ longitude
               ++ "&current=temperature_2m,relative_humidity_2m,apparent_temperature,weather_code,wind_speed_10m&timezone=auto")
      end
  end.

Definition fetchGeocoding (city : string) : Prog JsVal :=
  let url := geocoding_url city in
  response <- fetch url ;;
  if negb (ok response) then throw_Error "Geocoding service unavailable"
  else json response.

Definition fetchWeather (lat lon : JsVal) : Prog JsVal :=
  url <- lift (weather_url lat lon) ;;
  response <- fetch url ;;
  if negb (ok response) then throw_Error "Weather service unavailable"
  else json response.

(** [Math.round(v)], written into a text: the argument is converted to a
    number first; [expr] is its source text. *)
Definition rounded (expr : string) (v : JsVal) : Completion string :=
  match to_number engine expr v with
  | Normal n => Normal (Number_toString engine (Math_round n))
  | Thrown e => Thrown e
  end.

(** The template literal [`${city}, ${country}`]. *)
Definition heading (city country : JsVal) : Completion string :=
  match to_string engine "city" city with
  | Thrown e => Thrown e
  | Normal c =>
      match to_string engine "country" country with
      | Thrown e => Thrown e
      | Normal k => Normal (c ++ ", " ++ k)
      end
  end.

Definition updateUI (city country data : JsVal) : Prog unit :=
  current <- prop data "current" "data" ;;
  text <- lift (heading city country) ;;
  act (Set_textContent cityNameEl text) ;;
  page <- Read Ret ;;
  act (Set_textContent dateEl (locale_date page)) ;;
  temperature_2m <- prop current "temperature_2m" "current" ;;
  text <- lift (rounded "current.temperature_2m" temperature_2m) ;;
  act (Set_textContent tempEl text) ;;
  relative_humidity_2m <- prop current "relative_humidity_2m" "current" ;;
  text <- lift (to_string engine "current.relative_humidity_2m"
                  relative_humidity_2m) ;;
  act (Set_textContent humidityEl (text ++ "%")) ;;
  wind_speed_10m <- prop current "wind_speed_10m" "current" ;;
  text <- lift (to_string engine "current.wind_speed_10m" wind_speed_10m) ;;
  act (Set_textContent windSpeedEl (text ++ " km/h")) ;;
  apparent_temperature <- prop current "apparent_temperature" "current" ;;
  text <- lift (rounded "current.apparent_temperature" apparent_temperature) ;;
  act (Set_textContent feelsLikeEl (text ++ degree_suffix)) ;;
  weather_code <- prop current "weather_code" "current" ;;
  weatherInfo <- lift (getWeatherInfo engine weather_code) ;;
  act (Set_textContent weatherDescEl (description weatherInfo)) ;;
  act (Set_className weatherIconEl ("fa-solid " ++ icon weatherInfo)) ;;
  act (ClassList_remove weatherContainer "hidden").

Definition showError (message : string) : Prog unit :=
  act (Set_textContent errorTextEl message) ;;
  act (ClassList_remove errorContainer "hidden").

Definition not_found_message (city : string) : string :=
  "City " ++ dquote ++ city ++ dquote ++ " not found".

(** The test [!geoData.results || geoData.results.length === 0]. *)
Definition no_results (geoData : JsVal) : Prog bool :=
  results <- prop geoData "results" "geoData" ;;
  if negb (truthy results) then Ret true
  else
    results <- prop geoData "results" "geoData" ;;
    len <- prop results "length" "geoData.results" ;;
    Ret (strict_eq len 0).

(** [const { name, latitude, longitude, country } = geoData.results[0]]. *)
Definition first_result (geoData : JsVal)
  : Prog (JsVal * JsVal * JsVal * JsVal) :=
  results <- prop geoData "results" "geoData" ;;
  first <- prop results "0" "geoData.results" ;;
  name <- destructured first "name" "geoData.results[0]" ;;
  latitude <- destructured first "latitude" "geoData.results[0]" ;;
  longitude <- destructured first "longitude" "geoData.results[0]" ;;
  country <- destructured first "country" "geoData.results[0]" ;;
  Ret (name, latitude, longitude, country).

Definition handleSearch : Prog unit :=
  page <- Read Ret ;;
  let city := trim (value (dom page cityInput)) in
  if negb (truthy (VString city)) then Ret tt
  else
    act (ClassList_add weatherContainer "hidden") ;;
    act (ClassList_add errorContainer "hidden") ;;
    act (ClassList_remove loadingIndicator "hidden") ;;
    try_catch_finally
      (geoData <- fetchGeocoding city ;;
       none <- no_results geoData ;;
       if (none : bool) then throw_Error (not_found_message city)
       else
         first <- first_result geoData ;;
         let '(name, latitude, longitude, country) := first in
         weatherData <- fetchWeather latitude longitude ;;
         updateUI name country weatherData)
      (fun error =>
         act (Console_error "Error fetching weather:" error) ;;
         showError (message error))
      (act (ClassList_add loadingIndicator "hidden")).

(** The two listeners installed on the button and on the input field. *)
Definition on_click : Prog unit := handleSearch.

Definition on_keypress (key : string) : Prog unit :=
  if (key =? "Enter")%string then handleSearch else Ret tt.

End Script.

(* ------------------------------------------------------------------------- *)
(** ** Running programs *)

Inductive Status (A : Type) : Type :=
| Finished (a : A)
| Failed (e : JsError)
| Suspended (p : Prog A).
Arguments Finished {A} a.
Arguments Failed {A} e.
Arguments Suspended {A} p.

(** One turn of the event loop: run [p] up to its next [await] (or to its
    end), returning the page, the effects performed and where it stopped. *)
Fixpoint advance {A : Type} (p : Prog A) (pg : Page)
  : Page * list Action * Status A :=
  match p with
  | Ret a => (pg, [], Finished a)
  | Throw e => (pg, [], Failed e)
  | Read k => advance (k pg) pg
  | Do a k =>
      let '(pg', acts, st) := advance k (apply_action a pg) in
      (pg', a :: acts, st)
  | AwaitFetch _ _ | AwaitJson _ _ => (pg, [], Suspended p)
  end.

Inductive Event : Type :=
| Did (a : Action)
| Requested (url : string)
| BodyRead.

Inductive Outcome (A : Type) : Type :=
| Returned (a : A)
| Uncaught (e : JsError)
| Pending.
Arguments Returned {A} a.
Arguments Uncaught {A} e.
Arguments Pending {A}.

Record Run (A : Type) : Type := mkRun {
  final : Page;
  trace : list Event;
  outcome : Outcome A
}.
Arguments mkRun {A} final trace outcome.
Arguments final {A} r.
Arguments trace {A} r.
Arguments outcome {A} r.

Definition after {A : Type} (ev : Event) (r : Run A) : Run A :=
  mkRun (final r) (ev :: trace r) (outcome r).

(** One search on its own: [net] lists what the successive calls of [fetch]
    settle to.  The flow stays [Pending] when the network never answers. *)
Fixpoint run {A : Type} (p : Prog A) (net : list (Settled Response)) (pg : Page)
  : Run A :=
  match p with
  | Ret a => mkRun pg [] (Returned a)
  | Throw e => mkRun pg [] (Uncaught e)
  | Read k => run (k pg) net pg
  | Do a k => after (Did a) (run k net (apply_action a pg))
  | AwaitFetch url k =>
      match net with
      | [] => mkRun pg [Requested url] Pending
      | r :: net' => after (Requested url) (run (k r) net' pg)
      end
  | AwaitJson r k => after BodyRead (run (k (body r)) net pg)
  end.

(** The event loop of the page: the page itself and the searches that are
    suspended at an [await]. *)
Record Loop : Type := mkLoop { page : Page; pending : list (Prog unit) }.

Inductive Input : Type :=
| Click                                        (* on the search button *)
| Keypress (key : string)                      (* in the input field *)
| Typed (text : string)                        (* new content of the field *)
| FetchSettled (i : nat) (r : Settled Response)
| BodySettled (i : nat).

Definition still (st : Status unit) : list (Prog unit) :=
  match st with
  | Suspended q => [q]
  | Finished _ | Failed _ => []
  end.

Definition start (p : Prog unit) (l : Loop) : Loop :=
  let '(pg, _, st) := advance p (page l) in
  mkLoop pg (pending l ++ still st).

Definition resume (i : nat) (p : Prog unit) (l : Loop) : Loop :=
  let '(pg, _, st) := advance p (page l) in
  mkLoop pg (firstn i (pending l) ++ still st ++ skipn (S i) (pending l)).

Definition set_value (text : string) (e : Element) : Element :=
  {| classList := classList e; textContent := textContent e; value := text |}.

Section EventLoop.

Variable engine : Engine.

Definition loop_step (l : Loop) (inp : Input) : option Loop :=
  match inp with
  | Click => Some (start (on_click engine) l)
  | Keypress key => Some (start (on_keypress engine key) l)
  | Typed text =>
      Some (mkLoop (update (page l) cityInput (set_value text)) (pending l))
  | FetchSettled i r =>
      match nth_error (pending l) i with
      | Some (AwaitFetch _ k) => Some (resume i (k r) l)
      | _ => None
      end
  | BodySettled i =>
      match nth_error (pending l) i with
      | Some (AwaitJson resp k) => Some (resume i (k (body resp)) l)
      | _ => None
      end
  end.

Fixpoint loop_run (l : Loop) (inputs : list Input) : option Loop :=
  match inputs with
  | [] => Some l
  | inp :: rest =>
      match loop_step l inp with
      | Some l' => loop_run l' rest
      | None => None
      end
  end.

End EventLoop.

(** ** Observations *)

(** The three panels, as (result, error, loading). *)
Definition panels_hidden (pg : Page) : bool * bool * bool :=
  (hidden pg weatherContainer, hidden pg errorContainer,
   hidden pg loadingIndicator).

Definition visible_panels (pg : Page) : nat :=
  List.length (filter (visible pg)
                 [loadingIndicator; weatherContainer; errorContainer]).

Inductive UIState : Type := Idle | Loading | Result | Error.

(** The state shown by the page, when the panels show one. *)
Definition ui_state (pg : Page) : option UIState :=
  match panels_hidden pg with
  | (true, true, true) => Some Idle
  | (true, true, false) => Some Loading
  | (false, true, true) => Some Result
  | (true, false, true) => Some Error
  | _ => None
  end.

Definition text_of (pg : Page) (el : ElemId) : string := textContent (dom pg el).

(* ------------------------------------------------------------------------- *)
(** ** The range table of the classifier *)

(** The icon keys of the table are FontAwesome class names without their
    [fa-] prefix. *)
Definition icon_class (key : string) : string := "fa-" ++ key.

Definition entry (descr key : string) : WeatherInfo :=
  {| description := descr; icon := icon_class key |}.

(** The range table: inclusive bounds and the entry of each row. *)
Definition range_table : list (Z * Z * WeatherInfo) :=
  [ (0, 0, entry "Clear Sky" "sun");
    (1, 3, entry "Partly Cloudy" "cloud-sun");
    (45, 48, entry "Foggy" "smog");
    (51, 55, entry "Drizzle" "cloud-rain");
    (61, 65, entry "Rain" "cloud-showers-heavy");
    (71, 77, entry "Snow Fall" "snowflake");
    (80, 82, entry "Rain Showers" "cloud-showers-water");
    (95, 99, entry "Thunderstorm" "cloud-bolt") ].

Definition unknown_entry : WeatherInfo := entry "Unknown" "cloud".

Definition in_row (z : Z) (row : Z * Z * WeatherInfo) : bool :=
  let '(lo, hi, _) := row in (lo <=? z) && (z <=? hi).

Definition in_ranges (z : Z) : bool := existsb (in_row z) range_table.

(** The set of codes as one sentence of the specification lists it, with
    the fog row reduced to its two end points. *)
Definition listed_codes (z : Z) : bool :=
  (z =? 0) || (1 <=? z) && (z <=? 3) || (z =? 45) || (z =? 48)
  || (51 <=? z) && (z <=? 55) || (61 <=? z) && (z <=? 65)
  || (71 <=? z) && (z <=? 77) || (80 <=? z) && (z <=? 82)
  || (95 <=? z) && (z <=? 99).

Definition nullish_text (v : JsVal) : string :=
  match v with
  | VNull => "null"
  | _ => "undefined"
  end.

(** An engine to evaluate the script with. *)
Definition sample_engine : Engine :=
  {| StringToNumber := fun _ => NaN;
     NumberToString_other := fun _ => "?";
     TypeError_message := fun cause =>
       match cause with
       | ReadOfNullish _ v key =>
           "Cannot read properties of " ++ nullish_text v
             ++ " (reading '" ++ key ++ "')"
       | DestructuringOfNullish expr v =>
           "Cannot destructure '" ++ expr ++ "' as it is "
             ++ nullish_text v ++ "."
       | NotPrimitive _ _ => "Cannot convert object to primitive value"
       end |}.

(* ------------------------------------------------------------------------- *)
(** ** Vocabulary of the properties *)

(** The page after a run is obtained by replaying its trace. *)
Definition apply_event (ev : Event) (pg : Page) : Page :=
  match ev with
  | Did a => apply_action a pg
  | Requested _ | BodyRead => pg
  end.

Definition replay (tr : list Event) (pg : Page) : Page :=
  fold_left (fun pg ev => apply_event ev pg) tr pg.

(** The run of a search that was advanced by one turn. *)
Definition resumed {A : Type} (st : Status A) (net : list (Settled Response))
    (pg : Page) : Run A :=
  match st with
  | Finished a => mkRun pg [] (Returned a)
  | Failed e => mkRun pg [] (Uncaught e)
  | Suspended t => run t net pg
  end.

(** *** Monitors

    A monitor folds a state over the events of a program.  [always] states,
    by recursion on the program, that the monitor is in an accepted state
    whenever the program is suspended, returns or throws, whatever the page
    shows and whatever the network answers. *)

Section Monitor.

Context {S : Type}.
Variable step : Event -> S -> S.
Variable at_await : S -> Prop.
Variable at_return : S -> Prop.
Variable at_throw : JsError -> S -> Prop.

Fixpoint always (p : Prog unit) (s : S) : Prop :=
  match p with
  | Ret _ => at_return s
  | Throw e => at_throw e s
  | Read k => forall pg, always (k pg) s
  | Do a k => always k (step (Did a) s)
  | AwaitFetch url k =>
      at_await (step (Requested url) s)
      /\ forall r, always (k r) (step (Requested url) s)
  | AwaitJson _ k =>
      at_await (step BodyRead s) /\ forall b, always (k b) (step BodyRead s)
  end.

Definition observe (tr : list Event) (s : S) : S :=
  fold_left (fun s ev => step ev s) tr s.

Definition accepted (out : Outcome unit) (s : S) : Prop :=
  match out with
  | Returned _ => at_return s
  | Uncaught e => at_throw e s
  | Pending => at_await s
  end.

Definition accepted_status (st : Status unit) (s : S) : Prop :=
  match st with
  | Finished _ => at_return s
  | Failed e => at_throw e s
  | Suspended t => always t s
  end.

End Monitor.

(** *** The panels *)

Definition Panels : Type := (bool * bool * bool)%type.

Definition loading_only : Panels := (true, true, false).
Definition result_only : Panels := (false, true, true).
Definition error_only : Panels := (true, false, true).

Definition set_panel (el : ElemId) (f : bool -> bool) (s : Panels) : Panels :=
  let '(w, e, l) := s in
  match el with
  | weatherContainer => (f w, e, l)
  | errorContainer => (w, f e, l)
  | loadingIndicator => (w, e, f l)
  | _ => s
  end.

(** What an event does to the [hidden] flags of the three panels. *)
Definition panel_step (ev : Event) (s : Panels) : Panels :=
  match ev with
  | Did (ClassList_add el token) =>
      set_panel el (fun old => if (token =? "hidden")%string then true else old) s
  | Did (ClassList_remove el token) =>
      set_panel el (fun old => if (token =? "hidden")%string then false else old) s
  | Did (Set_className el name) =>
      set_panel el (fun _ => has_token "hidden" (class_tokens "" name)) s
  | _ => s
  end.

Definition shown (s : Panels) : nat :=
  let '(w, e, l) := s in
  List.length (filter negb [l; w; e]).

Definition at_most_one (pg : Page) : Prop := (visible_panels pg <= 1)%nat.

(** *** Traces *)

Definition count (f : Event -> bool) (tr : list Event) : nat :=
  List.length (filter f tr).

Definition hides_loading (ev : Event) : bool :=
  match ev with
  | Did (ClassList_add loadingIndicator token) => (token =? "hidden")%string
  | _ => false
  end.

Definition is_request (ev : Event) : bool :=
  match ev with
  | Requested _ => true
  | _ => false
  end.

Definition is_weather_request (ev : Event) : bool :=
  match ev with
  | Requested url => prefix "https://api.open-meteo.com/v1/forecast" url
  | _ => false
  end.

Definition shows_result (ev : Event) : bool :=
  match ev with
  | Did (ClassList_remove weatherContainer token) => (token =? "hidden")%string
  | _ => false
  end.

Definition prologue : list Event :=
  [ Did (ClassList_add weatherContainer "hidden");
    Did (ClassList_add errorContainer "hidden");
    Did (ClassList_remove loadingIndicator "hidden") ].

Definition result_epilogue : list Event :=
  [ Did (ClassList_remove weatherContainer "hidden");
    Did (ClassList_add loadingIndicator "hidden") ].

Definition error_epilogue (e : JsError) : list Event :=
  [ Did (Console_error "Error fetching weather:" e);
    Did (Set_textContent errorTextEl (message e));
    Did (ClassList_remove errorContainer "hidden");
    Did (ClassList_add loadingIndicator "hidden") ].

(** The history monitor keeps the events seen so far, latest first. *)
Definition record (ev : Event) (h : list Event) : list Event := ev :: h.

Definition ends_with (h : list Event) (suffix : list Event) : Prop :=
  firstn (List.length suffix) h = rev suffix.

Definition while_pending (h : list Event) : Prop :=
  count hides_loading h = 0%nat /\ (count is_request h <= 2)%nat
  /\ count shows_result h = 0%nat.

Definition when_done (h : list Event) : Prop :=
  count hides_loading h = 1%nat /\ (count is_request h <= 2)%nat
  /\ ((ends_with h result_epilogue /\ count shows_result h = 1%nat)
      \/ (exists e, ends_with h (error_epilogue e))
         /\ count shows_result h = 0%nat).

Definition never_thrown (e : JsError) (h : list Event) : Prop := False.

(** *** The answers of the geocoder *)

(** The geocoding answer carries no result: the test of [handleSearch] on
    [geoData.results] succeeds. *)
Definition no_result_list (geoData : JsVal) : bool :=
  match get_prop geoData "results" with
  | Some results =>
      negb (truthy results)
      || match get_prop results "length" with
         | Some len => strict_eq len 0
         | None => false
         end
  | None => false
  end.

(** The fields of the first result, when the answer has one that can be
    destructured. *)
Definition located (geoData : JsVal) : option (JsVal * JsVal * JsVal * JsVal) :=
  if no_result_list geoData then None
  else
    match get_prop geoData "results" with
    | Some results =>
        match get_prop results "0" with
        | Some first =>
            match get_prop first "name", get_prop first "latitude",
                  get_prop first "longitude", get_prop first "country" with
            | Some name, Some latitude, Some longitude, Some country =>
                Some (name, latitude, longitude, country)
            | _, _, _, _ => None
            end
        | None => None
        end
    | None => None
    end.

Definition contains (s sub : string) : Prop :=
  exists before after, s = before ++ sub ++ after.

(** [n] is an integer nearest to [q], the upper one on a tie. *)
Definition is_nearest (n : Z) (q : Q) : Prop :=
  (inject_Z n - (1 # 2) <= q /\ q < inject_Z n + (1 # 2))%Q.

(** *** The script below its guard *)

Section Searching.

Variable engine : Engine.

(** What [handleSearch] does once [city] has passed the guard. *)
Definition searching (city : string) : Prog unit :=
  act (ClassList_add weatherContainer "hidden") ;;
  act (ClassList_add errorContainer "hidden") ;;
  act (ClassList_remove loadingIndicator "hidden") ;;
  try_catch_finally
    (geoData <- fetchGeocoding city ;;
     none <- no_results engine geoData ;;
     if (none : bool) then throw_Error (not_found_message city)
     else
       first <- first_result engine geoData ;;
       let '(name, latitude, longitude, country) := first in
       weatherData <- fetchWeather engine latitude longitude ;;
       updateUI engine name country weatherData)
    (fun error =>
       act (Console_error "Error fetching weather:" error) ;;
       showError (message error))
    (act (ClassList_add loadingIndicator "hidden")).

(** *** Searches that do not overlap *)

Definition submits (inp : Input) : bool :=
  match inp with
  | Click => true
  | Keypress key => (key =? "Enter")%string
  | Typed _ | FetchSettled _ _ | BodySettled _ => false
  end.

Definition idle (l : Loop) : bool :=
  match pending l with
  | [] => true
  | _ :: _ => false
  end.

(** The event loop, refusing a submission made while a search is still
    suspended. *)
Fixpoint loop_run_apart (l : Loop) (inputs : list Input) : option Loop :=
  match inputs with
  | [] => Some l
  | inp :: rest =>
      if submits inp && negb (idle l) then None
      else match loop_step engine l inp with
           | Some l' => loop_run_apart l' rest
           | None => None
           end
  end.

End Searching.

(** *** Sample data *)

Definition blank_element : Element :=
  {| classList := ["hidden"]; textContent := ""; value := "" |}.

(** A page in its initial state: the three panels hidden, a city typed. *)
Definition sample_page : Page :=
  {| dom := fun el =>
              match el with
              | cityInput =>
                  {| classList := []; textContent := ""; value := " Paris " |}
              | _ => blank_element
              end;
     locale_date := "Monday, Jan 3" |}.

Definition sample_place : JsVal :=
  VObject [ ("results",
             VArray [ VObject [ ("name", VString "Paris");
                                ("latitude", VNumber (Fin (488534 # 10000)));
                                ("longitude", VNumber (Fin (23488 # 10000)));
                                ("country", VString "France") ] ]) ].

Definition sample_weather : JsVal :=
  VObject [ ("current",
             VObject [ ("temperature_2m", VNumber (Fin (234 # 10)));
                       ("relative_humidity_2m", int 40);
                       ("apparent_temperature", VNumber (Fin (216 # 10)));
                       ("weather_code", int 3);
                       ("wind_speed_10m", VNumber (Fin (5 # 2))) ]) ].

Definition answer (v : JsVal) : Settled Response :=
  Fulfilled {| ok := true; body := Fulfilled v |}.

Definition refusal : Settled Response :=
  Fulfilled {| ok := false; body := Rejected (mkError "no body") |}.

(** *** The invariant of searches that do not overlap *)

Definition panels_suspended (s : Panels) : Prop := s = loading_only.
Definition panels_settled (s : Panels) : Prop := s = result_only \/ s = error_only.
Definition panels_thrown (e : JsError) (s : Panels) : Prop := False.

(** Either no search is suspended and at most one panel is displayed, or one
    search is, the page shows the loading indicator alone and, from there,
    every path of the search suspends with that same display and ends with
    the result panel or the error panel alone. *)
Definition apart_invariant (l : Loop) : Prop :=
  match pending l with
  | [] => at_most_one (page l)
  | [t] =>
      panels_hidden (page l) = loading_only
      /\ always panel_step panels_suspended panels_settled panels_thrown
           t loading_only
  | _ :: _ :: _ => False
  end.

(** A page whose input field holds white space only, while a result is on
    display. *)
Definition blank_page : Page :=
  {| dom := fun el =>
              match el with
              | cityInput =>
                  {| classList := []; textContent := "";
                     value := "  " ++ chr 9 ++ chr 160 |}
              | weatherContainer =>
                  {| classList := ["card"]; textContent := ""; value := "" |}
              | _ => blank_element
              end;
     locale_date := "Monday, Jan 3" |}.

(** Two searches one after the other, and two searches that overlap. *)
Definition apart_inputs : list Input :=
  [ Click; FetchSettled 0 (answer sample_place); BodySettled 0;
    FetchSettled 0 (answer sample_weather); BodySettled 0;
    Keypress "Enter"; FetchSettled 0 refusal ].

Definition overlapping_inputs : list Input :=
  [ Click; Click; FetchSettled 0 (answer sample_place); BodySettled 0;
    FetchSettled 0 (answer sample_weather); BodySettled 0;
    FetchSettled 0 refusal ].

(** *** The two phases of a search *)

(** The value of a property of an object, [undefined] when the read
    throws. *)
Definition field (v : JsVal) (key : string) : JsVal :=
  match get_prop v key with
  | Some x => x
  | None => VUndefined
  end.

Definition nullish (v : JsVal) : bool :=
  match v with
  | VUndefined | VNull => true
  | _ => false
  end.

(** A run that performed [tr] and returned. *)
Definition completed (tr : list Event) (pg : Page) : Run unit :=
  mkRun (replay tr pg) tr (Returned tt).

(** A run that, after [front], went through the [catch] block with [e]. *)
Definition caught (front : list Event) (e : JsError) (pg : Page) : Run unit :=
  completed (front ++ error_epilogue e) pg.

(** The events [front] followed by the run [r]. *)
Definition preceded (front : list Event) (r : Run unit) : Run unit :=
  mkRun (final r) (front ++ trace r) (outcome r).

Section Phases.

Variable engine : Engine.

(** The exception raised on an answer of the geocoder that yields no
    coordinates. *)
Definition geocoding_error (city : string) (geoData : JsVal) : JsError :=
  if no_result_list geoData then mkError (not_found_message city)
  else if nullish geoData
  then mkError (TypeError_message engine
                  (ReadOfNullish "geoData" geoData "results"))
  else mkError (TypeError_message engine
                  (DestructuringOfNullish "geoData.results[0]"
                     (field (field geoData "results") "0"))).

(** The rest of the [try] statement once the first result is known. *)
Definition rendering (name latitude longitude country : JsVal) : Prog unit :=
  try_catch_finally
    (weatherData <- fetchWeather engine latitude longitude ;;
     updateUI engine name country weatherData)
    (fun error =>
       act (Console_error "Error fetching weather:" error) ;;
       showError (message error))
    (act (ClassList_add loadingIndicator "hidden")).

End Phases.

(* ------------------------------------------------------------------------- *)
(** ** Vocabulary of the further properties *)

(** The rows of the table, read on a finite number. *)
Definition in_row_Q (q : Q) (row : Z * Z * WeatherInfo) : bool :=
  let '(lo, hi, _) := row in
  Qle_bool (inject_Z lo) q && Qle_bool q (inject_Z hi).

Definition in_ranges_Q (q : Q) : bool := existsb (in_row_Q q) range_table.

Definition is_number (v : JsVal) : bool :=
  match v with
  | VNumber _ => true
  | _ => false
  end.

Definition is_zero (n : JsNum) : bool :=
  match n with
  | Fin q => Qeq_bool q 0
  | _ => false
  end.

(** The characters [encodeURIComponent] lets through or produces. *)
Definition url_safe (c : ascii) : bool := unreserved c || (c =? "%")%char.

Definition chars (s : string) : list ascii := list_ascii_of_string s.

(** The [try] statement of [handleSearch] around an arbitrary body. *)
Definition guarded (p : Prog unit) : Prog unit :=
  try_catch_finally p
    (fun error =>
       act (Console_error "Error fetching weather:" error) ;;
       showError (message error))
    (act (ClassList_add loadingIndicator "hidden")).

(** The [try] block of [handleSearch]. *)
Definition lookup (engine : Engine) (city : string) : Prog unit :=
  geoData <- fetchGeocoding city ;;
  none <- no_results engine geoData ;;
  if (none : bool) then throw_Error (not_found_message city)
  else
    first <- first_result engine geoData ;;
    let '(name, latitude, longitude, country) := first in
    weatherData <- fetchWeather engine latitude longitude ;;
    updateUI engine name country weatherData.

(** Panels while the [try] block runs: the indicator alone until the
    renderer shows the result panel as its last step. *)
Definition rendered_panels : Panels := (false, true, false).

(** The element an action writes to. *)
Definition target (a : Action) : option ElemId :=
  match a with
  | ClassList_add el _ | ClassList_remove el _
  | Set_textContent el _ | Set_className el _ => Some el
  | Console_error _ _ => None
  end.

(** The event leaves the element [el] as it is. *)
Definition spares (el : ElemId) (ev : Event) : bool :=
  match ev with
  | Did a =>
      match target a with
      | Some x => negb (ElemId_eqb el x)
      | None => true
      end
  | Requested _ | BodyRead => true
  end.

(** The elements of the result panel, and the panel itself. *)
Definition result_element (el : ElemId) : bool :=
  match el with
  | weatherContainer | cityNameEl | dateEl | tempEl | weatherDescEl
  | weatherIconEl | humidityEl | windSpeedEl | feelsLikeEl => true
  | _ => false
  end.

(** The event writes to the result panel, otherwise than by hiding it. *)
Definition writes_result (ev : Event) : bool :=
  match ev with
  | Did (ClassList_add weatherContainer _) => false
  | Did a =>
      match target a with
      | Some el => result_element el
      | None => false
      end
  | Requested _ | BodyRead => false
  end.

Definition is_body_read (ev : Event) : bool :=
  match ev with
  | BodyRead => true
  | _ => false
  end.

Definition is_console_error (ev : Event) : bool :=
  match ev with
  | Did (Console_error _ _) => true
  | _ => false
  end.

(** Inputs of the event loop that belong to typing in the field. *)
Definition is_typing (inp : Input) : bool :=
  match inp with
  | Keypress key => negb (key =? "Enter")%string
  | Typed _ => true
  | Click | FetchSettled _ _ | BodySettled _ => false
  end.

Section Rendering.

Variable engine : Engine.

(** The value can be converted to a string, and so to a number. *)
Definition converts (v : JsVal) : bool :=
  match ToString engine v with
  | Some _ => true
  | None => false
  end.

(** The five fields of a [current] block that [updateUI] converts, in the
    order in which it does. *)
Definition shown_fields (current : JsVal) : list JsVal :=
  [ field current "temperature_2m"; field current "relative_humidity_2m";
    field current "wind_speed_10m"; field current "apparent_temperature";
    field current "weather_code" ].

(** The texts [updateUI] computes from the [current] block of an answer. *)
Record Texts : Type := mkTexts {
  title : string;
  temperature : string;
  humidity : string;
  wind : string;
  feels_like : string;
  info : WeatherInfo
}.

Definition texts_of (city country current : JsVal) (t : Texts) : Prop :=
  heading engine city country = Normal (title t)
  /\ rounded engine "current.temperature_2m" (field current "temperature_2m")
     = Normal (temperature t)
  /\ to_string engine "current.relative_humidity_2m"
       (field current "relative_humidity_2m") = Normal (humidity t)
  /\ to_string engine "current.wind_speed_10m"
       (field current "wind_speed_10m") = Normal (wind t)
  /\ rounded engine "current.apparent_temperature"
       (field current "apparent_temperature") = Normal (feels_like t)
  /\ getWeatherInfo engine (field current "weather_code") = Normal (info t).

End Rendering.

(** The effects of [updateUI] that writes the texts [t] on a page whose date
    is [date]. *)
Definition render_events (t : Texts) (date : string) : list Event :=
  [ Did (Set_textContent cityNameEl (title t));
    Did (Set_textContent dateEl date);
    Did (Set_textContent tempEl (temperature t));
    Did (Set_textContent humidityEl (humidity t ++ "%"));
    Did (Set_textContent windSpeedEl (wind t ++ " km/h"));
    Did (Set_textContent feelsLikeEl (feels_like t ++ degree_suffix));
    Did (Set_textContent weatherDescEl (description (info t)));
    Did (Set_className weatherIconEl ("fa-solid " ++ icon (info t)));
    Did (ClassList_remove weatherContainer "hidden") ].

(** What it leaves behind when the answer has no [current] block. *)
Definition header_events (title date : string) : list Event :=
  [ Did (Set_textContent cityNameEl title);
    Did (Set_textContent dateEl date) ].


(** Two pages that differ at most by the content of the input field. *)
Definition same_display (pg pg' : Page) : Prop :=
  locale_date pg' = locale_date pg
  /\ forall el,
       classList (dom pg' el) = classList (dom pg el)
       /\ textContent (dom pg' el) = textContent (dom pg el)
       /\ (el <> cityInput -> value (dom pg' el) = value (dom pg el)).

(** The content of the input field after some inputs. *)
Definition typed_value (v : string) (inputs : list Input) : string :=
  fold_left (fun v inp => match inp with
                          | Typed text => text
                          | _ => v
                          end) inputs v.

(** Monitor of the writes to the input field and to the button. *)
Definition keeps_controls (ev : Event) (s : bool) : bool :=
  s && spares cityInput ev && spares searchBtn ev.

Definition controls_kept (s : bool) : Prop := s = true.
Definition controls_thrown (e : JsError) (s : bool) : Prop := False.

(** Accepted histories of the audit of a search: the result panel is written
    only once two bodies were read, and [console.error] is called once, by
    the [catch] block, or not at all. *)
Definition audit_pending (h : list Event) : Prop :=
  count is_console_error h = 0%nat
  /\ count writes_result h = 0%nat
  /\ (count is_body_read h <= 2)%nat.

Definition audit_done (h : list Event) : Prop :=
  (((exists e, ends_with h (error_epilogue e))
    /\ count is_console_error h = 1%nat)
   \/ (ends_with h result_epilogue
       /\ count is_console_error h = 0%nat
       /\ count is_body_read h = 2%nat))
  /\ (count is_body_read h <= 2)%nat
  /\ ((count is_body_read h < 2)%nat -> count writes_result h = 0%nat).

(** Weather answers with an empty [current] block, and with none. *)
Definition bare_weather : JsVal := VObject [("current", VObject [])].
Definition no_weather : JsVal := VObject [("latitude", int 48)].

(** A weather answer whose humidity is an object with a property named
    [toString], which no conversion accepts. *)
Definition odd_weather : JsVal :=
  VObject [ ("current",
             VObject [ ("temperature_2m", VNumber (Fin (234 # 10)));
                       ("relative_humidity_2m",
                        VObject [("toString", VString "40")]);
                       ("apparent_temperature", VNumber (Fin (216 # 10)));
                       ("weather_code", int 3);
                       ("wind_speed_10m", VNumber (Fin (5 # 2))) ]) ].

Section Verdict.

Variable engine : Engine.

(** The state in which a search leaves the page, read off the answers of the
    network alone: [Loading] as long as a call that was sent is unanswered,
    [Result] when both calls are answered with a success status and a
    readable body, the geocoder has a first result, the weather answer a
    [current] block, and every value the script converts can be converted,
    [Error] in every other case. *)
Definition weather_verdict (name country : JsVal)
    (rest : list (Settled Response)) : UIState :=
  match rest with
  | [] => Loading
  | Rejected _ :: _ => Error
  | Fulfilled resp' :: _ =>
      if ok resp' then
        match body resp' with
        | Rejected _ => Error
        | Fulfilled data =>
            if nullish (field data "current") then Error
            else if forallb (converts engine)
                      (name :: country :: shown_fields (field data "current"))
            then Result
            else Error
        end
      else Error
  end.

Definition verdict (net : list (Settled Response)) : UIState :=
  match net with
  | [] => Loading
  | Rejected _ :: _ => Error
  | Fulfilled resp :: rest =>
      if ok resp then
        match body resp with
        | Rejected _ => Error
        | Fulfilled geoData =>
            match located geoData with
            | None => Error
            | Some (name, latitude, longitude, country) =>
                if converts engine latitude && converts engine longitude
                then weather_verdict name country rest
                else Error
            end
        end
      else Error
  end.

End Verdict.

(** *** Searches that overlap

    What one turn of a search does to the panels, when what the page showed
    at the start of the turn is not known: each flag is either set by the
    turn or left as it was. *)
Definition Turn : Type := (option bool * option bool * option bool)%type.

Definition untouched : Turn := (None, None, None).

Definition set_flag (el : ElemId) (b : bool) (t : Turn) : Turn :=
  let '(w, e, l) := t in
  match el with
  | weatherContainer => (Some b, e, l)
  | errorContainer => (w, Some b, l)
  | loadingIndicator => (w, e, Some b)
  | _ => t
  end.

Definition turn_step (a : Action) (t : Turn) : Turn :=
  match a with
  | ClassList_add el token =>
      if (token =? "hidden")%string then set_flag el true t else t
  | ClassList_remove el token =>
      if (token =? "hidden")%string then set_flag el false t else t
  | Set_className el name =>
      match el with
      | weatherContainer | errorContainer | loadingIndicator =>
          set_flag el (has_token "hidden" (class_tokens "" name)) t
      | _ => t
      end
  | Set_textContent _ _ | Console_error _ _ => t
  end.

Definition or_else (o : option bool) (b : bool) : bool :=
  match o with
  | Some x => x
  | None => b
  end.

(** The flags of the page after the turn. *)
Definition after_turn (t : Turn) (s : Panels) : Panels :=
  let '(w, e, l) := t in
  let '(w0, e0, l0) := s in
  (or_else w w0, or_else e e0, or_else l l0).

(** The turn keeps the loading indicator alone whenever it is shown: it
    hides the indicator, or shows it and hides both panels, or leaves it as
    it is and shows no panel. *)
Definition keeps_alone (t : Turn) : bool :=
  let '(w, e, l) := t in
  match l with
  | Some true => true
  | Some false => or_else w false && or_else e false
  | None => or_else w true && or_else e true
  end.

Definition hides_indicator (t : Turn) : bool :=
  match t with
  | (_, _, Some true) => true
  | _ => false
  end.

(** Monitor of the turns of a search: the current turn, and whether every
    turn before it kept the indicator alone. *)
Definition turns_step (ev : Event) (s : Turn * bool) : Turn * bool :=
  match ev with
  | Did a => (turn_step a (fst s), snd s)
  | Requested _ | BodyRead => (untouched, snd s && keeps_alone (fst s))
  end.

Definition turns_fine (s : Turn * bool) : Prop := snd s = true.

Definition turns_end (s : Turn * bool) : Prop :=
  snd s = true /\ keeps_alone (fst s) = true /\ hides_indicator (fst s) = true.

Definition turns_thrown (e : JsError) (s : Turn * bool) : Prop := False.

(** A suspended search all of whose later turns are accepted. *)
Definition waiting (t : Prog unit) : Prop :=
  match t with
  | AwaitFetch _ k =>
      forall r, always turns_step turns_fine turns_end turns_thrown
                  (k r) (untouched, true)
  | AwaitJson _ k =>
      forall b, always turns_step turns_fine turns_end turns_thrown
                  (k b) (untouched, true)
  | _ => False
  end.

(** The loading indicator is shown alone, if it is shown. *)
Definition indicator_alone (s : Panels) : Prop :=
  let '(w, e, l) := s in l = false -> w = true /\ e = true.

Definition overlap_invariant (l : Loop) : Prop :=
  indicator_alone (panels_hidden (page l))
  /\ (pending l = [] -> hidden (page l) loadingIndicator = true)
  /\ Forall waiting (pending l).

(* ========================================================================= *)
(** * Properties *)

(** ** The classifier *)

Lemma Qle_bool_inject_Z (a b : Z) :
  Qle_bool (inject_Z a) (inject_Z b) = (a <=? b).
Proof.
  unfold Qle_bool, inject_Z; simpl. now rewrite !Z.mul_1_r.
Qed.

Lemma Qeq_bool_inject_Z (a b : Z) :
  Qeq_bool (inject_Z a) (inject_Z b) = (a =? b).
Proof.
  unfold Qeq_bool, inject_Z; simpl. now rewrite !Z.mul_1_r.
Qed.

(** On a number no test of the chain throws: each range test is the
    conjunction of its two comparisons. *)
Lemma between_number (engine : Engine) (n : JsNum) (lo hi : Z) :
  between engine (VNumber n) lo hi = Normal (num_ge n lo && num_le n hi).
Proof.
  unfold between, ge, le, to_number. cbn [ToNumber].
  now destruct (num_ge n lo).
Qed.

(** On an integer code the chain of tests is a chain of integer
    comparisons. *)
Lemma getWeatherInfo_int (engine : Engine) (z : Z) :
  getWeatherInfo engine (int z) =
    Normal
      (if z =? 0 then entry "Clear Sky" "sun"
       else if (1 <=? z) && (z <=? 3) then entry "Partly Cloudy" "cloud-sun"
       else if (45 <=? z) && (z <=? 48) then entry "Foggy" "smog"
       else if (51 <=? z) && (z <=? 55) then entry "Drizzle" "cloud-rain"
       else if (61 <=? z) && (z <=? 65) then entry "Rain" "cloud-showers-heavy"
       else if (71 <=? z) && (z <=? 77) then entry "Snow Fall" "snowflake"
       else if (80 <=? z) && (z <=? 82)
       then entry "Rain Showers" "cloud-showers-water"
       else if (95 <=? z) && (z <=? 99) then entry "Thunderstorm" "cloud-bolt"
       else unknown_entry).
Proof.
  unfold getWeatherInfo, int. rewrite !between_number.
  unfold branch, strict_eq. cbn [num_ge num_le].
  rewrite Qeq_bool_inject_Z, !Qle_bool_inject_Z.
  repeat match goal with
         | |- context [if ?b then _ else _] => destruct b
         end; reflexivity.
Qed.

(** Decide the integer tests one at a time, closing the branches whose
    assumptions are contradictory as soon as they appear. *)
Ltac split_tests :=
  repeat (match goal with
          | |- context [?a =? ?b] => destruct (Z.eqb_spec a b)
          | |- context [?a <=? ?b] => destruct (Z.leb_spec a b)
          end;
          simpl in *; try discriminate; try lia; try reflexivity).

Lemma getWeatherInfo_row (engine : Engine) (z lo hi : Z) (e : WeatherInfo) :
  In (lo, hi, e) range_table -> lo <= z <= hi ->
  getWeatherInfo engine (int z) = Normal e.
Proof.
  intros Hin Hz. rewrite getWeatherInfo_int.
  simpl in Hin.
  repeat match type of Hin with
         | _ \/ _ => destruct Hin as [Hin|Hin]
         end;
    try contradiction; inversion Hin; subst; clear Hin;
    split_tests.
Qed.

Lemma getWeatherInfo_unmatched (engine : Engine) (z : Z) :
  in_ranges z = false ->
  getWeatherInfo engine (int z) = Normal unknown_entry.
Proof.
  rewrite getWeatherInfo_int. unfold in_ranges, range_table, in_row; simpl.
  intros H. split_tests.
Qed.

Lemma in_ranges_row (z : Z) :
  in_ranges z = true ->
  exists lo hi e, In (lo, hi, e) range_table /\ lo <= z <= hi.
Proof.
  unfold in_ranges. rewrite existsb_exists.
  intros [[[lo hi] e] [Hin Hrow]]. exists lo, hi, e. split; [exact Hin|].
  unfold in_row in Hrow. apply andb_prop in Hrow as [H1 H2].
  apply Z.leb_le in H1, H2. lia.
Qed.

(** C1: on every integer code the classifier returns the entry of the row
    of the range table that contains the code, the fog row being the whole
    interval 45..48; codes 46 and 47 are Foggy, codes 44 and 49 get the
    default entry. *)
Theorem getWeatherInfo_table (engine : Engine) :
  (forall z lo hi e,
      In (lo, hi, e) range_table -> lo <= z <= hi ->
      getWeatherInfo engine (int z) = Normal e)
  /\ getWeatherInfo engine (int 46) = Normal (entry "Foggy" "smog")
  /\ getWeatherInfo engine (int 47) = Normal (entry "Foggy" "smog")
  /\ getWeatherInfo engine (int 44) = Normal unknown_entry
  /\ getWeatherInfo engine (int 49) = Normal unknown_entry.
Proof.
  split; [intros; eapply getWeatherInfo_row; eassumption|].
  repeat split; rewrite getWeatherInfo_int; reflexivity.
Qed.

Lemma getWeatherInfo_table_witness :
  In (45, 48, entry "Foggy" "smog") range_table /\ 45 <= 46 <= 48
  /\ getWeatherInfo sample_engine (int 46)
     = Normal {| description := "Foggy"; icon := "fa-smog" |}.
Proof.
  assert (Hin : In (45, 48, entry "Foggy" "smog") range_table)
    by (simpl; tauto).
  assert (Hz : 45 <= 46 <= 48) by lia.
  split; [exact Hin|]. split; [exact Hz|].
  exact (proj1 (getWeatherInfo_table sample_engine) 46 45 48 _ Hin Hz).
Defined.

(** C2, as stated, fails: code 46 is outside the listed set
    {0} + [1,3] + {45,48} + ..., yet it is not classified as Unknown. *)
Lemma listed_codes_counterexample :
  listed_codes 46 = false
  /\ getWeatherInfo sample_engine (int 46) <> Normal unknown_entry
  /\ ~ (forall z, listed_codes z = false ->
                  getWeatherInfo sample_engine (int z) = Normal unknown_entry).
Proof.
  split; [reflexivity|]. split.
  - rewrite getWeatherInfo_int. simpl. discriminate.
  - intros H. specialize (H 46 eq_refl).
    rewrite getWeatherInfo_int in H. simpl in H. discriminate H.
Qed.

(** C2, amended: with the fog row read as the interval 45..48, a code inside
    one of the rows gets the entry of that row and every other integer,
    negative or above 99 included, gets the default entry. *)
Theorem getWeatherInfo_ranges_or_default (engine : Engine) (z : Z) :
  (in_ranges z = true ->
     exists lo hi e, In (lo, hi, e) range_table /\ lo <= z <= hi
                     /\ getWeatherInfo engine (int z) = Normal e)
  /\ (in_ranges z = false ->
      getWeatherInfo engine (int z) = Normal unknown_entry)
  /\ (z < 0 \/ 99 < z ->
      getWeatherInfo engine (int z) = Normal unknown_entry).
Proof.
  split; [|split].
  - intros H. destruct (in_ranges_row z H) as (lo & hi & e & Hin & Hz).
    exists lo, hi, e. repeat split; try assumption; try lia.
    eapply getWeatherInfo_row; eassumption.
  - apply getWeatherInfo_unmatched.
  - intros H. apply getWeatherInfo_unmatched.
    unfold in_ranges, range_table, in_row; simpl.
    split_tests.
Qed.

Lemma getWeatherInfo_ranges_or_default_witness :
  in_ranges (-7) = false /\ in_ranges 63 = true /\ (-7 < 0 \/ 99 < -7)
  /\ getWeatherInfo sample_engine (int (-7)) = Normal unknown_entry
  /\ exists lo hi e, In (lo, hi, e) range_table /\ lo <= 63 <= hi
                     /\ getWeatherInfo sample_engine (int 63) = Normal e.
Proof.
  assert (H1 : in_ranges (-7) = false) by reflexivity.
  assert (H2 : in_ranges 63 = true) by reflexivity.
  assert (H3 : -7 < 0 \/ 99 < -7) by (left; lia).
  split; [exact H1|]. split; [exact H2|]. split; [exact H3|]. split.
  - exact (proj2 (proj2 (getWeatherInfo_ranges_or_default sample_engine (-7))) H3).
  - exact (proj1 (getWeatherInfo_ranges_or_default sample_engine 63) H2).
Defined.

Lemma Qle_bool_compat_r (a q1 q2 : Q) :
  q1 == q2 -> Qle_bool a q1 = Qle_bool a q2.
Proof.
  intros H. apply eq_true_iff_eq. rewrite !Qle_bool_iff, H. reflexivity.
Qed.

Lemma Qle_bool_compat_l (a q1 q2 : Q) :
  q1 == q2 -> Qle_bool q1 a = Qle_bool q2 a.
Proof.
  intros H. apply eq_true_iff_eq. rewrite !Qle_bool_iff, H. reflexivity.
Qed.

Lemma Qeq_bool_compat_l (a q1 q2 : Q) :
  q1 == q2 -> Qeq_bool q1 a = Qeq_bool q2 a.
Proof.
  intros H. apply eq_true_iff_eq. rewrite !Qeq_bool_iff, H. reflexivity.
Qed.

Lemma getWeatherInfo_number_entry (engine : Engine) (n : JsNum) :
  exists e,
    getWeatherInfo engine (VNumber n) = Normal e
    /\ In e (unknown_entry :: map snd range_table).
Proof.
  unfold getWeatherInfo. rewrite !between_number. unfold branch.
  repeat match goal with
         | |- context [if ?b then _ else _] => destruct b
         end; eexists; (split; [reflexivity|simpl; tauto]).
Qed.

(** C9: the classifier is total on numbers: every number it is given (an
    integer code in particular) is mapped, without an exception, to one of
    the nine entries of the table, the default one when no row matches;
    equal codes give equal results, also when the same number is written in
    two ways, and the result depends on nothing but the code. *)
Theorem getWeatherInfo_total_deterministic (engine : Engine) :
  (forall n : JsNum,
      exists e,
        getWeatherInfo engine (VNumber n) = Normal e
        /\ In e (unknown_entry :: map snd range_table))
  /\ (forall z : Z,
        exists descr key,
          getWeatherInfo engine (int z) = Normal (entry descr key))
  /\ (forall z : Z,
        in_ranges z = false ->
        getWeatherInfo engine (int z) = Normal unknown_entry)
  /\ (forall q1 q2 : Q,
        q1 == q2 ->
        getWeatherInfo engine (VNumber (Fin q1))
        = getWeatherInfo engine (VNumber (Fin q2)))
  /\ (forall (other : Engine) (n : JsNum),
        getWeatherInfo engine (VNumber n) = getWeatherInfo other (VNumber n)).
Proof.
  split; [|split; [|split; [|split]]].
  - apply getWeatherInfo_number_entry.
  - intros z. rewrite getWeatherInfo_int.
    repeat match goal with
           | |- context [if ?b then _ else _] => destruct b
           end; eexists; eexists; reflexivity.
  - apply getWeatherInfo_unmatched.
  - intros q1 q2 H. unfold getWeatherInfo. rewrite !between_number.
    unfold strict_eq. cbn [num_ge num_le].
    rewrite (Qeq_bool_compat_l _ q1 q2 H).
    rewrite !(Qle_bool_compat_r _ q1 q2 H), !(Qle_bool_compat_l _ q1 q2 H).
    reflexivity.
  - intros other n. unfold getWeatherInfo. rewrite !between_number.
    reflexivity.
Qed.

Lemma getWeatherInfo_total_deterministic_witness :
  (4 # 2) == (2 # 1) /\ in_ranges 50 = false
  /\ getWeatherInfo sample_engine (VNumber (Fin (4 # 2)))
     = getWeatherInfo sample_engine (VNumber (Fin (2 # 1)))
  /\ getWeatherInfo sample_engine (int 50) = Normal unknown_entry.
Proof.
  assert (H : (4 # 2) == (2 # 1)) by reflexivity.
  assert (H' : in_ranges 50 = false) by reflexivity.
  pose proof (getWeatherInfo_total_deterministic sample_engine)
    as (_ & _ & Hdefault & Hsame & _).
  split; [exact H|]. split; [exact H'|]. split.
  - exact (Hsame _ _ H).
  - exact (Hdefault 50 H').
Defined.

(** ** Runs, traces and monitors *)

Lemma final_run {A : Type} (p : Prog A) :
  forall net pg, final (run p net pg) = replay (trace (run p net pg)) pg.
Proof.
  induction p as [a|e|k IH|a k IH|url k IH|r k IH]; intros net pg; simpl;
    try reflexivity.
  - apply IH.
  - apply IH.
  - destruct net as [|r net]; simpl; [reflexivity|apply IH].
  - apply IH.
Qed.

Lemma advance_replay {A : Type} (p : Prog A) :
  forall pg pg' acts st,
    advance p pg = (pg', acts, st) -> pg' = replay (map Did acts) pg.
Proof.
  induction p as [a|e|k IH|a k IH|url k IH|r k IH]; intros pg pg' acts st H;
    simpl in H; try (inversion H; subst; reflexivity).
  - eapply IH; eassumption.
  - destruct (advance k (apply_action a pg)) as [[pg1 acts1] st1] eqn:E.
    inversion H; subst. simpl. eapply IH; eassumption.
Qed.

(** The two semantics agree: a run is the first turn of the event loop
    followed by the run of what that turn left suspended. *)
Lemma run_advance {A : Type} (p : Prog A) :
  forall net pg pg' acts st,
    advance p pg = (pg', acts, st) ->
    run p net pg
    = mkRun (final (resumed st net pg'))
        (map Did acts ++ trace (resumed st net pg'))
        (outcome (resumed st net pg')).
Proof.
  induction p as [a|e|k IH|a k IH|url k IH|r k IH];
    intros net pg pg' acts st H; simpl in H.
  - inversion H; subst. reflexivity.
  - inversion H; subst. reflexivity.
  - simpl. now apply IH.
  - destruct (advance k (apply_action a pg)) as [[pg1 acts1] st1] eqn:E.
    inversion H; subst. simpl. now rewrite (IH net _ _ _ _ E).
  - inversion H; subst. unfold resumed.
    now destruct (run (AwaitFetch url k) net pg').
  - inversion H; subst. unfold resumed.
    now destruct (run (AwaitJson r k) net pg').
Qed.

Lemma replay_app (tr1 tr2 : list Event) (pg : Page) :
  replay (tr1 ++ tr2) pg = replay tr2 (replay tr1 pg).
Proof. apply fold_left_app. Qed.

Section MonitorFacts.

Context {S : Type}.
Variable step : Event -> S -> S.
Variable at_await : S -> Prop.
Variable at_return : S -> Prop.
Variable at_throw : JsError -> S -> Prop.

Lemma always_run (p : Prog unit) :
  forall s net pg,
    always step at_await at_return at_throw p s ->
    accepted at_await at_return at_throw
      (outcome (run p net pg)) (observe step (trace (run p net pg)) s).
Proof.
  induction p as [a|e|k IH|a k IH|url k IH|r k IH]; intros s net pg H;
    simpl in *.
  - exact H.
  - exact H.
  - apply IH, H.
  - apply IH, H.
  - destruct H as [Hs Hk]. destruct net as [|r net]; simpl.
    + exact Hs.
    + apply IH, Hk.
  - destruct H as [_ Hk]. apply IH, Hk.
Qed.

Lemma always_advance (p : Prog unit) :
  forall s pg pg' acts st,
    always step at_await at_return at_throw p s ->
    advance p pg = (pg', acts, st) ->
    accepted_status step at_await at_return at_throw
      st (observe step (map Did acts) s).
Proof.
  induction p as [a|e|k IH|a k IH|url k IH|r k IH];
    intros s pg pg' acts st H Hadv; simpl in *.
  - inversion Hadv; subst. exact H.
  - inversion Hadv; subst. exact H.
  - eapply IH; [apply H|eassumption].
  - destruct (advance k (apply_action a pg)) as [[pg1 acts1] st1] eqn:E.
    inversion Hadv; subst. simpl. eapply IH; [exact H|eassumption].
  - inversion Hadv; subst. exact H.
  - inversion Hadv; subst. exact H.
Qed.

End MonitorFacts.

Lemma observe_record (tr : list Event) :
  forall h, observe record tr h = (rev tr ++ h)%list.
Proof.
  unfold observe.
  induction tr as [|ev tr IH]; intros h; simpl; [reflexivity|].
  rewrite IH. unfold record. now rewrite <- app_assoc.
Qed.

(** ** The guard of [handleSearch] *)

Lemma trim_start_spaces (s : string) :
  only_spaces s = true -> trim_start s = "".
Proof.
  unfold only_spaces. induction s as [|c s IH]; simpl; [reflexivity|].
  intros H. apply andb_prop in H as [Hc Hs]. rewrite Hc. apply IH, Hs.
Qed.

Lemma trim_spaces (s : string) : only_spaces s = true -> trim s = "".
Proof.
  intros H. unfold trim. now rewrite trim_start_spaces.
Qed.

Lemma handleSearch_guard (engine : Engine) :
  handleSearch engine =
    Read (fun page =>
            let city := trim (value (dom page cityInput)) in
            if negb (truthy (VString city)) then Ret tt
            else searching engine city).
Proof. reflexivity. Qed.

Lemma run_blank (engine : Engine) (net : list (Settled Response)) (pg : Page) :
  trim (value (dom pg cityInput)) = "" ->
  run (handleSearch engine) net pg = mkRun pg [] (Returned tt).
Proof.
  intros H. rewrite handleSearch_guard. simpl. rewrite H. reflexivity.
Qed.

Lemma run_searching (engine : Engine) (net : list (Settled Response)) (pg : Page) :
  trim (value (dom pg cityInput)) <> "" ->
  run (handleSearch engine) net pg
  = run (searching engine (trim (value (dom pg cityInput)))) net pg.
Proof.
  intros H. rewrite handleSearch_guard. simpl.
  destruct (String.eqb_spec (trim (value (dom pg cityInput))) "") as [E|E];
    [contradiction|reflexivity].
Qed.

Lemma advance_blank (engine : Engine) (pg : Page) :
  trim (value (dom pg cityInput)) = "" ->
  advance (handleSearch engine) pg = (pg, [], Finished tt).
Proof.
  intros H. rewrite handleSearch_guard. simpl. rewrite H. reflexivity.
Qed.

Lemma advance_searching (engine : Engine) (pg : Page) :
  trim (value (dom pg cityInput)) <> "" ->
  advance (handleSearch engine) pg
  = advance (searching engine (trim (value (dom pg cityInput)))) pg.
Proof.
  intros H. rewrite handleSearch_guard. simpl.
  destruct (String.eqb_spec (trim (value (dom pg cityInput))) "") as [E|E];
    [contradiction|reflexivity].
Qed.

(** ** Every path of a search *)

(** Symbolic execution of a script function under [always]: unfold the
    helpers, then decide the tests of the script one after the other. *)
Ltac unfold_script :=
  unfold searching, try_catch_finally, fetchGeocoding, fetchWeather, updateUI,
    showError, no_results, first_result, fetch, json, prop, destructured,
    throw_Error, act.

Ltac explore_step :=
  match goal with
  | |- _ /\ _ => split
  | |- forall _, _ => intro
  | r : Settled _ |- _ => destruct r
  | |- context [match get_prop ?v ?k with _ => _ end] =>
      destruct (get_prop v k) eqn:?
  | |- context [if negb (truthy ?v) then _ else _] => destruct (truthy v) eqn:?
  | |- context [if strict_eq ?v ?k then _ else _] =>
      destruct (strict_eq v k) eqn:?
  | |- context [if negb (ok ?r) then _ else _] => destruct (ok r) eqn:?
  | |- context [lift ?c] => destruct c eqn:?
  end.

Ltac explore := unfold_script; simpl; repeat (explore_step; simpl).

Lemma searching_history (engine : Engine) (city : string) :
  always record while_pending when_done never_thrown
    (searching engine city) [].
Proof.
  explore.
  all: unfold while_pending, when_done, ends_with, count; simpl.
  all: try (repeat split; (reflexivity || lia)).
  all: split; [reflexivity|split; [lia|]].
  all: first [ left; split; reflexivity
             | right; split; [|reflexivity];
               match goal with
               | |- context [Console_error _ ?x] => exists x; reflexivity
               end ].
Qed.

(** ** The panels *)

Lemma has_token_add_same (t : string) (l : list string) :
  has_token t (add_token t l) = true.
Proof.
  unfold add_token. destruct (has_token t l) eqn:E; [exact E|].
  unfold has_token. rewrite existsb_app. simpl.
  rewrite String.eqb_refl. now rewrite orb_true_r.
Qed.

Lemma has_token_add_other (t t' : string) (l : list string) :
  t' <> t -> has_token t (add_token t' l) = has_token t l.
Proof.
  intros Hne. unfold add_token. destruct (has_token t' l); [reflexivity|].
  unfold has_token. rewrite existsb_app. simpl.
  destruct (String.eqb_spec t t') as [E|E]; [congruence|].
  now rewrite !orb_false_r.
Qed.

Lemma has_token_remove_same (t : string) (l : list string) :
  has_token t (remove_token t l) = false.
Proof.
  unfold has_token, remove_token. induction l as [|x l IH]; simpl; [reflexivity|].
  destruct (String.eqb_spec t x) as [E|E]; simpl; [exact IH|].
  destruct (String.eqb_spec t x); [contradiction|exact IH].
Qed.

Lemma has_token_remove_other (t t' : string) (l : list string) :
  t' <> t -> has_token t (remove_token t' l) = has_token t l.
Proof.
  intros Hne. unfold has_token, remove_token.
  induction l as [|x l IH]; simpl; [reflexivity|].
  destruct (String.eqb_spec t' x) as [E|E]; simpl.
  - subst x. destruct (String.eqb_spec t t'); [congruence|exact IH].
  - now rewrite IH.
Qed.

Lemma hidden_after_add (token : string) (l : list string) :
  has_token "hidden" (add_token token l)
  = if (token =? "hidden")%string then true else has_token "hidden" l.
Proof.
  destruct (String.eqb_spec token "hidden") as [->|Hne].
  - apply has_token_add_same.
  - now apply has_token_add_other.
Qed.

Lemma hidden_after_remove (token : string) (l : list string) :
  has_token "hidden" (remove_token token l)
  = if (token =? "hidden")%string then false else has_token "hidden" l.
Proof.
  destruct (String.eqb_spec token "hidden") as [->|Hne].
  - apply has_token_remove_same.
  - now apply has_token_remove_other.
Qed.

(** [panel_step] is what the actions do to the page, seen through the
    [hidden] flags of the panels. *)
Lemma panels_apply_event (ev : Event) (pg : Page) :
  panels_hidden (apply_event ev pg) = panel_step ev (panels_hidden pg).
Proof.
  destruct ev as [a| |]; try reflexivity.
  destruct a as [el token|el token|el text|el name|label e]; try reflexivity;
    destruct el; unfold panels_hidden, hidden; simpl;
    rewrite ?hidden_after_add, ?hidden_after_remove; reflexivity.
Qed.

Lemma panels_replay (tr : list Event) :
  forall pg, panels_hidden (replay tr pg)
             = observe panel_step tr (panels_hidden pg).
Proof.
  unfold replay, observe.
  induction tr as [|ev tr IH]; intros pg; simpl; [reflexivity|].
  now rewrite IH, panels_apply_event.
Qed.

Lemma visible_panels_shown (pg : Page) :
  visible_panels pg = shown (panels_hidden pg).
Proof.
  unfold visible_panels, shown, panels_hidden, visible; simpl.
  destruct (hidden pg loadingIndicator), (hidden pg weatherContainer),
    (hidden pg errorContainer); reflexivity.
Qed.

Lemma ui_state_at_most_one (pg : Page) :
  at_most_one pg <-> ui_state pg <> None.
Proof.
  unfold at_most_one, ui_state. rewrite visible_panels_shown.
  destruct (panels_hidden pg) as [[[|] [|]] [|]]; simpl;
    split; intros H; try discriminate; try lia; try congruence.
Qed.

Lemma searching_panels (engine : Engine) (city : string) (s : Panels) :
  always panel_step panels_suspended panels_settled panels_thrown
    (searching engine city) s.
Proof.
  destruct s as [[w e] l].
  explore.
  all: unfold panels_suspended, panels_settled, result_only, error_only,
         loading_only; auto.
Qed.

Lemma advance_suspended {A : Type} (p : Prog A) :
  forall pg pg' acts t,
    advance p pg = (pg', acts, Suspended t) ->
    match t with
    | AwaitFetch _ _ | AwaitJson _ _ => True
    | _ => False
    end.
Proof.
  induction p as [a|e|k IH|a k IH|url k IH|r k IH]; intros pg pg' acts t H;
    simpl in H; try (inversion H; subst; exact I); try discriminate H.
  - eapply IH; eassumption.
  - destruct (advance k (apply_action a pg)) as [[pg1 acts1] st1] eqn:E.
    inversion H; subst. eapply IH; eassumption.
Qed.

(** One turn of a program whose paths are all accepted by the panel
    monitor. *)
Lemma advance_panels (p : Prog unit) (pg pg' : Page) acts st :
  always panel_step panels_suspended panels_settled panels_thrown
    p (panels_hidden pg) ->
  advance p pg = (pg', acts, st) ->
  match st with
  | Finished _ => panels_settled (panels_hidden pg')
  | Failed _ => False
  | Suspended t =>
      panels_hidden pg' = loading_only
      /\ always panel_step panels_suspended panels_settled panels_thrown
           t loading_only
  end.
Proof.
  intros Hp Hadv.
  pose proof (always_advance _ _ _ _ p _ _ _ _ _ Hp Hadv) as Hacc.
  pose proof (advance_replay p _ _ _ _ Hadv) as Hpg.
  rewrite <- panels_replay, <- Hpg in Hacc.
  destruct st as [a|e|t]; simpl in Hacc; try exact Hacc.
  pose proof (advance_suspended p _ _ _ _ Hadv) as Ht.
  assert (Hl : panels_hidden pg' = loading_only)
    by (destruct t; try contradiction; simpl in Hacc; apply Hacc).
  split; [exact Hl|]. now rewrite <- Hl.
Qed.

Lemma settled_at_most_one (pg : Page) :
  panels_settled (panels_hidden pg) -> at_most_one pg.
Proof.
  unfold at_most_one. rewrite visible_panels_shown.
  intros [H|H]; rewrite H; simpl; lia.
Qed.

Lemma loading_at_most_one (pg : Page) :
  panels_hidden pg = loading_only -> at_most_one pg.
Proof.
  unfold at_most_one. rewrite visible_panels_shown.
  intros H; rewrite H; simpl; lia.
Qed.

(** The state of the loop after one turn of a search, alone in the loop. *)
Lemma turn_invariant (p : Prog unit) (pg pg' : Page) acts st :
  always panel_step panels_suspended panels_settled panels_thrown
    p (panels_hidden pg) ->
  advance p pg = (pg', acts, st) ->
  apart_invariant (mkLoop pg' (still st)).
Proof.
  intros Hp Hadv. pose proof (advance_panels _ _ _ _ _ Hp Hadv) as H.
  unfold apart_invariant. destruct st as [a|e|t]; simpl.
  - now apply settled_at_most_one.
  - contradiction.
  - exact H.
Qed.

Lemma start_invariant (engine : Engine) (l : Loop) :
  pending l = [] -> at_most_one (page l) ->
  apart_invariant (start (handleSearch engine) l).
Proof.
  intros Hidle Hone. unfold start. rewrite Hidle.
  destruct (String.eqb_spec (trim (value (dom (page l) cityInput))) "")
    as [Hblank|Hcity].
  - rewrite (advance_blank _ _ Hblank). exact Hone.
  - rewrite (advance_searching _ _ Hcity).
    destruct (advance _ (page l)) as [[pg' acts] st] eqn:E.
    eapply turn_invariant; [apply searching_panels|exact E].
Qed.

Lemma loop_step_invariant (engine : Engine) (l l' : Loop) (inp : Input) :
  apart_invariant l ->
  submits inp && negb (idle l) = false ->
  loop_step engine l inp = Some l' ->
  apart_invariant l'.
Proof.
  intros Hinv Hapart Hstep.
  destruct inp as [|key|text|i r|i]; simpl in Hstep, Hapart.
  - (* click *)
    inversion Hstep; subst; clear Hstep.
    unfold idle in Hapart. unfold apart_invariant in Hinv.
    destruct (pending l) as [|t ts] eqn:Hp; [|discriminate].
    now apply start_invariant.
  - (* key press *)
    inversion Hstep; subst; clear Hstep. unfold on_keypress.
    destruct (key =? "Enter")%string; simpl in Hapart.
    + unfold idle in Hapart. unfold apart_invariant in Hinv.
      destruct (pending l) as [|t ts] eqn:Hp; [|discriminate].
      now apply start_invariant.
    + unfold start; simpl. rewrite app_nil_r. destruct l; exact Hinv.
  - (* typing *)
    inversion Hstep; subst; clear Hstep.
    unfold apart_invariant in *; simpl.
    destruct (pending l) as [|t [|t' ts]]; exact Hinv.
  - (* a fetch settles *)
    unfold apart_invariant in Hinv.
    destruct (pending l) as [|t [|t' ts]] eqn:Hp; try contradiction.
    + destruct i; discriminate Hstep.
    + destruct i as [|i]; simpl in Hstep; [|destruct i; discriminate Hstep].
      destruct t as [| | | |url k|]; try discriminate Hstep.
      inversion Hstep; subst; clear Hstep.
      destruct Hinv as [Hl [_ Hk]]. unfold resume. rewrite Hp. simpl.
      destruct (advance (k r) (page l)) as [[pg' acts] st] eqn:E.
      rewrite app_nil_r.
      eapply turn_invariant; [|exact E]. rewrite Hl. apply Hk.
  - (* a body settles *)
    unfold apart_invariant in Hinv.
    destruct (pending l) as [|t [|t' ts]] eqn:Hp; try contradiction.
    + destruct i; discriminate Hstep.
    + destruct i as [|i]; simpl in Hstep; [|destruct i; discriminate Hstep].
      destruct t as [| | | | |resp k]; try discriminate Hstep.
      inversion Hstep; subst; clear Hstep.
      destruct Hinv as [Hl [_ Hk]]. unfold resume. rewrite Hp. simpl.
      destruct (advance (k (body resp)) (page l)) as [[pg' acts] st] eqn:E.
      rewrite app_nil_r.
      eapply turn_invariant; [|exact E]. rewrite Hl. apply Hk.
Qed.

Lemma loop_run_apart_invariant (engine : Engine) (inputs : list Input) :
  forall l l',
    apart_invariant l ->
    loop_run_apart engine l inputs = Some l' ->
    apart_invariant l' /\ loop_run engine l inputs = Some l'.
Proof.
  induction inputs as [|inp rest IH]; intros l l' Hinv Hrun; simpl in *.
  - inversion Hrun; subst. split; [exact Hinv|reflexivity].
  - destruct (submits inp && negb (idle l)) eqn:Hapart; [discriminate|].
    destruct (loop_step engine l inp) as [l1|] eqn:Hstep; [|discriminate].
    apply (IH l1 l'); [|exact Hrun].
    eapply loop_step_invariant; eassumption.
Qed.

Lemma apart_invariant_at_most_one (l : Loop) :
  apart_invariant l -> at_most_one (page l).
Proof.
  unfold apart_invariant.
  destruct (pending l) as [|t [|t' ts]]; intros H.
  - exact H.
  - now apply loading_at_most_one.
  - contradiction.
Qed.

Lemma option_map_Some {A B : Type} (f : A -> B) (o : option A) (v : B) :
  option_map f o = Some v -> exists x, o = Some x /\ f x = v.
Proof.
  destruct o as [x|]; simpl; intros H; [|discriminate H].
  exists x. split; [reflexivity|]. now inversion H.
Qed.

(** C7, as stated, fails: when a second search is submitted while the first
    is still suspended, the first can end by showing its result and the
    second by showing its error; both panels are then on display and the page
    shows none of the four states. *)
Lemma overlapping_searches_counterexample :
  at_most_one sample_page
  /\ option_map (fun l => (List.length (pending l), visible_panels (page l),
                            panels_hidden (page l), ui_state (page l)))
       (loop_run sample_engine (mkLoop sample_page []) overlapping_inputs)
     = Some (0%nat, 2%nat, (false, false, true), None)
  /\ ~ (forall l',
          loop_run sample_engine (mkLoop sample_page []) overlapping_inputs
          = Some l' -> at_most_one (page l')).
Proof.
  split; [unfold at_most_one; vm_compute; lia|].
  split; [vm_compute; reflexivity|].
  intros H.
  assert (Hv : option_map (fun l => visible_panels (page l))
                 (loop_run sample_engine (mkLoop sample_page [])
                    overlapping_inputs) = Some 2%nat)
    by (vm_compute; reflexivity).
  apply option_map_Some in Hv as (l' & E & Hv).
  specialize (H l' E). unfold at_most_one in H. lia.
Qed.

(** C7, amended: as long as no search is submitted while another one is
    suspended, every state of the event loop reached from a page with at
    most one panel on display has at most one panel on display, and the page
    shows exactly one of Idle, Loading, Result and Error. *)
Theorem apart_searches_one_panel
    (engine : Engine) (l l' : Loop) (inputs : list Input) :
  pending l = [] ->
  at_most_one (page l) ->
  loop_run_apart engine l inputs = Some l' ->
  loop_run engine l inputs = Some l'
  /\ at_most_one (page l')
  /\ (exists state, ui_state (page l') = Some state)
  /\ (pending l' <> [] -> ui_state (page l') = Some Loading).
Proof.
  intros Hidle Hone Hrun.
  assert (Hinv : apart_invariant l)
    by (unfold apart_invariant; rewrite Hidle; exact Hone).
  destruct (loop_run_apart_invariant engine inputs l l' Hinv Hrun)
    as [Hinv' Hsame].
  pose proof (apart_invariant_at_most_one l' Hinv') as Hone'.
  split; [exact Hsame|]. split; [exact Hone'|]. split.
  - apply ui_state_at_most_one in Hone'.
    destruct (ui_state (page l')) as [state|]; [now exists state|congruence].
  - intros Hbusy. unfold apart_invariant in Hinv'.
    destruct (pending l') as [|t [|t' ts]].
    + now elim Hbusy.
    + destruct Hinv' as [Hl _]. unfold ui_state. now rewrite Hl.
    + contradiction.
Qed.

Lemma apart_searches_one_panel_witness :
  pending (mkLoop sample_page []) = []
  /\ at_most_one sample_page
  /\ exists l',
       loop_run_apart sample_engine (mkLoop sample_page []) apart_inputs
       = Some l'
       /\ at_most_one (page l').
Proof.
  assert (Hone : at_most_one sample_page)
    by (unfold at_most_one; vm_compute; lia).
  split; [reflexivity|]. split; [exact Hone|].
  assert (Hrun : option_map (fun _ => tt)
                   (loop_run_apart sample_engine (mkLoop sample_page [])
                      apart_inputs) = Some tt)
    by (vm_compute; reflexivity).
  apply option_map_Some in Hrun as (l' & E & _).
  exists l'. split; [exact E|].
  exact (proj1 (proj2 (apart_searches_one_panel sample_engine
                         (mkLoop sample_page []) l' apart_inputs
                         eq_refl Hone E))).
Defined.

(** ** One search, run to completion *)

Lemma count_rev (f : Event -> bool) (tr : list Event) :
  count f (rev tr) = count f tr.
Proof.
  unfold count. induction tr as [|ev tr IH]; simpl; [reflexivity|].
  rewrite filter_app, length_app, IH. simpl.
  destruct (f ev); simpl; lia.
Qed.

Lemma count_app (f : Event -> bool) (tr1 tr2 : list Event) :
  count f (tr1 ++ tr2) = (count f tr1 + count f tr2)%nat.
Proof. unfold count. now rewrite filter_app, length_app. Qed.

Lemma ends_with_rev (tr suffix : list Event) :
  ends_with (rev tr) suffix -> exists front, tr = (front ++ suffix)%list.
Proof.
  unfold ends_with. intros H.
  exists (rev (skipn (List.length suffix) (rev tr))).
  rewrite <- (rev_involutive tr) at 1.
  rewrite <- (firstn_skipn (List.length suffix) (rev tr)) at 1.
  now rewrite rev_app_distr, H, rev_involutive.
Qed.

(** A run is [Pending] only when the network has run out of answers. *)
Lemma pending_requests {A : Type} (p : Prog A) :
  forall net pg,
    outcome (run p net pg) = Pending ->
    count is_request (trace (run p net pg)) = Datatypes.S (List.length net).
Proof.
  induction p as [a|e|k IH|a k IH|url k IH|r k IH]; intros net pg H;
    simpl in *; try discriminate H.
  - now apply IH.
  - unfold count in *. simpl. now apply IH.
  - destruct net as [|r net]; simpl in *; [reflexivity|].
    unfold count in *. simpl. f_equal. now apply IH.
  - unfold count in *. simpl. now apply IH.
Qed.

Section OneSearch.

Variable engine : Engine.
Variable pg : Page.
Variable net : list (Settled Response).
Hypothesis city_given : trim (value (dom pg cityInput)) <> "".

Lemma run_history :
  accepted while_pending when_done never_thrown
    (outcome (run (handleSearch engine) net pg))
    (rev (trace (run (handleSearch engine) net pg))).
Proof.
  rewrite (run_searching _ _ _ city_given).
  pose proof (always_run record while_pending when_done never_thrown
                _ [] net pg
                (searching_history engine (trim (value (dom pg cityInput)))))
    as H.
  now rewrite observe_record, app_nil_r in H.
Qed.

Lemma run_panels :
  accepted panels_suspended panels_settled panels_thrown
    (outcome (run (handleSearch engine) net pg))
    (panels_hidden (final (run (handleSearch engine) net pg))).
Proof.
  rewrite final_run, panels_replay, (run_searching _ _ _ city_given).
  apply always_run, searching_panels.
Qed.

Lemma run_returns :
  (2 <= List.length net)%nat ->
  outcome (run (handleSearch engine) net pg) = Returned tt.
Proof.
  intros Hnet. pose proof run_history as H.
  destruct (outcome (run (handleSearch engine) net pg)) as [[]|e|] eqn:E;
    unfold accepted in H.
  - reflexivity.
  - contradiction.
  - destruct H as (_ & Hreq & _). rewrite count_rev in Hreq.
    rewrite (pending_requests _ _ _ E) in Hreq. lia.
Qed.

End OneSearch.

(** C3: a search started from a non-blank input and answered by the network
    completes; whether it ends with the result or with an error, and whatever
    the exception was, its trace contains exactly one
    [loadingIndicator.classList.add('hidden')], it is the last effect of the
    flow, and the indicator is hidden at the end.  While the flow is
    suspended the indicator has not been hidden. *)
Theorem loading_hidden_once
    (engine : Engine) (pg : Page) (net : list (Settled Response)) :
  trim (value (dom pg cityInput)) <> "" ->
  let r := run (handleSearch engine) net pg in
  ((2 <= List.length net)%nat -> outcome r = Returned tt)
  /\ (outcome r <> Pending ->
      outcome r = Returned tt
      /\ count hides_loading (trace r) = 1%nat
      /\ (exists front,
            trace r
            = (front ++ [Did (ClassList_add loadingIndicator "hidden")])%list
            /\ count hides_loading front = 0%nat)
      /\ hidden (final r) loadingIndicator = true
      /\ (ui_state (final r) = Some Result \/ ui_state (final r) = Some Error))
  /\ (outcome r = Pending ->
      count hides_loading (trace r) = 0%nat
      /\ ui_state (final r) = Some Loading).
Proof.
  intros Hcity r.
  pose proof (run_history engine pg net Hcity) as Hh.
  pose proof (run_panels engine pg net Hcity) as Hp.
  fold r in Hh, Hp.
  split; [apply run_returns; exact Hcity|].
  destruct (outcome r) as [[]|e|] eqn:E; unfold accepted in Hh, Hp.
  - split; [|intros H; discriminate H].
    intros _. destruct Hh as (Hone & _ & Hend). rewrite count_rev in Hone.
    split; [reflexivity|]. split; [exact Hone|]. split; [|split].
    + assert (Hlast : exists front,
                 trace r = (front ++ [Did (ClassList_add loadingIndicator
                                              "hidden")])%list).
      { destruct Hend as [[Hend _]|[[e Hend] _]];
          apply ends_with_rev in Hend as [front Hfront].
        - exists (front ++ [Did (ClassList_remove weatherContainer "hidden")])%list.
          rewrite Hfront. unfold result_epilogue.
          now rewrite <- app_assoc.
        - exists (front ++ [Did (Console_error "Error fetching weather:" e);
                            Did (Set_textContent errorTextEl (message e));
                            Did (ClassList_remove errorContainer "hidden")])%list.
          rewrite Hfront. unfold error_epilogue.
          now rewrite <- app_assoc. }
      destruct Hlast as [front Hfront]. exists front.
      split; [exact Hfront|].
      rewrite Hfront, count_app in Hone. simpl in Hone.
      unfold count at 2 in Hone. simpl in Hone. lia.
    + unfold panels_hidden in Hp.
      destruct Hp as [Hp|Hp]; inversion Hp; reflexivity.
    + unfold ui_state. destruct Hp as [Hp|Hp]; rewrite Hp; auto.
  - contradiction.
  - split; [intros H; now elim H|].
    intros _. destruct Hh as (Hzero & _). rewrite count_rev in Hzero.
    split; [exact Hzero|]. unfold ui_state. now rewrite Hp.
Qed.

Lemma loading_hidden_once_witness :
  trim (value (dom sample_page cityInput)) <> ""
  /\ (2 <= List.length [answer sample_place; refusal])%nat
  /\ outcome (run (handleSearch sample_engine)
                [answer sample_place; refusal] sample_page) = Returned tt.
Proof.
  assert (Hcity : trim (value (dom sample_page cityInput)) <> "")
    by (vm_compute; discriminate).
  assert (Hnet : (2 <= List.length [answer sample_place; refusal])%nat)
    by (simpl; lia).
  split; [exact Hcity|]. split; [exact Hnet|].
  exact (proj1 (loading_hidden_once sample_engine sample_page
                  [answer sample_place; refusal] Hcity) Hnet).
Defined.

(** C6: when the input field is empty or holds white space only, a
    submission, by the button or by the Enter key, does nothing: no effect is
    performed, no request is sent, the page is the same page and the event
    loop is in the same state. *)
Theorem blank_submission_is_noop (engine : Engine) (pg : Page) :
  only_spaces (value (dom pg cityInput)) = true ->
  (forall net, run (handleSearch engine) net pg = mkRun pg [] (Returned tt))
  /\ advance (handleSearch engine) pg = (pg, [], Finished tt)
  /\ (forall l, page l = pg ->
        loop_step engine l Click = Some l
        /\ loop_step engine l (Keypress "Enter") = Some l).
Proof.
  intros Hblank. apply trim_spaces in Hblank.
  split; [intros net; now apply run_blank|].
  split; [now apply advance_blank|].
  intros [pg' ts] Hpg. simpl in Hpg. subst pg'.
  unfold loop_step, on_click, on_keypress, start. simpl page.
  rewrite String.eqb_refl, (advance_blank _ _ Hblank). simpl.
  now rewrite app_nil_r.
Qed.

Lemma blank_submission_is_noop_witness :
  only_spaces (value (dom blank_page cityInput)) = true
  /\ run (handleSearch sample_engine) [refusal] blank_page
     = mkRun blank_page [] (Returned tt)
  /\ loop_step sample_engine (mkLoop blank_page []) Click
     = Some (mkLoop blank_page []).
Proof.
  assert (H : only_spaces (value (dom blank_page cityInput)) = true)
    by reflexivity.
  pose proof (blank_submission_is_noop sample_engine blank_page H)
    as (Hrun & _ & Hloop).
  split; [exact H|]. split; [apply Hrun|].
  exact (proj1 (Hloop (mkLoop blank_page []) eq_refl)).
Defined.

(** ** The geocoding phase *)

Lemma get_prop_None (v : JsVal) (key : string) :
  get_prop v key = None <-> nullish v = true.
Proof.
  destruct v; simpl; split; intros H; try reflexivity; try discriminate H.
  - destruct (key =? "length")%string; [discriminate H|].
    destruct (at_index key 0 (list_ascii_of_string s)); discriminate H.
  - destruct (key =? "length")%string; [discriminate H|].
    destruct (at_index key 0 items); discriminate H.
Qed.

Lemma truthy_not_nullish (v : JsVal) : truthy v = true -> nullish v = false.
Proof. destruct v; simpl; intros H; try reflexivity; discriminate H. Qed.

Section GeocodingPhase.

Variable engine : Engine.
Variable city : string.
Variable pg : Page.

Let front1 : list Event := (prologue ++ [Requested (geocoding_url city)])%list.
Let front2 : list Event :=
  (prologue ++ [Requested (geocoding_url city); BodyRead])%list.

Lemma run_unanswered :
  run (searching engine city) [] pg
  = mkRun (replay prologue pg) front1 Pending.
Proof. reflexivity. Qed.

Lemma run_geocoding_rejected (e : JsError) (rest : list (Settled Response)) :
  run (searching engine city) (Rejected e :: rest) pg = caught front1 e pg.
Proof. reflexivity. Qed.

Lemma run_geocoding_refused (resp : Response) (rest : list (Settled Response)) :
  ok resp = false ->
  run (searching engine city) (Fulfilled resp :: rest) pg
  = caught front1 (mkError "Geocoding service unavailable") pg.
Proof.
  intros Hok. unfold_script. simpl. rewrite Hok. reflexivity.
Qed.

Lemma run_geocoding_unreadable
    (resp : Response) (e : JsError) (rest : list (Settled Response)) :
  ok resp = true -> body resp = Rejected e ->
  run (searching engine city) (Fulfilled resp :: rest) pg = caught front2 e pg.
Proof.
  intros Hok Hbody. unfold_script. simpl. rewrite Hok. simpl.
  rewrite Hbody. reflexivity.
Qed.

Lemma run_geocoding_answered
    (resp : Response) (geoData : JsVal) (rest : list (Settled Response)) :
  ok resp = true -> body resp = Fulfilled geoData ->
  run (searching engine city) (Fulfilled resp :: rest) pg
  = match located geoData with
    | Some (name, latitude, longitude, country) =>
        preceded front2
          (run (rendering engine name latitude longitude country) rest
             (replay prologue pg))
    | None => caught front2 (geocoding_error engine city geoData) pg
    end.
Proof.
  intros Hok Hbody.
  unfold located, geocoding_error, no_result_list, rendering, field.
  unfold_script. simpl. rewrite Hok. simpl. rewrite Hbody. simpl.
  destruct (get_prop geoData "results") as [results|] eqn:Hresults; simpl.
  2: { apply get_prop_None in Hresults. rewrite Hresults. reflexivity. }
  assert (Hgeo : nullish geoData = false).
  { destruct (nullish geoData) eqn:E; [|reflexivity].
    apply get_prop_None with (key := "results") in E. congruence. }
  rewrite Hgeo.
  destruct (truthy results) eqn:Htruthy; simpl; [|reflexivity].
  pose proof (truthy_not_nullish _ Htruthy) as Hnn.
  destruct (get_prop results "length") as [len|] eqn:Hlen;
    [|apply get_prop_None in Hlen; congruence].
  simpl. destruct (strict_eq len 0); simpl; [reflexivity|].
  destruct (get_prop results "0") as [first|] eqn:Hfirst;
    [|apply get_prop_None in Hfirst; congruence].
  simpl.
  destruct (nullish first) eqn:Hnull.
  - assert (H : forall key, get_prop first key = None)
      by (intros key; now apply get_prop_None).
    rewrite !H. reflexivity.
  - assert (H : forall key, exists x, get_prop first key = Some x).
    { intros key. destruct (get_prop first key) as [x|] eqn:E;
        [now exists x|]. apply get_prop_None in E. congruence. }
    destruct (H "name") as [name ->], (H "latitude") as [latitude ->],
      (H "longitude") as [longitude ->], (H "country") as [country ->].
    reflexivity.
Qed.

End GeocodingPhase.

(** ** The weather phase *)

Section WeatherPhase.

Variable engine : Engine.
Variables name latitude longitude country : JsVal.
Variable pg : Page.

(** A coordinate that cannot be converted ends the search before the
    request is sent. *)
Lemma run_weather_unsent (e : JsError) (rest : list (Settled Response)) :
  weather_url engine latitude longitude = Thrown e ->
  run (rendering engine name latitude longitude country) rest pg
  = caught [] e pg.
Proof.
  intros Hurl. unfold rendering. unfold_script. rewrite Hurl. reflexivity.
Qed.

Variable url : string.
Hypothesis Hurl : weather_url engine latitude longitude = Normal url.

Lemma run_weather_unanswered :
  run (rendering engine name latitude longitude country) [] pg
  = mkRun pg [Requested url] Pending.
Proof. unfold rendering. unfold_script. rewrite Hurl. reflexivity. Qed.

Lemma run_weather_rejected (e : JsError) (rest : list (Settled Response)) :
  run (rendering engine name latitude longitude country) (Rejected e :: rest) pg
  = caught [Requested url] e pg.
Proof. unfold rendering. unfold_script. rewrite Hurl. reflexivity. Qed.

Lemma run_weather_refused (resp : Response) (rest : list (Settled Response)) :
  ok resp = false ->
  run (rendering engine name latitude longitude country)
    (Fulfilled resp :: rest) pg
  = caught [Requested url] (mkError "Weather service unavailable") pg.
Proof.
  intros Hok. unfold rendering. unfold_script. rewrite Hurl. simpl.
  rewrite Hok. reflexivity.
Qed.

Lemma run_weather_unreadable
    (resp : Response) (e : JsError) (rest : list (Settled Response)) :
  ok resp = true -> body resp = Rejected e ->
  run (rendering engine name latitude longitude country)
    (Fulfilled resp :: rest) pg
  = caught [Requested url; BodyRead] e pg.
Proof.
  intros Hok Hbody. unfold rendering. unfold_script. rewrite Hurl. simpl.
  rewrite Hok. simpl. rewrite Hbody. reflexivity.
Qed.

Lemma rendering_trace (rest : list (Settled Response)) :
  exists later,
    trace (run (rendering engine name latitude longitude country) rest pg)
    = Requested url :: later.
Proof.
  unfold rendering. unfold_script. rewrite Hurl. simpl.
  destruct rest as [|r rest]; simpl; eexists; reflexivity.
Qed.

End WeatherPhase.

(** ** What a caught exception leaves on the page *)

Lemma caught_text (front : list Event) (e : JsError) (pg : Page) :
  text_of (final (caught front e pg)) errorTextEl = message e.
Proof.
  unfold caught, completed. simpl final. rewrite replay_app. reflexivity.
Qed.

Lemma caught_panels (front : list Event) (e : JsError) (pg : Page) :
  panels_hidden (replay front pg) = loading_only ->
  panels_hidden (final (caught front e pg)) = error_only.
Proof.
  intros H. unfold caught, completed. simpl final.
  rewrite replay_app, panels_replay, H. reflexivity.
Qed.

Lemma prologue_panels (pg : Page) :
  panels_hidden (replay prologue pg) = loading_only.
Proof.
  rewrite panels_replay. destruct (panels_hidden pg) as [[w e] l]. reflexivity.
Qed.

Lemma quiet_panels (front quiet : list Event) (pg : Page) :
  (forall s, observe panel_step quiet s = s) ->
  panels_hidden (replay front pg) = loading_only ->
  panels_hidden (replay (front ++ quiet) pg) = loading_only.
Proof.
  intros Hq H. now rewrite replay_app, panels_replay, H, Hq.
Qed.

Lemma ui_state_error (pg : Page) :
  panels_hidden pg = error_only ->
  ui_state pg = Some Error /\ hidden pg weatherContainer = true
  /\ visible pg errorContainer = true.
Proof.
  intros H. unfold ui_state, visible. rewrite H.
  unfold panels_hidden, error_only in H. injection H as Hw He Hl.
  rewrite Hw, He. repeat split.
Qed.

Lemma contains_city (city : string) : contains (not_found_message city) city.
Proof.
  exists ("City " ++ dquote), (dquote ++ " not found"). reflexivity.
Qed.

Lemma no_result_run
    (engine : Engine) (pg : Page) (resp : Response) (geoData : JsVal)
    (rest : list (Settled Response)) :
  trim (value (dom pg cityInput)) <> "" ->
  ok resp = true ->
  body resp = Fulfilled geoData ->
  no_result_list geoData = true ->
  let city := trim (value (dom pg cityInput)) in
  let r := run (handleSearch engine) (Fulfilled resp :: rest) pg in
  r = caught (prologue ++ [Requested (geocoding_url city); BodyRead])
        (mkError (not_found_message city)) pg
  /\ ui_state (final r) = Some Error
  /\ hidden (final r) weatherContainer = true
  /\ text_of (final r) errorTextEl = not_found_message city.
Proof.
  intros Hcity Hok Hbody Hnone city r.
  assert (Hr : r = caught (prologue ++ [Requested (geocoding_url city); BodyRead])
                     (mkError (not_found_message city)) pg).
  { unfold r. rewrite (run_searching _ _ _ Hcity).
    rewrite (run_geocoding_answered _ _ _ _ _ _ Hok Hbody).
    unfold located, geocoding_error. rewrite Hnone. reflexivity. }
  assert (Hp : panels_hidden (final r) = error_only).
  { rewrite Hr. apply caught_panels, quiet_panels;
      [reflexivity|apply prologue_panels]. }
  destruct (ui_state_error _ Hp) as (Hstate & Hweather & _).
  split; [exact Hr|]. split; [exact Hstate|]. split; [exact Hweather|].
  rewrite Hr. apply caught_text.
Qed.

(** C4: when the geocoding call succeeds and its answer has no result list,
    or an empty one, the flow ends in the Error state; the message names the
    city that was typed, the result panel stays hidden and is never shown
    during the flow, and no weather request is sent. *)
Theorem no_result_is_error
    (engine : Engine) (pg : Page) (resp : Response) (geoData : JsVal)
    (rest : list (Settled Response)) :
  trim (value (dom pg cityInput)) <> "" ->
  ok resp = true ->
  body resp = Fulfilled geoData ->
  no_result_list geoData = true ->
  let city := trim (value (dom pg cityInput)) in
  let r := run (handleSearch engine) (Fulfilled resp :: rest) pg in
  outcome r = Returned tt
  /\ ui_state (final r) = Some Error
  /\ text_of (final r) errorTextEl
     = "City " ++ dquote ++ city ++ dquote ++ " not found"
  /\ contains (text_of (final r) errorTextEl) city
  /\ hidden (final r) weatherContainer = true
  /\ count shows_result (trace r) = 0%nat
  /\ count is_weather_request (trace r) = 0%nat
  /\ (forall fields,
        assoc "results" fields = VUndefined
        \/ assoc "results" fields = VNull
        \/ assoc "results" fields = VArray [] ->
        no_result_list (VObject fields) = true).
Proof.
  intros Hcity Hok Hbody Hnone city r.
  destruct (no_result_run engine pg resp geoData rest Hcity Hok Hbody Hnone)
    as (Hr & Hstate & Hweather & Htext).
  fold city in Hr, Htext. fold r in Hr, Hstate, Hweather, Htext.
  split; [now rewrite Hr|]. split; [exact Hstate|].
  split; [exact Htext|]. split; [rewrite Htext; apply contains_city|].
  split; [exact Hweather|].
  split; [now rewrite Hr|]. split; [now rewrite Hr|].
  intros fields [H|[H|H]]; unfold no_result_list; simpl; rewrite H; reflexivity.
Qed.

Lemma no_result_is_error_witness :
  trim (value (dom sample_page cityInput)) <> ""
  /\ no_result_list (VObject [("results", VArray [])]) = true
  /\ text_of (final (run (handleSearch sample_engine)
                       [answer (VObject [("results", VArray [])])] sample_page))
       errorTextEl
     = "City " ++ dquote ++ "Paris" ++ dquote ++ " not found".
Proof.
  assert (Hcity : trim (value (dom sample_page cityInput)) <> "")
    by (vm_compute; discriminate).
  assert (Hnone : no_result_list (VObject [("results", VArray [])]) = true)
    by reflexivity.
  split; [exact Hcity|]. split; [exact Hnone|].
  exact (proj1 (proj2 (proj2
           (no_result_is_error sample_engine sample_page
              {| ok := true; body := Fulfilled (VObject [("results", VArray [])]) |}
              (VObject [("results", VArray [])]) []
              Hcity eq_refl eq_refl Hnone)))).
Defined.

(** ** The order of the two calls *)

Lemma geocoding_refused_run
    (engine : Engine) (pg : Page) (resp : Response)
    (rest : list (Settled Response)) :
  trim (value (dom pg cityInput)) <> "" ->
  ok resp = false ->
  run (handleSearch engine) (Fulfilled resp :: rest) pg
  = caught (prologue
              ++ [Requested (geocoding_url (trim (value (dom pg cityInput))))])
      (mkError "Geocoding service unavailable") pg.
Proof.
  intros Hcity Hok. rewrite (run_searching _ _ _ Hcity).
  now apply run_geocoding_refused.
Qed.

Lemma geocoding_refused_error
    (engine : Engine) (pg : Page) (resp : Response)
    (rest : list (Settled Response)) :
  trim (value (dom pg cityInput)) <> "" ->
  ok resp = false ->
  let r := run (handleSearch engine) (Fulfilled resp :: rest) pg in
  outcome r = Returned tt
  /\ ui_state (final r) = Some Error
  /\ text_of (final r) errorTextEl = "Geocoding service unavailable"
  /\ count is_weather_request (trace r) = 0%nat
  /\ count is_request (trace r) = 1%nat.
Proof.
  intros Hcity Hok r. unfold r.
  rewrite (geocoding_refused_run _ _ _ _ Hcity Hok).
  set (city := trim (value (dom pg cityInput))).
  assert (Hp : panels_hidden
                 (final (caught (prologue ++ [Requested (geocoding_url city)])
                           (mkError "Geocoding service unavailable") pg))
               = error_only)
    by (apply caught_panels, quiet_panels;
        [reflexivity|apply prologue_panels]).
  destruct (ui_state_error _ Hp) as (Hstate & _).
  split; [reflexivity|]. split; [exact Hstate|].
  split; [apply caught_text|]. split; reflexivity.
Qed.

(** C5: when the geocoding call answers with a non-success status the flow
    ends in the Error state after a single request, and [fetchWeather] is not
    called.  In every flow the first request is the geocoding one, at most
    two requests are sent, and a weather request occurs only after the
    geocoding call was fulfilled with a success status and its body was read
    and yielded a first result; its coordinates are those of that result. *)
Theorem weather_after_geocoding
    (engine : Engine) (pg : Page) (net : list (Settled Response)) :
  trim (value (dom pg cityInput)) <> "" ->
  let city := trim (value (dom pg cityInput)) in
  let r := run (handleSearch engine) net pg in
  (forall resp rest,
      net = Fulfilled resp :: rest -> ok resp = false ->
      outcome r = Returned tt
      /\ ui_state (final r) = Some Error
      /\ text_of (final r) errorTextEl = "Geocoding service unavailable"
      /\ count is_weather_request (trace r) = 0%nat
      /\ count is_request (trace r) = 1%nat)
  /\ (count is_weather_request (trace r) <> 0%nat ->
      exists resp geoData name latitude longitude country url rest later,
        net = Fulfilled resp :: rest
        /\ ok resp = true
        /\ body resp = Fulfilled geoData
        /\ located geoData = Some (name, latitude, longitude, country)
        /\ weather_url engine latitude longitude = Normal url
        /\ trace r
           = (prologue
                ++ [Requested (geocoding_url city); BodyRead; Requested url]
                ++ later)%list)
  /\ (exists later,
        trace r = (prologue ++ Requested (geocoding_url city) :: later)%list)
  /\ (count is_request (trace r) <= 2)%nat.
Proof.
  intros Hcity city r. split; [|split; [|split]].
  - intros resp rest -> Hok.
    exact (geocoding_refused_error engine pg resp rest Hcity Hok).
  - unfold r. rewrite (run_searching _ _ _ Hcity). fold city.
    destruct net as [|[resp|e] rest].
    + rewrite run_unanswered. intros H. now elim H.
    + destruct (ok resp) eqn:Hok.
      * destruct (body resp) as [geoData|e] eqn:Hbody.
        -- rewrite (run_geocoding_answered _ _ _ _ _ _ Hok Hbody).
           destruct (located geoData) as [[[[name latitude] longitude] country]|]
             eqn:Hloc.
           ++ destruct (weather_url engine latitude longitude) as [url|e]
                eqn:Hurl.
              ** intros _.
                 destruct (rendering_trace engine name latitude longitude
                             country (replay prologue pg) url Hurl rest)
                   as [later Hlater].
                 exists resp, geoData, name, latitude, longitude, country, url,
                   rest, later.
                 repeat (split; [reflexivity || assumption|]).
                 unfold preceded. cbn [trace]. rewrite Hlater.
                 now rewrite <- app_assoc.
              ** rewrite (run_weather_unsent _ _ _ _ _ _ _ _ Hurl).
                 intros H. now elim H.
           ++ intros H. now elim H.
        -- rewrite (run_geocoding_unreadable _ _ _ _ _ _ Hok Hbody).
           intros H. now elim H.
      * rewrite (run_geocoding_refused _ _ _ _ _ Hok). intros H. now elim H.
    + rewrite run_geocoding_rejected. intros H. now elim H.
  - unfold r. rewrite (run_searching _ _ _ Hcity). fold city.
    unfold searching, try_catch_finally, fetchGeocoding, fetch. simpl.
    destruct net as [|reply rest]; simpl; eexists; reflexivity.
  - pose proof (run_history engine pg net Hcity) as H. fold r in H.
    destruct (outcome r) as [[]|e|]; unfold accepted in H.
    + destruct H as (_ & H & _). now rewrite count_rev in H.
    + contradiction.
    + destruct H as (_ & H & _). now rewrite count_rev in H.
Qed.

Lemma weather_after_geocoding_witness :
  trim (value (dom sample_page cityInput)) <> ""
  /\ ok {| ok := false; body := Fulfilled sample_place |} = false
  /\ count is_weather_request
       (trace (run (handleSearch sample_engine)
                 [Fulfilled {| ok := false; body := Fulfilled sample_place |};
                  answer sample_weather] sample_page)) = 0%nat.
Proof.
  assert (Hcity : trim (value (dom sample_page cityInput)) <> "")
    by (vm_compute; discriminate).
  split; [exact Hcity|]. split; [reflexivity|].
  pose proof (proj1 (weather_after_geocoding sample_engine sample_page
                       [Fulfilled {| ok := false; body := Fulfilled sample_place |};
                        answer sample_weather] Hcity)
                _ _ eq_refl eq_refl) as (_ & _ & _ & H & _).
  exact H.
Defined.

(** ** The [try] statement *)

(** A [try] block that returns: the [catch] block is skipped and the cleanup
    runs last. *)
Lemma run_try_returned {A : Type} (p : Prog A) (handler : JsError -> Prog A)
    (a : Action) :
  forall net pg x,
    outcome (run p net pg) = Returned x ->
    run (try_catch_finally p handler (act a)) net pg
    = mkRun (apply_action a (final (run p net pg)))
        (trace (run p net pg) ++ [Did a]) (Returned x).
Proof.
  unfold try_catch_finally.
  induction p as [y|e|k IH|b k IH|url k IH|r k IH]; intros net pg x H;
    simpl in *.
  - inversion H; subst. reflexivity.
  - discriminate H.
  - now apply IH.
  - now rewrite (IH _ _ _ H).
  - destruct net as [|reply rest]; simpl in *; [discriminate H|].
    now rewrite (IH _ _ _ _ H).
  - now rewrite (IH _ _ _ _ H).
Qed.

(** A [try] block that throws: the [catch] block logs and shows the
    exception, then the cleanup runs. *)
Lemma run_guarded_thrown (p : Prog unit) :
  forall net pg e,
    outcome (run p net pg) = Uncaught e ->
    run (guarded p) net pg
    = mkRun (replay (error_epilogue e) (final (run p net pg)))
        (trace (run p net pg) ++ error_epilogue e) (Returned tt).
Proof.
  unfold guarded, try_catch_finally.
  induction p as [y|e'|k IH|b k IH|url k IH|r k IH]; intros net pg e H;
    simpl in *.
  - discriminate H.
  - inversion H; subst. reflexivity.
  - now apply IH.
  - now rewrite (IH _ _ _ H).
  - destruct net as [|reply rest]; simpl in *; [discriminate H|].
    now rewrite (IH _ _ _ _ H).
  - now rewrite (IH _ _ _ _ H).
Qed.

Lemma run_guarded_returned (p : Prog unit) (net : list (Settled Response))
    (pg : Page) :
  outcome (run p net pg) = Returned tt ->
  run (guarded p) net pg
  = mkRun (replay [Did (ClassList_add loadingIndicator "hidden")]
             (final (run p net pg)))
      (trace (run p net pg) ++ [Did (ClassList_add loadingIndicator "hidden")])
      (Returned tt).
Proof.
  intros H. unfold guarded. now rewrite (run_try_returned _ _ _ _ _ _ H).
Qed.

(** A [try] block that is suspended: so is the statement. *)
Lemma run_guarded_pending (p : Prog unit) :
  forall net pg,
    outcome (run p net pg) = Pending ->
    run (guarded p) net pg = run p net pg.
Proof.
  unfold guarded, try_catch_finally.
  induction p as [y|e'|k IH|b k IH|url k IH|r k IH]; intros net pg H;
    simpl in *.
  - discriminate H.
  - discriminate H.
  - now apply IH.
  - now rewrite (IH _ _ H).
  - destruct net as [|reply rest]; simpl in *; [reflexivity|].
    now rewrite (IH _ _ _ H).
  - now rewrite (IH _ _ _ H).
Qed.

Lemma searching_lookup (engine : Engine) (city : string)
    (net : list (Settled Response)) (pg : Page) :
  run (searching engine city) net pg
  = preceded prologue
      (run (guarded (lookup engine city)) net (replay prologue pg)).
Proof. reflexivity. Qed.

Lemma lookup_panels (engine : Engine) (city : string) :
  always panel_step (fun s => s = loading_only)
    (fun s => s = rendered_panels) (fun _ s => s = loading_only)
    (lookup engine city) loading_only.
Proof.
  unfold lookup. explore. all: reflexivity.
Qed.

Lemma run_lookup_panels (engine : Engine) (city : string)
    (net : list (Settled Response)) (pg : Page) :
  let r := run (lookup engine city) net (replay prologue pg) in
  panels_hidden (final r)
  = match outcome r with
    | Returned _ => rendered_panels
    | _ => loading_only
    end.
Proof.
  intros r.
  pose proof (always_run panel_step _ _ _ _ _ net (replay prologue pg)
                (lookup_panels engine city)) as H.
  fold r in H. unfold r at 1. rewrite final_run, panels_replay, prologue_panels.
  fold r. destruct (outcome r) as [[]|e|]; exact H.
Qed.

(** Whatever exception leaves the [try] block, the [catch] block shows its
    message and the search ends in the Error state. *)
Lemma lookup_thrown
    (engine : Engine) (pg : Page) (net : list (Settled Response))
    (e : JsError) :
  trim (value (dom pg cityInput)) <> "" ->
  outcome (run (lookup engine (trim (value (dom pg cityInput)))) net
             (replay prologue pg)) = Uncaught e ->
  let r := run (handleSearch engine) net pg in
  outcome r = Returned tt
  /\ ui_state (final r) = Some Error
  /\ text_of (final r) errorTextEl = message e
  /\ exists front, trace r = (front ++ error_epilogue e)%list.
Proof.
  intros Hcity He r. unfold r.
  rewrite (run_searching _ _ _ Hcity), searching_lookup.
  pose proof (run_lookup_panels engine (trim (value (dom pg cityInput)))
                net pg) as Hp.
  cbv zeta in Hp. rewrite He in Hp.
  rewrite (run_guarded_thrown _ _ _ _ He).
  unfold preceded. cbn [final trace outcome].
  split; [reflexivity|]. split; [|split].
  - unfold ui_state. rewrite panels_replay, Hp. reflexivity.
  - reflexivity.
  - eexists. rewrite app_assoc. reflexivity.
Qed.

(** Conversely the Error state is reached in no other way. *)
Lemma error_state_thrown
    (engine : Engine) (pg : Page) (net : list (Settled Response)) :
  trim (value (dom pg cityInput)) <> "" ->
  ui_state (final (run (handleSearch engine) net pg)) = Some Error ->
  exists e,
    outcome (run (lookup engine (trim (value (dom pg cityInput)))) net
               (replay prologue pg)) = Uncaught e.
Proof.
  intros Hcity. rewrite (run_searching _ _ _ Hcity), searching_lookup.
  pose proof (run_lookup_panels engine (trim (value (dom pg cityInput)))
                net pg) as Hp.
  cbv zeta in Hp.
  destruct (outcome (run (lookup engine (trim (value (dom pg cityInput))))
                       net (replay prologue pg))) as [[]|e|] eqn:He.
  - rewrite (run_guarded_returned _ _ _ He).
    unfold preceded, ui_state. cbn [final]. rewrite panels_replay, Hp.
    discriminate.
  - intros _. now exists e.
  - rewrite (run_guarded_pending _ _ _ He).
    unfold preceded, ui_state. cbn [final]. rewrite Hp. discriminate.
Qed.

(** ** The message of the Error state *)

(** C10, as stated, fails: the Error state also carries messages other than
    the three listed; a [fetch] rejected by the network shows the message of
    the rejection. *)
Lemma rejected_fetch_counterexample :
  let r := run (handleSearch sample_engine)
             [Rejected (mkError "Failed to fetch")] sample_page in
  ui_state (final r) = Some Error
  /\ text_of (final r) errorTextEl = "Failed to fetch"
  /\ text_of (final r) errorTextEl <> "Geocoding service unavailable"
  /\ text_of (final r) errorTextEl <> "Weather service unavailable"
  /\ text_of (final r) errorTextEl
     <> "City " ++ dquote ++ trim (value (dom sample_page cityInput)) ++ dquote
          ++ " not found".
Proof.
  vm_compute. repeat split; discriminate.
Qed.

(** A search caught with [e] after a front that leaves the indicator
    alone: the Error state with the message of [e]. *)
Lemma caught_state_text
    (front : list Event) (later : list Event) (e : JsError) (pg : Page) :
  (forall s, observe panel_step later s = s) ->
  let r := preceded front (caught later e (replay prologue pg)) in
  ui_state (final r) = Some Error
  /\ text_of (final r) errorTextEl = message e.
Proof.
  intros Hquiet r. unfold r, preceded. cbn [final].
  assert (Hp : panels_hidden (final (caught later e (replay prologue pg)))
               = error_only).
  { apply caught_panels. rewrite panels_replay, prologue_panels. apply Hquiet. }
  destruct (ui_state_error _ Hp) as (Hstate & _).
  split; [exact Hstate|apply caught_text].
Qed.

(** C10, amended: the message of the Error state is "Geocoding service
    unavailable" when the geocoding call answers with a non-success status,
    "Weather service unavailable" when the weather call does, and
    [City "<q>" not found], with [<q>] the trimmed input, when the geocoding
    call succeeds without a result; every other failure carries the message
    of the exception that was caught: the one a rejected [fetch] was rejected
    with, the one reading a body failed with, and in general whatever
    exception leaves the [try] block.  In all cases the text of the error
    panel is exactly the message of the caught exception. *)
Theorem error_message_shown
    (engine : Engine) (pg : Page) (net : list (Settled Response)) :
  trim (value (dom pg cityInput)) <> "" ->
  let city := trim (value (dom pg cityInput)) in
  let r := run (handleSearch engine) net pg in
  (forall resp rest,
      net = Fulfilled resp :: rest -> ok resp = false ->
      ui_state (final r) = Some Error
      /\ text_of (final r) errorTextEl = "Geocoding service unavailable")
  /\ (forall resp geoData name latitude longitude country url resp' rest,
        net = Fulfilled resp :: Fulfilled resp' :: rest ->
        ok resp = true -> body resp = Fulfilled geoData ->
        located geoData = Some (name, latitude, longitude, country) ->
        weather_url engine latitude longitude = Normal url ->
        ok resp' = false ->
        ui_state (final r) = Some Error
        /\ text_of (final r) errorTextEl = "Weather service unavailable")
  /\ (forall resp geoData rest,
        net = Fulfilled resp :: rest ->
        ok resp = true -> body resp = Fulfilled geoData ->
        no_result_list geoData = true ->
        ui_state (final r) = Some Error
        /\ text_of (final r) errorTextEl
           = "City " ++ dquote ++ city ++ dquote ++ " not found")
  /\ (forall e rest,
        net = Rejected e :: rest ->
        ui_state (final r) = Some Error
        /\ text_of (final r) errorTextEl = message e)
  /\ (forall resp e rest,
        net = Fulfilled resp :: rest ->
        ok resp = true -> body resp = Rejected e ->
        ui_state (final r) = Some Error
        /\ text_of (final r) errorTextEl = message e)
  /\ (forall resp geoData name latitude longitude country url reply rest,
        net = Fulfilled resp :: reply :: rest ->
        ok resp = true -> body resp = Fulfilled geoData ->
        located geoData = Some (name, latitude, longitude, country) ->
        weather_url engine latitude longitude = Normal url ->
        forall e,
          reply = Rejected e
          \/ (exists resp',
                reply = Fulfilled resp' /\ ok resp' = true
                /\ body resp' = Rejected e) ->
          ui_state (final r) = Some Error
          /\ text_of (final r) errorTextEl = message e)
  /\ (forall e,
        outcome (run (lookup engine city) net (replay prologue pg))
        = Uncaught e ->
        ui_state (final r) = Some Error
        /\ text_of (final r) errorTextEl = message e)
  /\ (ui_state (final r) = Some Error ->
      exists front e,
        outcome (run (lookup engine city) net (replay prologue pg))
        = Uncaught e
        /\ trace r = (front ++ error_epilogue e)%list
        /\ text_of (final r) errorTextEl = message e).
Proof.
  intros Hcity city r.
  split; [|split; [|split; [|split; [|split; [|split; [|split]]]]]].
  - intros resp rest -> Hok.
    destruct (geocoding_refused_error engine pg resp rest Hcity Hok)
      as (_ & Hstate & Htext & _).
    split; assumption.
  - intros resp geoData name latitude longitude country url resp' rest
      -> Hok Hbody Hloc Hurl Hok'.
    unfold r. rewrite (run_searching _ _ _ Hcity).
    rewrite (run_geocoding_answered _ _ _ _ _ _ Hok Hbody), Hloc.
    rewrite (run_weather_refused _ _ _ _ _ _ _ Hurl _ _ Hok').
    now apply caught_state_text.
  - intros resp geoData rest -> Hok Hbody Hnone.
    destruct (no_result_run engine pg resp geoData rest
                Hcity Hok Hbody Hnone) as (_ & Hstate & _ & Htext).
    split; assumption.
  - intros e rest ->. unfold r. rewrite (run_searching _ _ _ Hcity).
    rewrite run_geocoding_rejected.
    apply (caught_state_text [] [Requested (geocoding_url city)] e pg).
    reflexivity.
  - intros resp e rest -> Hok Hbody. unfold r.
    rewrite (run_searching _ _ _ Hcity).
    rewrite (run_geocoding_unreadable _ _ _ _ _ _ Hok Hbody).
    apply (caught_state_text [] [Requested (geocoding_url city); BodyRead]
             e pg).
    reflexivity.
  - intros resp geoData name latitude longitude country url reply rest
      -> Hok Hbody Hloc Hurl e Hreply.
    unfold r. rewrite (run_searching _ _ _ Hcity).
    rewrite (run_geocoding_answered _ _ _ _ _ _ Hok Hbody), Hloc.
    destruct Hreply as [->|(resp' & -> & Hok' & Hbody')].
    + rewrite (run_weather_rejected _ _ _ _ _ _ _ Hurl).
      now apply caught_state_text.
    + rewrite (run_weather_unreadable _ _ _ _ _ _ _ Hurl _ _ _ Hok' Hbody').
      now apply caught_state_text.
  - intros e He.
    destruct (lookup_thrown engine pg net e Hcity He) as (_ & Hs & Ht & _).
    split; assumption.
  - intros Hstate.
    destruct (error_state_thrown engine pg net Hcity Hstate) as [e He].
    destruct (lookup_thrown engine pg net e Hcity He)
      as (_ & _ & Ht & front & Hfront).
    exists front, e. repeat split; assumption.
Qed.

Lemma error_message_shown_witness :
  trim (value (dom sample_page cityInput)) <> ""
  /\ located sample_place
     = Some (VString "Paris", VNumber (Fin (488534 # 10000)),
             VNumber (Fin (23488 # 10000)), VString "France")
  /\ text_of (final (run (handleSearch sample_engine)
                       [answer sample_place; refusal] sample_page))
       errorTextEl
     = "Weather service unavailable".
Proof.
  assert (Hcity : trim (value (dom sample_page cityInput)) <> "")
    by (vm_compute; discriminate).
  assert (Hloc : located sample_place
                 = Some (VString "Paris", VNumber (Fin (488534 # 10000)),
                         VNumber (Fin (23488 # 10000)), VString "France"))
    by reflexivity.
  split; [exact Hcity|]. split; [exact Hloc|].
  exact (proj2 (proj1 (proj2
           (error_message_shown sample_engine sample_page
              [answer sample_place; refusal] Hcity))
           _ _ _ _ _ _ _ _ _ eq_refl eq_refl eq_refl Hloc eq_refl eq_refl)).
Defined.

(** ** Conversions *)

Lemma ToNumber_None (engine : Engine) (v : JsVal) :
  ToNumber engine v = None <-> ToString engine v = None.
Proof.
  destruct v as [| |[|]|n|s|items|fields]; cbn [ToNumber];
    try (split; discriminate).
  - destruct (ToString engine (VArray items)); split; congruence.
  - destruct (ToString engine (VObject fields)); split; congruence.
Qed.

Lemma converts_ToString (engine : Engine) (v : JsVal) :
  converts engine v = true <-> exists s, ToString engine v = Some s.
Proof.
  unfold converts. destruct (ToString engine v) as [s|]; split.
  - intros _. now exists s.
  - reflexivity.
  - discriminate.
  - intros [s H]. discriminate H.
Qed.

Lemma converts_ToNumber (engine : Engine) (v : JsVal) :
  converts engine v = true <-> exists n, ToNumber engine v = Some n.
Proof.
  rewrite converts_ToString. split.
  - intros [s Hs]. destruct (ToNumber engine v) as [n|] eqn:E;
      [now exists n|]. apply ToNumber_None in E. congruence.
  - intros [n Hn]. destruct (ToString engine v) as [s|] eqn:E;
      [now exists s|]. apply ToNumber_None in E. congruence.
Qed.

Lemma converts_false (engine : Engine) (v : JsVal) :
  converts engine v = false <-> ToString engine v = None.
Proof.
  unfold converts. destruct (ToString engine v); split; congruence.
Qed.

(** An object converts unless it has a property named [toString]. *)
Lemma converts_object (engine : Engine) (fields : list (string * JsVal)) :
  converts engine (VObject fields) = negb (has_key "toString" fields).
Proof.
  unfold converts. cbn [ToString]. now destruct (has_key "toString" fields).
Qed.

Lemma converts_primitive (engine : Engine) (v : JsVal) :
  match v with
  | VArray _ | VObject _ => True
  | _ => converts engine v = true
  end.
Proof. destruct v as [| |[|]| | | |]; try exact I; reflexivity. Qed.

Lemma to_string_Some (engine : Engine) (expr : string) (v : JsVal) (s : string) :
  ToString engine v = Some s -> to_string engine expr v = Normal s.
Proof. intros H. unfold to_string. now rewrite H. Qed.

Lemma to_string_converts (engine : Engine) (expr : string) (v : JsVal) :
  match to_string engine expr v with
  | Normal s => ToString engine v = Some s /\ converts engine v = true
  | Thrown e =>
      e = mkError (TypeError_message engine (NotPrimitive expr v))
      /\ converts engine v = false
  end.
Proof.
  unfold to_string, converts. destruct (ToString engine v); now split.
Qed.

Lemma to_number_converts (engine : Engine) (expr : string) (v : JsVal) :
  match to_number engine expr v with
  | Normal n => ToNumber engine v = Some n /\ converts engine v = true
  | Thrown e =>
      e = mkError (TypeError_message engine (NotPrimitive expr v))
      /\ converts engine v = false
  end.
Proof.
  unfold to_number. destruct (ToNumber engine v) as [n|] eqn:E.
  - split; [reflexivity|]. apply converts_ToNumber. now exists n.
  - split; [reflexivity|]. apply converts_false. now apply ToNumber_None.
Qed.

Lemma rounded_converts (engine : Engine) (expr : string) (v : JsVal) :
  match rounded engine expr v with
  | Normal s =>
      (exists n, ToNumber engine v = Some n
                 /\ s = Number_toString engine (Math_round n))
      /\ converts engine v = true
  | Thrown e =>
      e = mkError (TypeError_message engine (NotPrimitive expr v))
      /\ converts engine v = false
  end.
Proof.
  unfold rounded. pose proof (to_number_converts engine expr v) as H.
  destruct (to_number engine expr v) as [n|e]; [|exact H].
  destruct H as [Hn Hc]. split; [now exists n|exact Hc].
Qed.

Lemma heading_converts (engine : Engine) (city country : JsVal) :
  match heading engine city country with
  | Normal s =>
      (exists c k, ToString engine city = Some c
                   /\ ToString engine country = Some k
                   /\ s = c ++ ", " ++ k)
      /\ converts engine city && converts engine country = true
  | Thrown e => converts engine city && converts engine country = false
  end.
Proof.
  unfold heading.
  pose proof (to_string_converts engine "city" city) as Hc.
  pose proof (to_string_converts engine "country" country) as Hk.
  destruct (to_string engine "city" city) as [c|e].
  - destruct Hc as [Hc ->].
    destruct (to_string engine "country" country) as [k|e'].
    + destruct Hk as [Hk ->]. split; [now exists c, k|reflexivity].
    + now destruct Hk as [_ ->].
  - now destruct Hc as [_ ->].
Qed.

Lemma weather_url_converts (engine : Engine) (lat lon : JsVal) :
  match weather_url engine lat lon with
  | Normal _ => converts engine lat && converts engine lon = true
  | Thrown e =>
      converts engine lat && converts engine lon = false
      /\ e = mkError (TypeError_message engine
                        (if converts engine lat then NotPrimitive "lon" lon
                         else NotPrimitive "lat" lat))
  end.
Proof.
  unfold weather_url.
  pose proof (to_string_converts engine "lat" lat) as Hc.
  pose proof (to_string_converts engine "lon" lon) as Hk.
  destruct (to_string engine "lat" lat) as [c|e].
  - destruct Hc as [_ ->].
    destruct (to_string engine "lon" lon) as [k|e'].
    + now destruct Hk as [_ ->].
    + destruct Hk as [-> ->]. now split.
  - destruct Hc as [-> ->]. now split.
Qed.

(** On a value that converts to the number [n] each range test is the
    conjunction of its two comparisons of [n]. *)
Lemma between_converted (engine : Engine) (code : JsVal) (n : JsNum)
    (lo hi : Z) :
  ToNumber engine code = Some n ->
  between engine code lo hi = Normal (num_ge n lo && num_le n hi).
Proof.
  intros H. unfold between, ge, le, to_number. rewrite H.
  now destruct (num_ge n lo).
Qed.

Lemma strict_eq_number (v : JsVal) (k : Z) :
  is_number v = false -> strict_eq v k = false.
Proof. destruct v; try reflexivity; discriminate. Qed.

(** A code that cannot be converted to a number makes the second test of
    the chain throw. *)
Lemma getWeatherInfo_unconvertible (engine : Engine) (code : JsVal) :
  ToNumber engine code = None ->
  getWeatherInfo engine code
  = Thrown (mkError (TypeError_message engine (NotPrimitive "code" code))).
Proof.
  intros H. unfold getWeatherInfo, between, ge, to_number. rewrite H.
  assert (Hs : strict_eq code 0 = false)
    by (destruct code; try reflexivity; discriminate H).
  rewrite Hs. reflexivity.
Qed.

Lemma getWeatherInfo_converts (engine : Engine) (code : JsVal) :
  match getWeatherInfo engine code with
  | Normal e =>
      In e (unknown_entry :: map snd range_table)
      /\ converts engine code = true
  | Thrown e =>
      e = mkError (TypeError_message engine (NotPrimitive "code" code))
      /\ converts engine code = false
  end.
Proof.
  destruct (ToNumber engine code) as [n|] eqn:Hn.
  - assert (Hc : converts engine code = true)
      by (apply converts_ToNumber; now exists n).
    unfold getWeatherInfo. rewrite !(between_converted _ _ _ _ _ Hn).
    unfold branch.
    repeat match goal with
           | |- context [if ?b then _ else _] => destruct b
           end; (split; [simpl; tauto|exact Hc]).
  - rewrite (getWeatherInfo_unconvertible _ _ Hn).
    split; [reflexivity|]. apply converts_false. now apply ToNumber_None.
Qed.

Lemma texts_exist (engine : Engine) (city country current : JsVal) :
  forallb (converts engine) (city :: country :: shown_fields current) = true ->
  exists t, texts_of engine city country current t.
Proof.
  unfold shown_fields. cbn [forallb]. rewrite !andb_true_iff.
  intros (Hcity & Hcountry & H1 & H2 & H3 & H4 & H5 & _).
  pose proof (heading_converts engine city country) as Hh.
  pose proof (rounded_converts engine "current.temperature_2m"
                (field current "temperature_2m")) as Ht.
  pose proof (to_string_converts engine "current.relative_humidity_2m"
                (field current "relative_humidity_2m")) as Hu.
  pose proof (to_string_converts engine "current.wind_speed_10m"
                (field current "wind_speed_10m")) as Hw.
  pose proof (rounded_converts engine "current.apparent_temperature"
                (field current "apparent_temperature")) as Ha.
  pose proof (getWeatherInfo_converts engine (field current "weather_code"))
    as Hi.
  unfold texts_of.
  destruct (heading engine city country) as [x0|];
    [|rewrite Hcity, Hcountry in Hh; discriminate Hh].
  destruct (rounded engine "current.temperature_2m" _) as [x1|];
    [|destruct Ht; congruence].
  destruct (to_string engine "current.relative_humidity_2m" _) as [x2|];
    [|destruct Hu; congruence].
  destruct (to_string engine "current.wind_speed_10m" _) as [x3|];
    [|destruct Hw; congruence].
  destruct (rounded engine "current.apparent_temperature" _) as [x4|];
    [|destruct Ha; congruence].
  destruct (getWeatherInfo engine _) as [x5|];
    [|destruct Hi; congruence].
  exists (mkTexts x0 x1 x2 x3 x4 x5). repeat split.
Qed.

Lemma texts_convert (engine : Engine) (city country current : JsVal)
    (t : Texts) :
  texts_of engine city country current t ->
  forallb (converts engine) (city :: country :: shown_fields current) = true.
Proof.
  intros (H0 & H1 & H2 & H3 & H4 & H5).
  pose proof (heading_converts engine city country) as Hh.
  pose proof (rounded_converts engine "current.temperature_2m"
                (field current "temperature_2m")) as Ht.
  pose proof (to_string_converts engine "current.relative_humidity_2m"
                (field current "relative_humidity_2m")) as Hu.
  pose proof (to_string_converts engine "current.wind_speed_10m"
                (field current "wind_speed_10m")) as Hw.
  pose proof (rounded_converts engine "current.apparent_temperature"
                (field current "apparent_temperature")) as Ha.
  pose proof (getWeatherInfo_converts engine (field current "weather_code"))
    as Hi.
  rewrite H0 in Hh. rewrite H1 in Ht. rewrite H2 in Hu. rewrite H3 in Hw.
  rewrite H4 in Ha. rewrite H5 in Hi.
  destruct Hh as [_ Hh]. apply andb_prop in Hh as [Hc Hk].
  unfold shown_fields. cbn [forallb].
  rewrite Hc, Hk, (proj2 Ht), (proj2 Hu), (proj2 Hw), (proj2 Ha), (proj2 Hi).
  reflexivity.
Qed.

(** ** The renderer *)

Lemma Math_round_nearest (q : Q) :
  is_nearest (Qfloor (q + (1 # 2))) q.
Proof.
  unfold is_nearest.
  pose proof (Qfloor_le (q + (1 # 2))) as Hle.
  pose proof (Qlt_floor (q + (1 # 2))) as Hlt.
  rewrite inject_Z_plus in Hlt. change (inject_Z 1) with 1%Q in Hlt.
  split; lra.
Qed.

Lemma is_nearest_unique (n m : Z) (q : Q) :
  is_nearest n q -> is_nearest m q -> n = m.
Proof.
  unfold is_nearest. intros [Hn1 Hn2] [Hm1 Hm2].
  assert (H1 : (inject_Z n < inject_Z (m + 1))%Q)
    by (rewrite inject_Z_plus; change (inject_Z 1) with 1%Q; lra).
  assert (H2 : (inject_Z m < inject_Z (n + 1))%Q)
    by (rewrite inject_Z_plus; change (inject_Z 1) with 1%Q; lra).
  rewrite <- Zlt_Qlt in H1, H2. lia.
Qed.

Lemma Number_toString_integer (engine : Engine) (n : Z) :
  Z.abs n < 2 ^ 53 ->
  Number_toString engine (Fin (inject_Z n)) = Z_decimal n.
Proof.
  intros H. unfold Number_toString, is_integer.
  rewrite Qfloor_Z. cbn [Qnum Qden inject_Z]. rewrite Z.mod_1_r.
  apply Z.ltb_lt in H. now rewrite H.
Qed.

Lemma rounded_number (engine : Engine) (expr : string) (q : Q) :
  rounded engine expr (VNumber (Fin q))
  = Normal (Number_toString engine (Fin (inject_Z (Qfloor (q + (1 # 2)))))).
Proof. reflexivity. Qed.

Lemma field_Some (v : JsVal) (key : string) :
  nullish v = false -> get_prop v key = Some (field v key).
Proof.
  intros H. unfold field. destruct (get_prop v key) as [x|] eqn:E;
    [reflexivity|]. apply get_prop_None in E. congruence.
Qed.

Lemma field_current (data current : JsVal) :
  get_prop data "current" = Some current -> field data "current" = current.
Proof. intros H. unfold field. now rewrite H. Qed.

(** The renderer on an answer whose values all convert. *)
Lemma updateUI_rendered
    (engine : Engine) (city country data current : JsVal) (t : Texts)
    (net : list (Settled Response)) (pg : Page) :
  get_prop data "current" = Some current -> nullish current = false ->
  texts_of engine city country current t ->
  run (updateUI engine city country data) net pg
  = completed (render_events t (locale_date pg)) pg.
Proof.
  intros Hcurrent Hobj (H0 & H1 & H2 & H3 & H4 & H5).
  unfold updateUI, prop, act. rewrite Hcurrent. simpl.
  rewrite !(field_Some current _ Hobj), H0. simpl.
  rewrite H1. simpl. rewrite H2. simpl. rewrite H3. simpl.
  rewrite H4. simpl. rewrite H5. reflexivity.
Qed.

Lemma updateUI_no_current
    (engine : Engine) (city country data current : JsVal) (title : string)
    (net : list (Settled Response)) (pg : Page) :
  get_prop data "current" = Some current -> nullish current = true ->
  heading engine city country = Normal title ->
  run (updateUI engine city country data) net pg
  = mkRun (replay (header_events title (locale_date pg)) pg)
      (header_events title (locale_date pg))
      (Uncaught (mkError (TypeError_message engine
                            (ReadOfNullish "current" current
                               "temperature_2m")))).
Proof.
  intros Hcurrent Hnull Hh. unfold updateUI, prop, act.
  rewrite Hcurrent. simpl. rewrite Hh. simpl.
  rewrite (proj2 (get_prop_None current "temperature_2m") Hnull). reflexivity.
Qed.

Lemma updateUI_no_heading
    (engine : Engine) (city country data current : JsVal) (e : JsError)
    (net : list (Settled Response)) (pg : Page) :
  get_prop data "current" = Some current ->
  heading engine city country = Thrown e ->
  run (updateUI engine city country data) net pg = mkRun pg [] (Uncaught e).
Proof.
  intros Hcurrent Hh. unfold updateUI, prop, act.
  rewrite Hcurrent. simpl. rewrite Hh. reflexivity.
Qed.

Lemma updateUI_no_data
    (engine : Engine) (city country data : JsVal)
    (net : list (Settled Response)) (pg : Page) :
  nullish data = true ->
  run (updateUI engine city country data) net pg
  = mkRun pg []
      (Uncaught (mkError (TypeError_message engine
                            (ReadOfNullish "data" data "current")))).
Proof.
  intros Hnull. unfold updateUI, prop.
  rewrite (proj2 (get_prop_None data "current") Hnull). reflexivity.
Qed.

(** The renderer fails as soon as the [current] block is missing or one of
    the values it converts cannot be converted. *)
Lemma updateUI_failed
    (engine : Engine) (city country data : JsVal)
    (net : list (Settled Response)) (pg : Page) :
  nullish (field data "current") = true
  \/ forallb (converts engine)
       (city :: country :: shown_fields (field data "current")) = false ->
  exists e, outcome (run (updateUI engine city country data) net pg) = Uncaught e.
Proof.
  intros H.
  destruct (get_prop data "current") as [current|] eqn:Hcurrent.
  2: { apply get_prop_None in Hcurrent.
       rewrite (updateUI_no_data _ _ _ _ _ _ Hcurrent). eexists; reflexivity. }
  rewrite (field_current _ _ Hcurrent) in H.
  pose proof (heading_converts engine city country) as Hh.
  destruct (heading engine city country) as [title|e] eqn:Hheading.
  2: { rewrite (updateUI_no_heading _ _ _ _ _ _ _ _ Hcurrent Hheading).
       eexists; reflexivity. }
  destruct (nullish current) eqn:Hnull.
  { rewrite (updateUI_no_current _ _ _ _ _ _ _ _ Hcurrent Hnull Hheading).
    eexists; reflexivity. }
  destruct H as [H|H]; [discriminate H|].
  destruct Hh as [_ Hh]. apply andb_prop in Hh as [Hc Hk].
  revert H. unfold shown_fields. cbn [forallb]. rewrite Hc, Hk.
  cbn [andb]. intros H.
  pose proof (rounded_converts engine "current.temperature_2m"
                (field current "temperature_2m")) as Ht.
  pose proof (to_string_converts engine "current.relative_humidity_2m"
                (field current "relative_humidity_2m")) as Hu.
  pose proof (to_string_converts engine "current.wind_speed_10m"
                (field current "wind_speed_10m")) as Hw.
  pose proof (rounded_converts engine "current.apparent_temperature"
                (field current "apparent_temperature")) as Ha.
  pose proof (getWeatherInfo_converts engine (field current "weather_code"))
    as Hi.
  unfold updateUI, prop, act. rewrite Hcurrent. simpl.
  rewrite !(field_Some current _ Hnull), Hheading. simpl.
  destruct (rounded engine "current.temperature_2m" _) as [x1|e1];
    simpl; [|eexists; reflexivity].
  destruct (to_string engine "current.relative_humidity_2m" _) as [x2|e2];
    simpl; [|eexists; reflexivity].
  destruct (to_string engine "current.wind_speed_10m" _) as [x3|e3];
    simpl; [|eexists; reflexivity].
  destruct (rounded engine "current.apparent_temperature" _) as [x4|e4];
    simpl; [|eexists; reflexivity].
  destruct (getWeatherInfo engine _) as [x5|e5];
    simpl; [|eexists; reflexivity].
  exfalso.
  rewrite (proj2 Ht), (proj2 Hu), (proj2 Hw), (proj2 Ha), (proj2 Hi) in H.
  discriminate H.
Qed.

Lemma entry_tokens (e : WeatherInfo) :
  In e (unknown_entry :: map snd range_table) ->
  class_tokens "" ("fa-solid " ++ icon e) = ["fa-solid"; icon e]
  /\ In (icon e)
       ["fa-cloud"; "fa-sun"; "fa-cloud-sun"; "fa-smog"; "fa-cloud-rain";
        "fa-cloud-showers-heavy"; "fa-snowflake"; "fa-cloud-showers-water";
        "fa-cloud-bolt"].
Proof.
  intros H. simpl in H.
  repeat match type of H with
         | _ \/ _ => destruct H as [H|H]
         end; try contradiction; rewrite <- H; split; try reflexivity;
    simpl; tauto.
Qed.

(** ** A search whose two calls are answered *)

Section Answered.

Variable engine : Engine.
Variable pg : Page.
Variables resp resp' : Response.
Variables geoData name latitude longitude country data : JsVal.
Variable url : string.
Variable rest : list (Settled Response).

Hypothesis city_given : trim (value (dom pg cityInput)) <> "".
Hypothesis geocoder_ok : ok resp = true.
Hypothesis geocoder_body : body resp = Fulfilled geoData.
Hypothesis geocoder_hit :
  located geoData = Some (name, latitude, longitude, country).
Hypothesis coordinates : weather_url engine latitude longitude = Normal url.
Hypothesis weather_ok : ok resp' = true.
Hypothesis weather_body : body resp' = Fulfilled data.

Let city : string := trim (value (dom pg cityInput)).

Let calls : list Event :=
  (prologue
     ++ [Requested (geocoding_url city); BodyRead; Requested url; BodyRead])%list.

Lemma run_answered :
  run (handleSearch engine) (Fulfilled resp :: Fulfilled resp' :: rest) pg
  = preceded calls
      (run (guarded (updateUI engine name country data)) rest
         (replay prologue pg)).
Proof.
  rewrite (run_searching _ _ _ city_given).
  rewrite (run_geocoding_answered _ _ _ _ _ _ geocoder_ok geocoder_body),
    geocoder_hit.
  unfold rendering, guarded, try_catch_finally, fetchWeather, fetch, json.
  rewrite coordinates.
  simpl. rewrite weather_ok. simpl. rewrite weather_body. simpl.
  unfold preceded. simpl. reflexivity.
Qed.

Lemma run_rendered (current : JsVal) (t : Texts) :
  get_prop data "current" = Some current -> nullish current = false ->
  texts_of engine name country current t ->
  run (handleSearch engine) (Fulfilled resp :: Fulfilled resp' :: rest) pg
  = completed
      (calls
         ++ render_events t (locale_date pg)
         ++ [Did (ClassList_add loadingIndicator "hidden")]) pg.
Proof.
  intros Hcurrent Hobj Ht. rewrite run_answered.
  rewrite run_guarded_returned;
    rewrite (updateUI_rendered _ _ _ _ _ _ _ _ Hcurrent Hobj Ht);
    [|reflexivity].
  reflexivity.
Qed.

Lemma run_not_rendered (current : JsVal) (title : string) :
  get_prop data "current" = Some current -> nullish current = true ->
  heading engine name country = Normal title ->
  run (handleSearch engine) (Fulfilled resp :: Fulfilled resp' :: rest) pg
  = completed
      (calls
         ++ header_events title (locale_date pg)
         ++ error_epilogue
              (mkError (TypeError_message engine
                          (ReadOfNullish "current" current "temperature_2m"))))
      pg.
Proof.
  intros Hcurrent Hnull Hh. rewrite run_answered.
  rewrite (run_guarded_thrown _ _ _
             (mkError (TypeError_message engine
                         (ReadOfNullish "current" current "temperature_2m"))));
    rewrite (updateUI_no_current _ _ _ _ _ _ _ _ Hcurrent Hnull Hh);
    [|reflexivity].
  reflexivity.
Qed.

Lemma run_no_heading (current : JsVal) (e : JsError) :
  get_prop data "current" = Some current ->
  heading engine name country = Thrown e ->
  run (handleSearch engine) (Fulfilled resp :: Fulfilled resp' :: rest) pg
  = caught calls e pg.
Proof.
  intros Hcurrent Hh. rewrite run_answered.
  rewrite (run_guarded_thrown _ _ _ e);
    rewrite (updateUI_no_heading _ _ _ _ _ _ _ _ Hcurrent Hh); [|reflexivity].
  reflexivity.
Qed.

Lemma run_no_data :
  nullish data = true ->
  run (handleSearch engine) (Fulfilled resp :: Fulfilled resp' :: rest) pg
  = caught calls
      (mkError (TypeError_message engine (ReadOfNullish "data" data "current")))
      pg.
Proof.
  intros Hnull. rewrite run_answered.
  rewrite (run_guarded_thrown _ _ _
             (mkError (TypeError_message engine
                         (ReadOfNullish "data" data "current"))));
    rewrite (updateUI_no_data _ _ _ _ _ _ Hnull); [|reflexivity].
  reflexivity.
Qed.

End Answered.

Lemma completed_result_state (front : list Event) (t : Texts) (pg : Page) :
  panels_hidden (replay front pg) = loading_only ->
  ui_state
    (final (completed
              (front ++ render_events t (locale_date pg)
                 ++ [Did (ClassList_add loadingIndicator "hidden")]) pg))
  = Some Result.
Proof.
  intros H. unfold ui_state, completed. cbn [final].
  rewrite replay_app, panels_replay, H.
  unfold render_events, observe. cbn [fold_left app panel_step set_panel].
  reflexivity.
Qed.

(** C8: in a successful search the renderer writes the temperature and the
    apparent temperature rounded to a nearest integer (the text of the latter
    is followed by the degree suffix of the script); a temperature of 23.4 is
    displayed as "23" and an apparent temperature of 21.6 as "22", as is any
    value in [22.5, 23.5) and [21.5, 22.5).  Humidity and wind speed are the
    provider's values converted to text without rounding, followed by "%" and
    " km/h".  The search is successful when the values the script converts
    on its way (name, country, coordinates, humidity, wind speed, weather
    code) can be converted. *)
Theorem rendered_values_rounded
    (engine : Engine) (pg : Page) (resp resp' : Response)
    (geoData name latitude longitude country data current h w : JsVal)
    (t a : Q) (hs ws : string) (rest : list (Settled Response)) :
  trim (value (dom pg cityInput)) <> "" ->
  ok resp = true -> body resp = Fulfilled geoData ->
  located geoData = Some (name, latitude, longitude, country) ->
  ok resp' = true -> body resp' = Fulfilled data ->
  get_prop data "current" = Some current ->
  get_prop current "temperature_2m" = Some (VNumber (Fin t)) ->
  get_prop current "apparent_temperature" = Some (VNumber (Fin a)) ->
  get_prop current "relative_humidity_2m" = Some h ->
  get_prop current "wind_speed_10m" = Some w ->
  forallb (converts engine)
    [name; country; latitude; longitude; field current "weather_code"]
  = true ->
  ToString engine h = Some hs ->
  ToString engine w = Some ws ->
  let r := run (handleSearch engine)
             (Fulfilled resp :: Fulfilled resp' :: rest) pg in
  outcome r = Returned tt
  /\ ui_state (final r) = Some Result
  /\ (exists n,
        is_nearest n t
        /\ text_of (final r) tempEl = Number_toString engine (Fin (inject_Z n))
        /\ (Z.abs n < 2 ^ 53 -> text_of (final r) tempEl = Z_decimal n))
  /\ (exists n,
        is_nearest n a
        /\ text_of (final r) feelsLikeEl
           = Number_toString engine (Fin (inject_Z n)) ++ degree_suffix
        /\ (Z.abs n < 2 ^ 53 ->
            text_of (final r) feelsLikeEl = Z_decimal n ++ degree_suffix))
  /\ text_of (final r) humidityEl = hs ++ "%"
  /\ text_of (final r) windSpeedEl = ws ++ " km/h"
  /\ ((45 # 2 <= t /\ t < 47 # 2)%Q -> text_of (final r) tempEl = "23")
  /\ ((43 # 2 <= a /\ a < 45 # 2)%Q ->
      text_of (final r) feelsLikeEl = "22" ++ degree_suffix).
Proof.
  intros Hcity Hok Hbody Hloc Hok' Hbody' Hcurrent Ht Ha Hh Hw Hconv Hhs Hws r.
  cbn [forallb] in Hconv. rewrite !andb_true_iff in Hconv.
  destruct Hconv as (Hname & Hcountry & Hlat & Hlon & Hcode & _).
  assert (Hobj : nullish current = false).
  { destruct (nullish current) eqn:E; [|reflexivity].
    apply (proj2 (get_prop_None current "temperature_2m")) in E. congruence. }
  assert (Hfield : forall key x, get_prop current key = Some x ->
                                 field current key = x)
    by (intros key x H; unfold field; now rewrite H).
  pose proof (weather_url_converts engine latitude longitude) as Hurl.
  destruct (weather_url engine latitude longitude) as [url|e] eqn:Hu;
    [clear Hurl|rewrite Hlat, Hlon in Hurl; now destruct Hurl].
  pose proof (heading_converts engine name country) as Hhead.
  destruct (heading engine name country) as [heading_text|e] eqn:Hheading;
    [clear Hhead|rewrite Hname, Hcountry in Hhead; discriminate Hhead].
  pose proof (getWeatherInfo_converts engine (field current "weather_code"))
    as Hinfo.
  destruct (getWeatherInfo engine (field current "weather_code"))
    as [found|e] eqn:Hi; [clear Hinfo|destruct Hinfo; congruence].
  set (tx := mkTexts heading_text
               (Number_toString engine (Math_round (Fin t)))
               hs ws
               (Number_toString engine (Math_round (Fin a)))
               found).
  assert (Htexts : texts_of engine name country current tx).
  { unfold texts_of, tx. cbn [title temperature humidity wind feels_like info].
    rewrite (Hfield _ _ Ht), (Hfield _ _ Ha), (Hfield _ _ Hh), (Hfield _ _ Hw).
    rewrite (to_string_Some _ _ _ _ Hhs), (to_string_Some _ _ _ _ Hws).
    repeat split; assumption. }
  assert (Hr : r = completed
                     ((prologue
                         ++ [Requested (geocoding_url
                                          (trim (value (dom pg cityInput))));
                             BodyRead; Requested url; BodyRead])
                        ++ render_events tx (locale_date pg)
                        ++ [Did (ClassList_add loadingIndicator "hidden")]) pg)
    by (unfold r;
        now rewrite (run_rendered engine pg resp resp' geoData name latitude
                       longitude country data url rest Hcity Hok Hbody Hloc Hu
                       Hok' Hbody' current tx Hcurrent Hobj Htexts)).
  assert (Htemp : text_of (final r) tempEl
                  = Number_toString engine (Math_round (Fin t)))
    by (rewrite Hr; reflexivity).
  assert (Hfeels : text_of (final r) feelsLikeEl
                   = Number_toString engine (Math_round (Fin a))
                       ++ degree_suffix)
    by (rewrite Hr; reflexivity).
  split; [now rewrite Hr|].
  split; [|split; [|split; [|split; [|split; [|split]]]]].
  - rewrite Hr. apply completed_result_state.
    apply quiet_panels; [reflexivity|apply prologue_panels].
  - exists (Qfloor (t + (1 # 2))). split; [apply Math_round_nearest|].
    split; [exact Htemp|]. intros Hsmall. rewrite Htemp.
    now apply Number_toString_integer.
  - exists (Qfloor (a + (1 # 2))). split; [apply Math_round_nearest|].
    split; [exact Hfeels|]. intros Hsmall. rewrite Hfeels. f_equal.
    now apply Number_toString_integer.
  - rewrite Hr. reflexivity.
  - rewrite Hr. reflexivity.
  - intros [H1 H2]. rewrite Htemp. cbn [Math_round].
    rewrite <- (is_nearest_unique 23 _ t); [reflexivity| |apply Math_round_nearest].
    unfold is_nearest, inject_Z. split; lra.
  - intros [H1 H2]. rewrite Hfeels. cbn [Math_round].
    rewrite <- (is_nearest_unique 22 _ a); [reflexivity| |apply Math_round_nearest].
    unfold is_nearest, inject_Z. split; lra.
Qed.

Lemma rendered_values_rounded_witness :
  trim (value (dom sample_page cityInput)) <> ""
  /\ located sample_place
     = Some (VString "Paris", VNumber (Fin (488534 # 10000)),
             VNumber (Fin (23488 # 10000)), VString "France")
  /\ get_prop sample_weather "current"
     = Some (VObject [ ("temperature_2m", VNumber (Fin (234 # 10)));
                       ("relative_humidity_2m", int 40);
                       ("apparent_temperature", VNumber (Fin (216 # 10)));
                       ("weather_code", int 3);
                       ("wind_speed_10m", VNumber (Fin (5 # 2))) ])
  /\ ToString sample_engine (int 40) = Some "40"
  /\ (45 # 2 <= 234 # 10 /\ 234 # 10 < 47 # 2)%Q
  /\ (43 # 2 <= 216 # 10 /\ 216 # 10 < 45 # 2)%Q
  /\ text_of (final (run (handleSearch sample_engine)
                       [answer sample_place; answer sample_weather]
                       sample_page)) tempEl = "23"
  /\ text_of (final (run (handleSearch sample_engine)
                       [answer sample_place; answer sample_weather]
                       sample_page)) feelsLikeEl = "22" ++ degree_suffix
  /\ text_of (final (run (handleSearch sample_engine)
                       [answer sample_place; answer sample_weather]
                       sample_page)) humidityEl = "40%".
Proof.
  assert (Hcity : trim (value (dom sample_page cityInput)) <> "")
    by (vm_compute; discriminate).
  assert (Ht : (45 # 2 <= 234 # 10 /\ 234 # 10 < 47 # 2)%Q)
    by (split; [discriminate|reflexivity]).
  assert (Ha : (43 # 2 <= 216 # 10 /\ 216 # 10 < 45 # 2)%Q)
    by (split; [discriminate|reflexivity]).
  assert (Hhs : ToString sample_engine (int 40) = Some "40") by reflexivity.
  pose proof (rendered_values_rounded sample_engine sample_page
                {| ok := true; body := Fulfilled sample_place |}
                {| ok := true; body := Fulfilled sample_weather |}
                sample_place _ _ _ _ sample_weather _
                (int 40) (VNumber (Fin (5 # 2))) (234 # 10) (216 # 10)
                "40" "?" []
                Hcity eq_refl eq_refl eq_refl eq_refl eq_refl
                eq_refl eq_refl eq_refl eq_refl eq_refl eq_refl Hhs eq_refl)
    as (_ & _ & _ & _ & Hhum & _ & H23 & H22).
  split; [exact Hcity|]. split; [reflexivity|]. split; [reflexivity|].
  split; [exact Hhs|]. split; [exact Ht|]. split; [exact Ha|].
  split; [exact (H23 Ht)|]. split; [exact (H22 Ha)|exact Hhum].
Defined.

(* ========================================================================= *)
(** * Further properties *)

(** ** The classifier beyond integer codes *)

Ltac decide_Qle :=
  repeat (match goal with
          | |- context [Qle_bool ?a ?b] =>
              let E := fresh "E" in
              destruct (Qle_bool a b) eqn:E;
              [ apply Qle_bool_iff in E
              | apply not_true_iff_false in E; rewrite Qle_bool_iff in E ]
          | |- context [Qeq_bool ?a ?b] =>
              let E := fresh "E" in
              destruct (Qeq_bool a b) eqn:E;
              [ apply Qeq_bool_iff in E
              | apply not_true_iff_false in E; rewrite Qeq_bool_iff in E ]
          end;
          unfold inject_Z in *; simpl; try reflexivity; try discriminate;
          try lra).

Lemma getWeatherInfo_Q_row (engine : Engine) (q : Q) (lo hi : Z) (e : WeatherInfo) :
  In (lo, hi, e) range_table ->
  (inject_Z lo <= q /\ q <= inject_Z hi)%Q ->
  getWeatherInfo engine (VNumber (Fin q)) = Normal e.
Proof.
  intros Hin [H1 H2]. simpl in Hin.
  repeat match type of Hin with
         | _ \/ _ => destruct Hin as [Hin|Hin]
         end;
    try contradiction; inversion Hin; subst; clear Hin;
    unfold getWeatherInfo; rewrite !between_number;
    unfold branch, strict_eq; cbn [num_ge num_le]; decide_Qle.
Qed.

Lemma getWeatherInfo_Q_unmatched (engine : Engine) (q : Q) :
  in_ranges_Q q = false ->
  getWeatherInfo engine (VNumber (Fin q)) = Normal unknown_entry.
Proof.
  unfold in_ranges_Q, range_table, in_row_Q; simpl.
  unfold getWeatherInfo. rewrite !between_number.
  unfold branch, strict_eq. cbn [num_ge num_le].
  intros H. revert H. decide_Qle.
Qed.

(** X1: the classifier reads its rows as intervals of numbers: a code that
    is not an integer gets the entry of the row whose bounds enclose it, and
    the default entry when it falls between two rows. *)
Theorem getWeatherInfo_fractional (engine : Engine) (q : Q) :
  (forall lo hi e,
      In (lo, hi, e) range_table ->
      (inject_Z lo <= q /\ q <= inject_Z hi)%Q ->
      getWeatherInfo engine (VNumber (Fin q)) = Normal e)
  /\ (in_ranges_Q q = false ->
      getWeatherInfo engine (VNumber (Fin q)) = Normal unknown_entry)
  /\ ((0 < q /\ q < 1)%Q \/ (3 < q /\ q < 45)%Q \/ (48 < q /\ q < 51)%Q ->
      getWeatherInfo engine (VNumber (Fin q)) = Normal unknown_entry).
Proof.
  split; [intros lo hi e; apply getWeatherInfo_Q_row|].
  split; [apply getWeatherInfo_Q_unmatched|].
  intros H. apply getWeatherInfo_Q_unmatched.
  unfold in_ranges_Q, range_table, in_row_Q; simpl.
  destruct H as [[H1 H2]|[[H1 H2]|[H1 H2]]]; decide_Qle.
Qed.

Lemma getWeatherInfo_fractional_witness :
  In (45, 48, entry "Foggy" "smog") range_table
  /\ (inject_Z 45 <= 91 # 2 /\ 91 # 2 <= inject_Z 48)%Q
  /\ (0 < 1 # 2 /\ 1 # 2 < 1)%Q
  /\ getWeatherInfo sample_engine (VNumber (Fin (91 # 2)))
     = Normal (entry "Foggy" "smog")
  /\ getWeatherInfo sample_engine (VNumber (Fin (1 # 2)))
     = Normal unknown_entry.
Proof.
  assert (Hin : In (45, 48, entry "Foggy" "smog") range_table)
    by (simpl; tauto).
  assert (Hq : (inject_Z 45 <= 91 # 2 /\ 91 # 2 <= inject_Z 48)%Q)
    by (split; discriminate).
  assert (Hh : (0 < 1 # 2 /\ 1 # 2 < 1)%Q) by (split; reflexivity).
  split; [exact Hin|]. split; [exact Hq|]. split; [exact Hh|]. split.
  - exact (proj1 (getWeatherInfo_fractional sample_engine (91 # 2))
             45 48 _ Hin Hq).
  - exact (proj2 (proj2 (getWeatherInfo_fractional sample_engine (1 # 2)))
             (or_introl Hh)).
Defined.

Lemma getWeatherInfo_zero (engine : Engine) (q : Q) :
  q == 0 ->
  getWeatherInfo engine (VNumber (Fin q)) = Normal (entry "Clear Sky" "sun").
Proof.
  intros H. apply (getWeatherInfo_Q_row engine q 0 0); [simpl; tauto|].
  unfold inject_Z. split; lra.
Qed.

Lemma getWeatherInfo_coerced_zero (engine : Engine) (v : JsVal) (q : Q) :
  is_number v = false -> ToNumber engine v = Some (Fin q) -> q == 0 ->
  getWeatherInfo engine v = Normal unknown_entry.
Proof.
  intros Hv Hn Hq. unfold getWeatherInfo.
  rewrite !(between_converted _ _ _ _ _ Hn), (strict_eq_number _ _ Hv).
  unfold branch. cbn [num_ge num_le].
  rewrite !(Qle_bool_compat_r _ q 0 Hq), !(Qle_bool_compat_l _ q 0 Hq).
  reflexivity.
Qed.

Lemma getWeatherInfo_coerced (engine : Engine) (v : JsVal) (n : JsNum) :
  is_number v = false -> ToNumber engine v = Some n -> is_zero n = false ->
  getWeatherInfo engine v = getWeatherInfo engine (VNumber n).
Proof.
  intros Hv Hn Hz. unfold getWeatherInfo.
  rewrite !(between_converted _ _ _ _ _ Hn), !between_number.
  rewrite (strict_eq_number _ _ Hv). unfold strict_eq.
  destruct n as [q| | |]; try reflexivity.
  simpl in Hz. change (inject_Z 0) with 0%Q. now rewrite Hz.
Qed.

(** X2: a code that is not a number is classified by the number it converts
    to, with one exception: the first test is a strict equality, so a value
    that converts to zero ([null], [false], a string read as 0) gets the
    default entry and not Clear Sky.  [undefined] gets the default entry and
    [true] is classified as code 1.  A code that cannot be converted, such as
    an object with a property named [toString], makes the classifier throw
    the [TypeError] of the engine. *)
Theorem getWeatherInfo_coercion (engine : Engine) (v : JsVal) :
  is_number v = false ->
  (forall n,
      ToNumber engine v = Some n -> is_zero n = false ->
      getWeatherInfo engine v = getWeatherInfo engine (VNumber n))
  /\ (forall n,
        ToNumber engine v = Some n -> is_zero n = true ->
        getWeatherInfo engine v = Normal unknown_entry
        /\ getWeatherInfo engine (VNumber n)
           = Normal (entry "Clear Sky" "sun"))
  /\ (ToNumber engine v = None ->
      getWeatherInfo engine v
      = Thrown (mkError (TypeError_message engine (NotPrimitive "code" v))))
  /\ (forall fields,
        has_key "toString" fields = true ->
        getWeatherInfo engine (VObject fields)
        = Thrown (mkError (TypeError_message engine
                             (NotPrimitive "code" (VObject fields)))))
  /\ getWeatherInfo engine VUndefined = Normal unknown_entry
  /\ getWeatherInfo engine VNull = Normal unknown_entry
  /\ getWeatherInfo engine (VBool false) = Normal unknown_entry
  /\ getWeatherInfo engine (VBool true)
     = Normal (entry "Partly Cloudy" "cloud-sun").
Proof.
  intros Hv. split; [intros n; now apply getWeatherInfo_coerced|].
  split; [|split; [|split; [|repeat split]]].
  - intros n Hn Hz. destruct n as [q| | |]; try discriminate Hz.
    simpl in Hz. apply Qeq_bool_iff in Hz. split.
    + now apply (getWeatherInfo_coerced_zero engine v q).
    + now apply getWeatherInfo_zero.
  - apply getWeatherInfo_unconvertible.
  - intros fields H. apply getWeatherInfo_unconvertible.
    cbn [ToNumber ToString]. now rewrite H.
Qed.

Lemma getWeatherInfo_coercion_witness :
  is_number (VString "") = false
  /\ ToNumber {| StringToNumber := fun _ => Fin 0;
                 NumberToString_other := fun _ => "";
                 TypeError_message := fun _ => "" |} (VString "")
     = Some (Fin 0)
  /\ is_zero (Fin 0) = true
  /\ getWeatherInfo {| StringToNumber := fun _ => Fin 0;
                       NumberToString_other := fun _ => "";
                       TypeError_message := fun _ => "" |} (VString "")
     = Normal unknown_entry.
Proof.
  split; [reflexivity|]. split; [reflexivity|]. split; [reflexivity|].
  exact (proj1 (proj1 (proj2 (getWeatherInfo_coercion
                                {| StringToNumber := fun _ => Fin 0;
                                   NumberToString_other := fun _ => "";
                                   TypeError_message := fun _ => "" |}
                                (VString "") eq_refl))
                  (Fin 0) eq_refl eq_refl)).
Defined.

(** ** The geocoding request *)

Lemma chars_app (s1 s2 : string) : chars (s1 ++ s2) = (chars s1 ++ chars s2)%list.
Proof.
  unfold chars. induction s1 as [|c s1 IH]; simpl; [reflexivity|].
  now rewrite IH.
Qed.

Lemma encoded_char_safe (c : ascii) :
  forallb url_safe
    (chars (if unreserved c then String c ""
            else if (N_of_ascii c <? 128)%N then percent (N_of_ascii c)
            else percent (192 + N_of_ascii c / 64)
                   ++ percent (128 + N_of_ascii c mod 64)))
  = true.
Proof.
  destruct c as [[|] [|] [|] [|] [|] [|] [|] [|]]; vm_compute; reflexivity.
Qed.

Lemma encodeURIComponent_safe (s : string) :
  forallb url_safe (chars (encodeURIComponent s)) = true.
Proof.
  induction s as [|c s IH]; [reflexivity|].
  cbn [encodeURIComponent]. rewrite chars_app, forallb_app, IH.
  now rewrite encoded_char_safe.
Qed.

Lemma encodeURIComponent_unreserved (s : string) :
  forallb unreserved (chars s) = true -> encodeURIComponent s = s.
Proof.
  induction s as [|c s IH]; [reflexivity|].
  unfold chars. simpl list_ascii_of_string. cbn [forallb].
  intros H. apply andb_prop in H as [Hc Hs].
  cbn [encodeURIComponent]. rewrite Hc, (IH Hs). reflexivity.
Qed.

(** X3: the city typed by the user cannot alter the query of the geocoding
    request: between the fixed prefix [...search?name=] and the fixed suffix
    [&count=1&language=en&format=json] the URL holds only unreserved
    characters and percent escapes, so no [&], [=], [#], [?], [/], [+] nor
    space of the city reaches it; a city made of unreserved characters is
    sent as it is. *)
Theorem geocoding_url_query (city : string) :
  geocoding_url city
  = "https://geocoding-api.open-meteo.com/v1/search?name="
      ++ encodeURIComponent city ++ "&count=1&language=en&format=json"
  /\ (forall c, In c (chars (encodeURIComponent city)) ->
        url_safe c = true
        /\ c <> "&"%char /\ c <> "="%char /\ c <> "#"%char /\ c <> "?"%char
        /\ c <> "/"%char /\ c <> "+"%char /\ c <> " "%char)
  /\ (forallb unreserved (chars city) = true ->
      encodeURIComponent city = city).
Proof.
  split; [reflexivity|]. split; [|apply encodeURIComponent_unreserved].
  intros c Hin.
  pose proof (encodeURIComponent_safe city) as H.
  rewrite forallb_forall in H. specialize (H c Hin).
  split; [exact H|].
  repeat split; intros ->; discriminate H.
Qed.

Lemma geocoding_url_query_witness :
  In "%"%char (chars (encodeURIComponent "a&b"))
  /\ forallb unreserved (chars "Paris") = true
  /\ url_safe "%"%char = true
  /\ encodeURIComponent "Paris" = "Paris".
Proof.
  assert (Hin : In "%"%char (chars (encodeURIComponent "a&b")))
    by (vm_compute; tauto).
  assert (Hun : forallb unreserved (chars "Paris") = true) by reflexivity.
  split; [exact Hin|]. split; [exact Hun|]. split.
  - exact (proj1 (proj1 (proj2 (geocoding_url_query "a&b")) _ Hin)).
  - exact (proj2 (proj2 (geocoding_url_query "Paris")) Hun).
Defined.

(** ** When a search starts *)

Lemma trim_end_empty (s : string) : trim_end s = "" -> only_spaces s = true.
Proof.
  unfold only_spaces. induction s as [|c s IH]; simpl; [reflexivity|].
  destruct (is_space c); simpl.
  - destruct (String.eqb_spec (trim_end s) "") as [E|E].
    + intros _. apply IH, E.
    + intros H. discriminate H.
  - intros H. discriminate H.
Qed.

Lemma trim_start_spec (s : string) :
  only_spaces s = true
  \/ exists c rest, trim_start s = String c rest /\ is_space c = false.
Proof.
  unfold only_spaces. induction s as [|c s IH]; simpl; [now left|].
  destruct (is_space c) eqn:E; simpl.
  - exact IH.
  - right. now exists c, s.
Qed.

Lemma trim_empty_iff (s : string) : trim s = "" <-> only_spaces s = true.
Proof.
  split; [|apply trim_spaces].
  unfold trim. intros H.
  destruct (trim_start_spec s) as [Hs|(c & rest & Hc & Hsp)]; [exact Hs|].
  rewrite Hc in H. simpl in H. rewrite Hsp in H. discriminate H.
Qed.

Lemma advance_started (engine : Engine) (city : string) (pg : Page) :
  exists k,
    advance (searching engine city) pg
    = (replay prologue pg,
       [ClassList_add weatherContainer "hidden";
        ClassList_add errorContainer "hidden";
        ClassList_remove loadingIndicator "hidden"],
       Suspended (AwaitFetch (geocoding_url city) k)).
Proof. eexists. reflexivity. Qed.

(** X4: a submission starts a search exactly when the input field holds a
    character that is not white space.  The first turn of a search hides the
    result and error panels and shows the loading indicator, whatever the
    page showed before, and suspends on the geocoding request for the trimmed
    text; nothing else is done in that turn. *)
Theorem search_starts_iff (engine : Engine) (pg : Page) :
  (only_spaces (value (dom pg cityInput)) = true <->
   advance (handleSearch engine) pg = (pg, [], Finished tt))
  /\ (only_spaces (value (dom pg cityInput)) = false ->
      exists pg' k,
        advance (handleSearch engine) pg
        = (pg',
           [ClassList_add weatherContainer "hidden";
            ClassList_add errorContainer "hidden";
            ClassList_remove loadingIndicator "hidden"],
           Suspended (AwaitFetch
                        (geocoding_url (trim (value (dom pg cityInput)))) k))
        /\ ui_state pg' = Some Loading
        /\ (forall el, text_of pg' el = text_of pg el)).
Proof.
  split.
  - split.
    + intros H. apply advance_blank, trim_spaces, H.
    + intros H.
      destruct (only_spaces (value (dom pg cityInput))) eqn:E; [reflexivity|].
      assert (Hcity : trim (value (dom pg cityInput)) <> "").
      { intros Ht. apply trim_empty_iff in Ht. congruence. }
      rewrite (advance_searching _ _ Hcity) in H.
      destruct (advance_started engine (trim (value (dom pg cityInput))) pg)
        as [k Hk].
      rewrite Hk in H. discriminate H.
  - intros E.
    assert (Hcity : trim (value (dom pg cityInput)) <> "").
    { intros Ht. apply trim_empty_iff in Ht. congruence. }
    destruct (advance_started engine (trim (value (dom pg cityInput))) pg)
      as [k Hk].
    exists (replay prologue pg), k.
    split; [now rewrite (advance_searching _ _ Hcity)|].
    split; [unfold ui_state; now rewrite prologue_panels|].
    intros el. unfold text_of. simpl.
    destruct (ElemId_eqb el loadingIndicator), (ElemId_eqb el errorContainer),
      (ElemId_eqb el weatherContainer); reflexivity.
Qed.

Lemma search_starts_iff_witness :
  only_spaces (value (dom sample_page cityInput)) = false
  /\ exists pg' k,
       advance (handleSearch sample_engine) sample_page
       = (pg',
          [ClassList_add weatherContainer "hidden";
           ClassList_add errorContainer "hidden";
           ClassList_remove loadingIndicator "hidden"],
          Suspended (AwaitFetch (geocoding_url "Paris") k))
       /\ ui_state pg' = Some Loading.
Proof.
  assert (H : only_spaces (value (dom sample_page cityInput)) = false)
    by reflexivity.
  split; [exact H|].
  destruct (proj2 (search_starts_iff sample_engine sample_page) H)
    as (pg' & k & Hadv & Hstate & _).
  exists pg', k. split; [exact Hadv|exact Hstate].
Defined.

(** ** Typing in the field *)

Lemma typing_step (engine : Engine) (l : Loop) (inp : Input) :
  is_typing inp = true ->
  exists l',
    loop_step engine l inp = Some l'
    /\ pending l' = pending l
    /\ same_display (page l) (page l')
    /\ value (dom (page l') cityInput)
       = typed_value (value (dom (page l) cityInput)) [inp].
Proof.
  destruct inp as [|key|text|i r|i]; simpl; intros H; try discriminate H.
  - unfold on_keypress. destruct (key =? "Enter")%string; [discriminate H|].
    exists (mkLoop (page l) (pending l)). unfold start. simpl.
    rewrite app_nil_r. repeat split.
  - eexists. split; [reflexivity|]. simpl. split; [reflexivity|].
    split; [|reflexivity].
    split; [reflexivity|]. intros el. unfold update. simpl.
    destruct el; simpl; repeat split; intros H'; try reflexivity;
      now elim H'.
Qed.

Lemma same_display_trans (pg1 pg2 pg3 : Page) :
  same_display pg1 pg2 -> same_display pg2 pg3 -> same_display pg1 pg3.
Proof.
  intros [Hd1 H1] [Hd2 H2]. split; [congruence|].
  intros el. destruct (H1 el) as (A1 & B1 & C1), (H2 el) as (A2 & B2 & C2).
  repeat split; try congruence.
  intros Hne. rewrite (C2 Hne). now apply C1.
Qed.

Lemma same_display_panels (pg pg' : Page) :
  same_display pg pg' -> panels_hidden pg' = panels_hidden pg.
Proof.
  intros [_ H]. unfold panels_hidden, hidden.
  now rewrite (proj1 (H weatherContainer)), (proj1 (H errorContainer)),
    (proj1 (H loadingIndicator)).
Qed.

(** X5: typing never starts a search: a sequence of key presses other than
    Enter and of changes of the field leaves the suspended searches, the
    panels and every displayed text as they are; only the content of the
    input field changes, to the text typed last. *)
Theorem typing_never_searches (engine : Engine) (inputs : list Input) :
  forall l,
    forallb is_typing inputs = true ->
    exists l',
      loop_run engine l inputs = Some l'
      /\ pending l' = pending l
      /\ same_display (page l) (page l')
      /\ ui_state (page l') = ui_state (page l)
      /\ value (dom (page l') cityInput)
         = typed_value (value (dom (page l) cityInput)) inputs.
Proof.
  induction inputs as [|inp rest IH]; intros l H.
  - exists l. simpl. repeat split.
  - simpl in H. apply andb_prop in H as [Hinp Hrest].
    destruct (typing_step engine l inp Hinp) as (l1 & Hstep & Hp & Hd & Hv).
    destruct (IH l1 Hrest) as (l' & Hrun & Hp' & Hd' & Hs' & Hv').
    exists l'. simpl. rewrite Hstep.
    split; [exact Hrun|]. split; [congruence|].
    split; [eapply same_display_trans; eassumption|].
    split.
    + rewrite Hs'. unfold ui_state. now rewrite (same_display_panels _ _ Hd).
    + rewrite Hv', Hv. reflexivity.
Qed.

Lemma typing_never_searches_witness :
  forallb is_typing [Keypress "R"; Typed "R"; Keypress "o"; Typed "Ro"] = true
  /\ exists l',
       loop_run sample_engine (mkLoop sample_page [])
         [Keypress "R"; Typed "R"; Keypress "o"; Typed "Ro"] = Some l'
       /\ pending l' = []
       /\ value (dom (page l') cityInput) = "Ro".
Proof.
  split; [reflexivity|].
  destruct (typing_never_searches sample_engine
              [Keypress "R"; Typed "R"; Keypress "o"; Typed "Ro"]
              (mkLoop sample_page []) eq_refl)
    as (l' & Hrun & Hp & _ & _ & Hv).
  exists l'. split; [exact Hrun|]. split; [exact Hp|exact Hv].
Defined.

(** ** What a search leaves alone *)

Lemma replay_locale_date (tr : list Event) :
  forall pg, locale_date (replay tr pg) = locale_date pg.
Proof.
  unfold replay. induction tr as [|ev tr IH]; intros pg; simpl; [reflexivity|].
  rewrite IH. destruct ev as [a| |]; try reflexivity.
  destruct a; reflexivity.
Qed.

Lemma apply_event_spares (el : ElemId) (ev : Event) (pg : Page) :
  spares el ev = true -> dom (apply_event ev pg) el = dom pg el.
Proof.
  destruct ev as [a| |]; try reflexivity.
  destruct a as [x t|x t|x t|x t|lbl e]; simpl; intros H; try reflexivity;
    apply negb_true_iff in H; now rewrite H.
Qed.

Lemma replay_spares (el : ElemId) (tr : list Event) :
  forall pg, forallb (spares el) tr = true -> dom (replay tr pg) el = dom pg el.
Proof.
  unfold replay. induction tr as [|ev tr IH]; intros pg H; simpl in *;
    [reflexivity|].
  apply andb_prop in H as [Hev Htr].
  rewrite (IH _ Htr). now apply apply_event_spares.
Qed.

Lemma observe_keeps_controls (tr : list Event) :
  forall s,
    observe keeps_controls tr s = true ->
    s = true /\ forallb (spares cityInput) tr = true
    /\ forallb (spares searchBtn) tr = true.
Proof.
  unfold observe. induction tr as [|ev tr IH]; intros s H; simpl in *.
  - now repeat split.
  - destruct (IH _ H) as (Hs & H1 & H2). unfold keeps_controls in Hs.
    apply andb_prop in Hs as [Hs Hb]. apply andb_prop in Hs as [Hs Ha].
    rewrite Ha, Hb, H1, H2. now repeat split.
Qed.

Lemma searching_controls (engine : Engine) (city : string) :
  always keeps_controls controls_kept controls_kept controls_thrown
    (searching engine city) true.
Proof.
  explore. all: reflexivity.
Qed.

(** X6: a search never writes to the input field nor to the button: on every
    path, suspended or completed, both elements are as they were when the
    search was submitted, so the text typed by the user is still in the
    field; the date shown by the platform is not altered either. *)
Theorem search_keeps_controls
    (engine : Engine) (pg : Page) (net : list (Settled Response)) :
  let r := run (handleSearch engine) net pg in
  dom (final r) cityInput = dom pg cityInput
  /\ dom (final r) searchBtn = dom pg searchBtn
  /\ locale_date (final r) = locale_date pg
  /\ forallb (spares cityInput) (trace r) = true
  /\ forallb (spares searchBtn) (trace r) = true.
Proof.
  intros r.
  assert (H : forallb (spares cityInput) (trace r) = true
              /\ forallb (spares searchBtn) (trace r) = true).
  { unfold r.
    destruct (String.eqb_spec (trim (value (dom pg cityInput))) "")
      as [Hblank|Hcity].
    - rewrite (run_blank _ _ _ Hblank). now split.
    - rewrite (run_searching _ _ _ Hcity).
      pose proof (always_run keeps_controls controls_kept controls_kept
                    controls_thrown _ true net pg
                    (searching_controls engine
                       (trim (value (dom pg cityInput))))) as Hacc.
      assert (Hobs : observe keeps_controls
                       (trace (run (searching engine
                                      (trim (value (dom pg cityInput))))
                                 net pg)) true = true).
      { destruct (outcome (run (searching engine
                                  (trim (value (dom pg cityInput)))) net pg));
          unfold accepted in Hacc; try exact Hacc. contradiction. }
      now destruct (observe_keeps_controls _ _ Hobs) as (_ & H1 & H2). }
  destruct H as [H1 H2]. unfold r in *. rewrite final_run.
  split; [now apply replay_spares|]. split; [now apply replay_spares|].
  split; [apply replay_locale_date|]. now split.
Qed.

(** ** The audit of a search *)

Lemma searching_audit (engine : Engine) (city : string) :
  always record audit_pending audit_done never_thrown
    (searching engine city) [].
Proof.
  explore.
  all: unfold audit_pending, audit_done, ends_with, count; simpl.
  all: try (repeat split; (reflexivity || lia)).
  all: split;
    [ first [ right; repeat split; reflexivity
            | left; split; [|reflexivity];
              match goal with
              | |- context [Console_error _ ?x] => exists x; reflexivity
              end ]
    | split; [lia|intros H; first [reflexivity|lia]] ].
Qed.

Lemma run_audit
    (engine : Engine) (pg : Page) (net : list (Settled Response)) :
  trim (value (dom pg cityInput)) <> "" ->
  accepted audit_pending audit_done never_thrown
    (outcome (run (handleSearch engine) net pg))
    (rev (trace (run (handleSearch engine) net pg))).
Proof.
  intros Hcity. rewrite (run_searching _ _ _ Hcity).
  pose proof (always_run record audit_pending audit_done never_thrown
                _ [] net pg
                (searching_audit engine (trim (value (dom pg cityInput)))))
    as H.
  now rewrite observe_record, app_nil_r in H.
Qed.

Lemma unwritten_spares (el : ElemId) (tr : list Event) :
  result_element el = true -> el <> weatherContainer ->
  count writes_result tr = 0%nat -> forallb (spares el) tr = true.
Proof.
  intros Hel Hne. unfold count.
  induction tr as [|ev tr IH]; simpl; [reflexivity|].
  destruct (writes_result ev) eqn:Hw; simpl; [discriminate|].
  intros H. rewrite (IH H), andb_true_r.
  destruct ev as [a| |]; try reflexivity.
  destruct a as [x t|x t|x t|x t|lbl e]; simpl in *; try reflexivity;
    destruct el; try discriminate Hel; try (now elim Hne);
    destruct x; try discriminate Hw; reflexivity.
Qed.

(** X7: the result panel is written only by a search that has read two
    bodies, the answer of the geocoder and the answer of the weather service.
    A search that reads fewer, because a call was rejected or refused, the
    city was not found or an answer could not be read, leaves every element
    of the result panel with the content it had and the panel hidden; no
    search reads more than two bodies. *)
Theorem result_written_after_two_bodies
    (engine : Engine) (pg : Page) (net : list (Settled Response)) :
  trim (value (dom pg cityInput)) <> "" ->
  let r := run (handleSearch engine) net pg in
  (count is_body_read (trace r) <= 2)%nat
  /\ ((count is_body_read (trace r) < 2)%nat ->
      count writes_result (trace r) = 0%nat
      /\ hidden (final r) weatherContainer = true
      /\ forall el,
           result_element el = true -> el <> weatherContainer ->
           dom (final r) el = dom pg el).
Proof.
  intros Hcity r.
  pose proof (run_audit engine pg net Hcity) as Ha.
  pose proof (run_panels engine pg net Hcity) as Hp.
  pose proof (run_history engine pg net Hcity) as Hh.
  fold r in Ha, Hp, Hh.
  assert (H : (count is_body_read (trace r) <= 2)%nat
              /\ ((count is_body_read (trace r) < 2)%nat ->
                  count writes_result (trace r) = 0%nat
                  /\ hidden (final r) weatherContainer = true)).
  { destruct (outcome r) as [[]|e|]; unfold accepted in Ha, Hp, Hh.
    - destruct Ha as (_ & Hle & Hw). rewrite !count_rev in *.
      split; [exact Hle|]. intros Hlt. split; [now apply Hw|].
      destruct Hh as (_ & _ & [[Hend _]|[[e Hend] _]]);
        apply ends_with_rev in Hend as [front Hfront].
      + exfalso. specialize (Hw Hlt). rewrite Hfront, count_app in Hw.
        unfold count in Hw at 2. simpl in Hw. lia.
      + destruct Hp as [Hp|Hp].
        * exfalso. unfold r in Hp, Hfront.
          rewrite final_run, Hfront, replay_app, panels_replay in Hp.
          destruct (panels_hidden (replay front pg)) as [[w e'] l].
          discriminate Hp.
        * unfold panels_hidden, error_only in Hp. congruence.
    - contradiction.
    - destruct Ha as (_ & Hw & Hle). rewrite !count_rev in *.
      split; [exact Hle|]. intros _. split; [exact Hw|].
      unfold panels_suspended, panels_hidden, loading_only in Hp. congruence. }
  destruct H as [Hle Hlt]. split; [exact Hle|].
  intros Hfew. destruct (Hlt Hfew) as [Hw Hhid].
  split; [exact Hw|]. split; [exact Hhid|].
  intros el Hel Hne. unfold r. rewrite final_run.
  apply replay_spares. now apply unwritten_spares.
Qed.

Lemma result_written_after_two_bodies_witness :
  trim (value (dom sample_page cityInput)) <> ""
  /\ (count is_body_read
        (trace (run (handleSearch sample_engine)
                  [answer sample_place; refusal] sample_page)) < 2)%nat
  /\ count writes_result
       (trace (run (handleSearch sample_engine)
                 [answer sample_place; refusal] sample_page)) = 0%nat.
Proof.
  assert (Hcity : trim (value (dom sample_page cityInput)) <> "")
    by (vm_compute; discriminate).
  assert (Hfew : (count is_body_read
                    (trace (run (handleSearch sample_engine)
                              [answer sample_place; refusal] sample_page))
                  < 2)%nat)
    by (vm_compute; lia).
  split; [exact Hcity|]. split; [exact Hfew|].
  exact (proj1 (proj2 (result_written_after_two_bodies sample_engine
                         sample_page [answer sample_place; refusal] Hcity)
                  Hfew)).
Defined.

(** X8: [console.error] is called by the [catch] block only: a search that
    ends in the Error state has logged exactly one exception, the one whose
    message the error panel shows; a search that ends in the Result state,
    and a search that is still suspended, have logged nothing. *)
Theorem error_logged_once
    (engine : Engine) (pg : Page) (net : list (Settled Response)) :
  trim (value (dom pg cityInput)) <> "" ->
  let r := run (handleSearch engine) net pg in
  (outcome r = Pending -> count is_console_error (trace r) = 0%nat)
  /\ (ui_state (final r) = Some Result ->
      count is_console_error (trace r) = 0%nat)
  /\ (ui_state (final r) = Some Error ->
      count is_console_error (trace r) = 1%nat
      /\ exists e,
           In (Did (Console_error "Error fetching weather:" e)) (trace r)
           /\ text_of (final r) errorTextEl = message e).
Proof.
  intros Hcity r.
  pose proof (run_audit engine pg net Hcity) as Ha.
  pose proof (run_panels engine pg net Hcity) as Hp.
  fold r in Ha, Hp.
  destruct (outcome r) as [[]|e|] eqn:Hout; unfold accepted in Ha, Hp.
  - destruct Ha as ([[[e Hend] Hone]|(Hend & Hzero & _)] & _);
      apply ends_with_rev in Hend as [front Hfront];
      rewrite count_rev in *.
    + assert (Hstate : ui_state (final r) = Some Error).
      { unfold ui_state. destruct Hp as [Hp|Hp]; rewrite Hp; [|reflexivity].
        exfalso. unfold r in Hp, Hfront.
        rewrite final_run, Hfront, replay_app, panels_replay in Hp.
        destruct (panels_hidden (replay front pg)) as [[w e'] l].
        discriminate Hp. }
      split; [intros H; discriminate H|].
      split; [intros H; congruence|].
      intros _. split; [exact Hone|]. exists e. split.
      * rewrite Hfront. apply in_or_app. right. simpl. tauto.
      * unfold r in *. rewrite final_run, Hfront, replay_app. reflexivity.
    + assert (Hstate : ui_state (final r) = Some Result).
      { unfold ui_state. destruct Hp as [Hp|Hp]; rewrite Hp; [reflexivity|].
        exfalso. unfold r in Hp, Hfront.
        rewrite final_run, Hfront, replay_app, panels_replay in Hp.
        destruct (panels_hidden (replay front pg)) as [[w e'] l].
        discriminate Hp. }
      split; [intros H; discriminate H|].
      split; [intros _; exact Hzero|]. intros H. congruence.
  - contradiction.
  - destruct Ha as (Hzero & _). rewrite count_rev in Hzero.
    unfold panels_suspended in Hp.
    split; [intros _; exact Hzero|].
    unfold ui_state. rewrite Hp. split; intros H; discriminate H.
Qed.

Lemma error_logged_once_witness :
  trim (value (dom sample_page cityInput)) <> ""
  /\ ui_state (final (run (handleSearch sample_engine)
                        [answer sample_place; answer sample_weather]
                        sample_page)) = Some Result
  /\ count is_console_error
       (trace (run (handleSearch sample_engine)
                 [answer sample_place; answer sample_weather] sample_page))
     = 0%nat.
Proof.
  assert (Hcity : trim (value (dom sample_page cityInput)) <> "")
    by (vm_compute; discriminate).
  assert (Hstate : ui_state (final (run (handleSearch sample_engine)
                                      [answer sample_place; answer sample_weather]
                                      sample_page)) = Some Result)
    by (vm_compute; reflexivity).
  split; [exact Hcity|]. split; [exact Hstate|].
  exact (proj1 (proj2 (error_logged_once sample_engine sample_page
                         [answer sample_place; answer sample_weather] Hcity))
           Hstate).
Defined.

(** ** The two calls *)

(** X9: [fetchGeocoding] and [fetchWeather] send at most one request and
    never touch the page.  A rejected [fetch] is passed on as it is; a
    response whose [ok] flag is false raises the error of the service without
    its body being read; otherwise the body is read once and the call returns
    the parsed value, or raises the error of [response.json()].
    [fetchWeather] sends its request once both coordinates are converted to
    text; a coordinate that cannot be converted raises the [TypeError] of the
    engine and no request is sent. *)
Theorem fetch_helpers
    (engine : Engine) (city : string) (latitude longitude : JsVal)
    (net : list (Settled Response)) (pg : Page) :
  let g := run (fetchGeocoding city) net pg in
  let w := run (fetchWeather engine latitude longitude) net pg in
  (final g = pg /\ final w = pg)
  /\ (net = [] -> g = mkRun pg [Requested (geocoding_url city)] Pending)
  /\ (forall e rest, net = Rejected e :: rest ->
      g = mkRun pg [Requested (geocoding_url city)] (Uncaught e))
  /\ (forall resp rest, net = Fulfilled resp :: rest -> ok resp = false ->
      g = mkRun pg [Requested (geocoding_url city)]
            (Uncaught (mkError "Geocoding service unavailable")))
  /\ (forall resp rest, net = Fulfilled resp :: rest -> ok resp = true ->
      trace g = [Requested (geocoding_url city); BodyRead]
      /\ (forall v, body resp = Fulfilled v -> outcome g = Returned v)
      /\ (forall e, body resp = Rejected e -> outcome g = Uncaught e))
  /\ (forall url,
        weather_url engine latitude longitude = Normal url ->
        (net = [] -> w = mkRun pg [Requested url] Pending)
        /\ (forall e rest, net = Rejected e :: rest ->
            w = mkRun pg [Requested url] (Uncaught e))
        /\ (forall resp rest,
              net = Fulfilled resp :: rest -> ok resp = false ->
              w = mkRun pg [Requested url]
                    (Uncaught (mkError "Weather service unavailable")))
        /\ (forall resp rest,
              net = Fulfilled resp :: rest -> ok resp = true ->
              trace w = [Requested url; BodyRead]
              /\ (forall v, body resp = Fulfilled v -> outcome w = Returned v)
              /\ (forall e, body resp = Rejected e -> outcome w = Uncaught e)))
  /\ (forall e,
        weather_url engine latitude longitude = Thrown e ->
        w = mkRun pg [] (Uncaught e)
        /\ e = mkError (TypeError_message engine
                          (if converts engine latitude
                           then NotPrimitive "lon" longitude
                           else NotPrimitive "lat" latitude)))
  /\ (converts engine latitude && converts engine longitude = true <->
      exists url, weather_url engine latitude longitude = Normal url).
Proof.
  intros g w.
  split; [|split; [|split; [|split; [|split; [|split; [|split]]]]]].
  - unfold g, w, fetchGeocoding, fetchWeather, fetch, json, throw_Error.
    split.
    + destruct net as [|[resp|e] rest]; simpl; try reflexivity.
      destruct (ok resp); simpl; [|reflexivity].
      destruct (body resp); reflexivity.
    + destruct (weather_url engine latitude longitude) as [url|e];
        [|reflexivity].
      destruct net as [|[resp|e] rest]; simpl; try reflexivity.
      destruct (ok resp); simpl; [|reflexivity].
      destruct (body resp); reflexivity.
  - intros ->. reflexivity.
  - intros e rest ->. reflexivity.
  - intros resp rest -> Hok. unfold g, fetchGeocoding, fetch, throw_Error.
    simpl. now rewrite Hok.
  - intros resp rest -> Hok. unfold g, fetchGeocoding, fetch, json.
    simpl. rewrite Hok. simpl.
    destruct (body resp) as [v|e]; simpl;
      (split; [reflexivity|]); split; intros x H; congruence.
  - intros url Hurl. unfold w, fetchWeather, fetch, json, throw_Error.
    rewrite Hurl. split; [|split; [|split]].
    + intros ->. reflexivity.
    + intros e rest ->. reflexivity.
    + intros resp rest -> Hok. simpl. now rewrite Hok.
    + intros resp rest -> Hok. simpl. rewrite Hok. simpl.
      destruct (body resp) as [v|e]; simpl;
        (split; [reflexivity|]); split; intros x H; congruence.
  - intros e Hurl. split.
    + unfold w, fetchWeather. now rewrite Hurl.
    + pose proof (weather_url_converts engine latitude longitude) as H.
      rewrite Hurl in H. apply H.
  - pose proof (weather_url_converts engine latitude longitude) as H.
    destruct (weather_url engine latitude longitude) as [url|e]; split.
    + intros _. now exists url.
    + intros _. exact H.
    + intros Hc. destruct H as [H _]. congruence.
    + intros [url Hurl]. discriminate Hurl.
Qed.

Lemma fetch_helpers_witness :
  ok {| ok := false; body := Fulfilled sample_place |} = false
  /\ weather_url sample_engine (int 48) (VObject [("toString", VNull)])
     = Thrown (mkError "Cannot convert object to primitive value")
  /\ run (fetchGeocoding "Paris")
       [Fulfilled {| ok := false; body := Fulfilled sample_place |}] sample_page
     = mkRun sample_page [Requested (geocoding_url "Paris")]
         (Uncaught (mkError "Geocoding service unavailable"))
  /\ run (fetchWeather sample_engine (int 48) (VObject [("toString", VNull)]))
       [answer sample_weather] sample_page
     = mkRun sample_page []
         (Uncaught (mkError "Cannot convert object to primitive value")).
Proof.
  assert (Hurl : weather_url sample_engine (int 48)
                   (VObject [("toString", VNull)])
                 = Thrown (mkError "Cannot convert object to primitive value"))
    by reflexivity.
  split; [reflexivity|]. split; [exact Hurl|]. split.
  - exact (proj1 (proj2 (proj2 (proj2
             (fetch_helpers sample_engine "Paris" VNull VNull
                [Fulfilled {| ok := false; body := Fulfilled sample_place |}]
                sample_page)))) _ _ eq_refl eq_refl).
  - exact (proj1 (proj1 (proj2 (proj2 (proj2 (proj2 (proj2 (proj2
             (fetch_helpers sample_engine "Paris" (int 48)
                (VObject [("toString", VNull)])
                [answer sample_weather] sample_page)))))))
             _ Hurl)).
Defined.

(** ** The renderer on any answer *)

Section Rendered.

Variable engine : Engine.
Variable pg : Page.
Variables resp resp' : Response.
Variables geoData name latitude longitude country data : JsVal.
Variable url : string.
Variable rest : list (Settled Response).

Hypothesis city_given : trim (value (dom pg cityInput)) <> "".
Hypothesis geocoder_ok : ok resp = true.
Hypothesis geocoder_body : body resp = Fulfilled geoData.
Hypothesis geocoder_hit :
  located geoData = Some (name, latitude, longitude, country).
Hypothesis coordinates : weather_url engine latitude longitude = Normal url.
Hypothesis weather_ok : ok resp' = true.
Hypothesis weather_body : body resp' = Fulfilled data.

(** X10: once the weather answer has a [current] block that is an object (or
    any value other than [null]) and every value the renderer converts can
    be converted, the search ends in the Result state and each field shows
    what the conversions of the script make of the property, [undefined] when
    it is missing.  A missing temperature is displayed as "NaN", a missing
    humidity as "undefined%", a missing wind speed as "undefined km/h", a
    missing weather code as "Unknown"; the heading is the name and the
    country of the geocoder's first result, not the text typed, and a result
    without a country is headed "<name>, undefined". *)
Theorem any_current_block_renders (current : JsVal) :
  get_prop data "current" = Some current -> nullish current = false ->
  forallb (converts engine) (name :: country :: shown_fields current) = true ->
  let r := run (handleSearch engine)
             (Fulfilled resp :: Fulfilled resp' :: rest) pg in
  exists t,
    texts_of engine name country current t
    /\ outcome r = Returned tt
    /\ ui_state (final r) = Some Result
    /\ text_of (final r) cityNameEl = title t
    /\ text_of (final r) dateEl = locale_date pg
    /\ text_of (final r) tempEl = temperature t
    /\ text_of (final r) humidityEl = humidity t ++ "%"
    /\ text_of (final r) windSpeedEl = wind t ++ " km/h"
    /\ text_of (final r) feelsLikeEl = feels_like t ++ degree_suffix
    /\ text_of (final r) weatherDescEl = description (info t)
    /\ (field current "temperature_2m" = VUndefined ->
        text_of (final r) tempEl = "NaN")
    /\ (field current "relative_humidity_2m" = VUndefined ->
        text_of (final r) humidityEl = "undefined%")
    /\ (field current "wind_speed_10m" = VUndefined ->
        text_of (final r) windSpeedEl = "undefined km/h")
    /\ (field current "weather_code" = VUndefined ->
        text_of (final r) weatherDescEl = "Unknown")
    /\ (country = VUndefined ->
        exists n, ToString engine name = Some n
                  /\ text_of (final r) cityNameEl = n ++ ", undefined").
Proof.
  intros Hcurrent Hobj Hconv r.
  destruct (texts_exist _ _ _ _ Hconv) as [t Ht].
  exists t. split; [exact Ht|].
  unfold r.
  rewrite (run_rendered engine pg resp resp' geoData name latitude longitude
             country data url rest city_given geocoder_ok geocoder_body
             geocoder_hit coordinates weather_ok weather_body
             _ _ Hcurrent Hobj Ht).
  destruct Ht as (H0 & H1 & H2 & H3 & H4 & H5).
  split; [reflexivity|].
  split; [apply completed_result_state, quiet_panels;
          [reflexivity|apply prologue_panels]|].
  repeat (split; [reflexivity|]).
  change (text_of _ tempEl) with (temperature t).
  change (text_of _ humidityEl) with (humidity t ++ "%").
  change (text_of _ windSpeedEl) with (wind t ++ " km/h").
  change (text_of _ weatherDescEl) with (description (info t)).
  change (text_of _ cityNameEl) with (title t).
  split; [|split; [|split; [|split]]].
  - intros H. rewrite H in H1.
    assert (E : rounded engine "current.temperature_2m" VUndefined
                = Normal "NaN") by reflexivity.
    congruence.
  - intros H. rewrite H in H2.
    assert (E : to_string engine "current.relative_humidity_2m" VUndefined
                = Normal "undefined") by reflexivity.
    assert (E' : humidity t = "undefined") by congruence.
    now rewrite E'.
  - intros H. rewrite H in H3.
    assert (E : to_string engine "current.wind_speed_10m" VUndefined
                = Normal "undefined") by reflexivity.
    assert (E' : wind t = "undefined") by congruence.
    now rewrite E'.
  - intros H. rewrite H in H5.
    assert (E : getWeatherInfo engine VUndefined = Normal unknown_entry)
      by reflexivity.
    assert (E' : info t = unknown_entry) by congruence.
    now rewrite E'.
  - intros H. pose proof (heading_converts engine name country) as Hh.
    rewrite H0 in Hh. destruct Hh as [(c & k & Hc & Hk & Ht) _].
    rewrite H in Hk. exists c. split; [exact Hc|].
    assert (E : ToString engine VUndefined = Some "undefined") by reflexivity.
    assert (E' : k = "undefined") by congruence.
    now rewrite Ht, E'.
Qed.

(** X11: a weather answer without a [current] block (absent, or [null])
    ends the search in the Error state with the [TypeError] the engine raises
    for the read of [temperature_2m] on that value; by then the renderer has
    already written the heading and the date of the hidden result panel, and
    nothing else: temperature, humidity, wind, apparent temperature,
    description and icon keep the content they had.  When the name or the
    country cannot be converted the heading is not written either and the
    [TypeError] is that of the conversion.  When the answer itself is [null]
    nothing of the result panel is written. *)
Theorem missing_current_block :
  let r := run (handleSearch engine)
             (Fulfilled resp :: Fulfilled resp' :: rest) pg in
  (forall current text,
      get_prop data "current" = Some current -> nullish current = true ->
      heading engine name country = Normal text ->
      ui_state (final r) = Some Error
      /\ text_of (final r) errorTextEl
         = TypeError_message engine
             (ReadOfNullish "current" current "temperature_2m")
      /\ text_of (final r) cityNameEl = text
      /\ text_of (final r) dateEl = locale_date pg
      /\ (forall el,
            In el [tempEl; humidityEl; windSpeedEl; feelsLikeEl;
                   weatherDescEl; weatherIconEl] ->
            dom (final r) el = dom pg el))
  /\ (forall current e,
        get_prop data "current" = Some current ->
        heading engine name country = Thrown e ->
        ui_state (final r) = Some Error
        /\ text_of (final r) errorTextEl = message e
        /\ count writes_result (trace r) = 0%nat)
  /\ (nullish data = true ->
      ui_state (final r) = Some Error
      /\ text_of (final r) errorTextEl
         = TypeError_message engine (ReadOfNullish "data" data "current")
      /\ count writes_result (trace r) = 0%nat
      /\ (forall el,
            In el [cityNameEl; dateEl; tempEl; humidityEl; windSpeedEl;
                   feelsLikeEl; weatherDescEl; weatherIconEl] ->
            dom (final r) el = dom pg el)).
Proof.
  intros r. split; [|split].
  - intros current text Hcurrent Hnull Hh. unfold r.
    rewrite (run_not_rendered engine pg resp resp' geoData name latitude
               longitude country data url rest city_given geocoder_ok
               geocoder_body geocoder_hit coordinates weather_ok weather_body
               _ _ Hcurrent Hnull Hh).
    split.
    { unfold ui_state, completed. cbn [final]. rewrite panels_replay.
      destruct (panels_hidden pg) as [[w e] l]. reflexivity. }
    repeat (split; [reflexivity|]).
    intros el Hin. simpl in Hin.
    repeat match type of Hin with
           | _ \/ _ => destruct Hin as [Hin|Hin]
           end; try contradiction; subst el; reflexivity.
  - intros current e Hcurrent Hh. unfold r.
    rewrite (run_no_heading engine pg resp resp' geoData name latitude
               longitude country data url rest city_given geocoder_ok
               geocoder_body geocoder_hit coordinates weather_ok weather_body
               _ _ Hcurrent Hh).
    split.
    { unfold ui_state, caught, completed. cbn [final]. rewrite panels_replay.
      destruct (panels_hidden pg) as [[w e'] l]. reflexivity. }
    split; reflexivity.
  - intros Hnull. unfold r.
    rewrite (run_no_data engine pg resp resp' geoData name latitude
               longitude country data url rest city_given geocoder_ok
               geocoder_body geocoder_hit coordinates weather_ok weather_body
               Hnull).
    split.
    { unfold ui_state, caught, completed. cbn [final]. rewrite panels_replay.
      destruct (panels_hidden pg) as [[w e] l]. reflexivity. }
    repeat (split; [reflexivity|]).
    intros el Hin. simpl in Hin.
    repeat match type of Hin with
           | _ \/ _ => destruct Hin as [Hin|Hin]
           end; try contradiction; subst el; reflexivity.
Qed.

(** X12: rendering replaces the class attribute of the icon element: after
    a search whose values all convert its class list is exactly [fa-solid]
    followed by the icon of the weather code, whatever classes it carried
    before, so the icons of earlier searches do not accumulate. *)
Theorem icon_class_replaced (current : JsVal) :
  get_prop data "current" = Some current -> nullish current = false ->
  forallb (converts engine) (name :: country :: shown_fields current) = true ->
  let r := run (handleSearch engine)
             (Fulfilled resp :: Fulfilled resp' :: rest) pg in
  exists e,
    getWeatherInfo engine (field current "weather_code") = Normal e
    /\ classList (dom (final r) weatherIconEl) = ["fa-solid"; icon e]
    /\ In (icon e)
         ["fa-cloud"; "fa-sun"; "fa-cloud-sun"; "fa-smog"; "fa-cloud-rain";
          "fa-cloud-showers-heavy"; "fa-snowflake"; "fa-cloud-showers-water";
          "fa-cloud-bolt"].
Proof.
  intros Hcurrent Hobj Hconv r.
  destruct (texts_exist _ _ _ _ Hconv) as [t Ht].
  unfold r.
  rewrite (run_rendered engine pg resp resp' geoData name latitude longitude
             country data url rest city_given geocoder_ok geocoder_body
             geocoder_hit coordinates weather_ok weather_body
             _ _ Hcurrent Hobj Ht).
  destruct Ht as (_ & _ & _ & _ & _ & H5).
  exists (info t). split; [exact H5|].
  pose proof (getWeatherInfo_converts engine (field current "weather_code"))
    as Hin.
  rewrite H5 in Hin. destruct Hin as [Hin _].
  destruct (entry_tokens _ Hin) as [Htokens Hicon].
  split; [|exact Hicon].
  unfold completed. simpl final. rewrite <- Htokens. reflexivity.
Qed.

End Rendered.

Lemma any_current_block_renders_witness :
  trim (value (dom sample_page cityInput)) <> ""
  /\ get_prop bare_weather "current" = Some (VObject [])
  /\ nullish (VObject []) = false
  /\ forallb (converts sample_engine)
       (VString "Paris" :: VString "France" :: shown_fields (VObject []))
     = true
  /\ field (VObject []) "temperature_2m" = VUndefined
  /\ exists t,
       ui_state (final (run (handleSearch sample_engine)
                          [answer sample_place; answer bare_weather]
                          sample_page)) = Some Result
       /\ text_of (final (run (handleSearch sample_engine)
                            [answer sample_place; answer bare_weather]
                            sample_page)) tempEl = temperature t
       /\ text_of (final (run (handleSearch sample_engine)
                            [answer sample_place; answer bare_weather]
                            sample_page)) tempEl = "NaN".
Proof.
  assert (Hcity : trim (value (dom sample_page cityInput)) <> "")
    by (vm_compute; discriminate).
  assert (Hconv : forallb (converts sample_engine)
                    (VString "Paris" :: VString "France"
                       :: shown_fields (VObject [])) = true)
    by reflexivity.
  destruct (any_current_block_renders sample_engine sample_page
              {| ok := true; body := Fulfilled sample_place |}
              {| ok := true; body := Fulfilled bare_weather |}
              sample_place _ _ _ _ bare_weather _ []
              Hcity eq_refl eq_refl eq_refl eq_refl eq_refl eq_refl
              (VObject []) eq_refl eq_refl Hconv)
    as (t & _ & _ & Hstate & _ & _ & Htemp & _ & _ & _ & _ & Hnan & _).
  split; [exact Hcity|]. split; [reflexivity|]. split; [reflexivity|].
  split; [exact Hconv|]. split; [reflexivity|].
  exists t. split; [exact Hstate|]. split; [exact Htemp|exact (Hnan eq_refl)].
Defined.

Lemma missing_current_block_witness :
  trim (value (dom sample_page cityInput)) <> ""
  /\ get_prop no_weather "current" = Some VUndefined
  /\ nullish VUndefined = true
  /\ heading sample_engine (VString "Paris") (VString "France")
     = Normal "Paris, France"
  /\ ui_state (final (run (handleSearch sample_engine)
                        [answer sample_place; answer no_weather]
                        sample_page)) = Some Error
  /\ text_of (final (run (handleSearch sample_engine)
                       [answer sample_place; answer no_weather]
                       sample_page)) cityNameEl = "Paris, France".
Proof.
  assert (Hcity : trim (value (dom sample_page cityInput)) <> "")
    by (vm_compute; discriminate).
  assert (Hh : heading sample_engine (VString "Paris") (VString "France")
               = Normal "Paris, France") by reflexivity.
  pose proof (proj1 (missing_current_block sample_engine sample_page
                       {| ok := true; body := Fulfilled sample_place |}
                       {| ok := true; body := Fulfilled no_weather |}
                       sample_place _ _ _ _ no_weather _ []
                       Hcity eq_refl eq_refl eq_refl eq_refl eq_refl eq_refl)
                VUndefined _ eq_refl eq_refl Hh)
    as (Hstate & _ & Hname & _).
  split; [exact Hcity|]. split; [reflexivity|]. split; [reflexivity|].
  split; [exact Hh|]. split; [exact Hstate|exact Hname].
Defined.

Lemma icon_class_replaced_witness :
  trim (value (dom sample_page cityInput)) <> ""
  /\ nullish (field sample_weather "current") = false
  /\ forallb (converts sample_engine)
       (VString "Paris" :: VString "France"
          :: shown_fields (field sample_weather "current")) = true
  /\ exists e,
       getWeatherInfo sample_engine (int 3) = Normal e
       /\ classList
            (dom (final (run (handleSearch sample_engine)
                           [answer sample_place; answer sample_weather]
                           sample_page)) weatherIconEl)
          = ["fa-solid"; icon e].
Proof.
  assert (Hcity : trim (value (dom sample_page cityInput)) <> "")
    by (vm_compute; discriminate).
  assert (Hconv : forallb (converts sample_engine)
                    (VString "Paris" :: VString "France"
                       :: shown_fields (field sample_weather "current"))
                  = true) by reflexivity.
  destruct (icon_class_replaced sample_engine sample_page
              {| ok := true; body := Fulfilled sample_place |}
              {| ok := true; body := Fulfilled sample_weather |}
              sample_place _ _ _ _ sample_weather _ []
              Hcity eq_refl eq_refl eq_refl eq_refl eq_refl eq_refl
              (field sample_weather "current") eq_refl eq_refl Hconv)
    as (e & He & Hclass & _).
  split; [exact Hcity|]. split; [reflexivity|]. split; [exact Hconv|].
  exists e. split; [exact He|exact Hclass].
Defined.

(** ** The city of a suspended search *)

(** X13: a search keeps the city it was submitted with: when the field is
    edited while the search is suspended, the message of a geocoding answer
    without result still names the text that was submitted, trimmed, and the
    field keeps the text typed since. *)
Theorem submitted_city_is_kept
    (engine : Engine) (pg : Page) (text : string) (resp : Response)
    (geoData : JsVal) :
  trim (value (dom pg cityInput)) <> "" ->
  ok resp = true ->
  body resp = Fulfilled geoData ->
  no_result_list geoData = true ->
  exists l',
    loop_run engine (mkLoop pg [])
      [Click; Typed text; FetchSettled 0 (Fulfilled resp); BodySettled 0]
    = Some l'
    /\ pending l' = []
    /\ ui_state (page l') = Some Error
    /\ text_of (page l') errorTextEl
       = not_found_message (trim (value (dom pg cityInput)))
    /\ value (dom (page l') cityInput) = text.
Proof.
  intros Hcity Hok Hbody Hnone.
  unfold loop_run, loop_step, on_click, start, resume. cbn [page pending].
  rewrite (advance_searching _ _ Hcity).
  set (city := trim (value (dom pg cityInput))).
  unfold_script. simpl. rewrite Hok. simpl. rewrite Hbody. simpl.
  unfold no_result_list in Hnone.
  destruct (get_prop geoData "results") as [results|] eqn:Hresults;
    [|discriminate Hnone].
  simpl.
  assert (Hpanels : forall pg0 e,
             ui_state (replay (error_epilogue e)
                         (update (replay prologue pg0) cityInput
                            (set_value text))) = Some Error).
  { intros pg0 e. unfold ui_state. rewrite panels_replay.
    assert (H : panels_hidden (update (replay prologue pg0) cityInput
                                 (set_value text)) = loading_only)
      by (rewrite <- (prologue_panels pg0); reflexivity).
    rewrite H. reflexivity. }
  destruct (truthy results) eqn:Htruthy; simpl in Hnone; simpl.
  - destruct (get_prop results "length") as [len|] eqn:Hlen;
      [|discriminate Hnone].
    simpl. rewrite Hnone. simpl.
    eexists. split; [reflexivity|]. cbn [page pending].
    split; [reflexivity|].
    split; [exact (Hpanels pg (mkError (not_found_message city)))|].
    split; reflexivity.
  - eexists. split; [reflexivity|]. cbn [page pending].
    split; [reflexivity|].
    split; [exact (Hpanels pg (mkError (not_found_message city)))|].
    split; reflexivity.
Qed.

Lemma submitted_city_is_kept_witness :
  trim (value (dom sample_page cityInput)) <> ""
  /\ no_result_list (VObject []) = true
  /\ exists l',
       loop_run sample_engine (mkLoop sample_page [])
         [Click; Typed "Rome"; FetchSettled 0 (answer (VObject []));
          BodySettled 0] = Some l'
       /\ text_of (page l') errorTextEl
          = "City " ++ dquote ++ "Paris" ++ dquote ++ " not found"
       /\ value (dom (page l') cityInput) = "Rome".
Proof.
  assert (Hcity : trim (value (dom sample_page cityInput)) <> "")
    by (vm_compute; discriminate).
  split; [exact Hcity|]. split; [reflexivity|].
  destruct (submitted_city_is_kept sample_engine sample_page "Rome"
              {| ok := true; body := Fulfilled (VObject []) |} (VObject [])
              Hcity eq_refl eq_refl eq_refl)
    as (l' & Hrun & _ & _ & Htext & Hvalue).
  exists l'. split; [exact Hrun|]. split; [exact Htext|exact Hvalue].
Defined.

(** ** The outcome of a search *)

Lemma caught_state (front : list Event) (e : JsError) (pg : Page) :
  panels_hidden (replay front pg) = loading_only ->
  ui_state (final (caught front e pg)) = Some Error.
Proof.
  intros H. now apply ui_state_error, caught_panels.
Qed.

(** The renderer shows the result panel as its last step: when it throws,
    the panels are as it found them. *)
Lemma updateUI_panels
    (engine : Engine) (city country data : JsVal) (s : Panels) :
  always panel_step (fun _ => True) (fun _ => True) (fun _ s' => s' = s)
    (updateUI engine city country data) s.
Proof.
  destruct s as [[w e] l]. explore. all: reflexivity || exact I.
Qed.

Lemma updateUI_thrown_panels
    (engine : Engine) (city country data : JsVal)
    (net : list (Settled Response)) (pg : Page) (e : JsError) :
  outcome (run (updateUI engine city country data) net pg) = Uncaught e ->
  panels_hidden (final (run (updateUI engine city country data) net pg))
  = panels_hidden pg.
Proof.
  intros He.
  pose proof (always_run panel_step _ _ _ _ _ net pg
                (updateUI_panels engine city country data (panels_hidden pg)))
    as H.
  rewrite He in H. rewrite final_run, panels_replay. exact H.
Qed.

(** A weather answer that cannot be rendered ends the search in the Error
    state. *)
Lemma run_not_renderable
    (engine : Engine) (pg : Page) (resp resp' : Response)
    (geoData name latitude longitude country data : JsVal) (url : string)
    (rest : list (Settled Response)) :
  trim (value (dom pg cityInput)) <> "" ->
  ok resp = true -> body resp = Fulfilled geoData ->
  located geoData = Some (name, latitude, longitude, country) ->
  weather_url engine latitude longitude = Normal url ->
  ok resp' = true -> body resp' = Fulfilled data ->
  nullish (field data "current") = true
  \/ forallb (converts engine)
       (name :: country :: shown_fields (field data "current")) = false ->
  let r := run (handleSearch engine)
             (Fulfilled resp :: Fulfilled resp' :: rest) pg in
  exists e,
    outcome (run (updateUI engine name country data) rest (replay prologue pg))
    = Uncaught e
    /\ ui_state (final r) = Some Error
    /\ text_of (final r) errorTextEl = message e.
Proof.
  intros Hcity Hok Hbody Hloc Hurl Hok' Hbody' Hbad r.
  destruct (updateUI_failed engine name country data rest
              (replay prologue pg) Hbad) as [e He].
  exists e. split; [exact He|].
  unfold r.
  rewrite (run_answered engine pg resp resp' geoData name latitude longitude
             country data url rest Hcity Hok Hbody Hloc Hurl Hok' Hbody').
  rewrite (run_guarded_thrown _ _ _ _ He).
  unfold preceded. cbn [final]. split; [|reflexivity].
  unfold ui_state.
  rewrite panels_replay, (updateUI_thrown_panels _ _ _ _ _ _ _ He),
    prologue_panels.
  reflexivity.
Qed.

Lemma located_weather_state
    (engine : Engine) (pg : Page) (resp : Response)
    (geoData name latitude longitude country : JsVal) (url : string)
    (rest : list (Settled Response)) :
  trim (value (dom pg cityInput)) <> "" ->
  ok resp = true -> body resp = Fulfilled geoData ->
  located geoData = Some (name, latitude, longitude, country) ->
  weather_url engine latitude longitude = Normal url ->
  ui_state (final (run (handleSearch engine) (Fulfilled resp :: rest) pg))
  = Some (weather_verdict engine name country rest).
Proof.
  intros Hcity Hok Hbody Hloc Hurl.
  destruct rest as [|[resp'|e] rest].
  - rewrite (run_searching _ _ _ Hcity),
      (run_geocoding_answered _ _ _ _ _ _ Hok Hbody), Hloc.
    rewrite (run_weather_unanswered _ _ _ _ _ _ _ Hurl).
    unfold preceded. cbn [final].
    unfold ui_state. now rewrite prologue_panels.
  - cbn [weather_verdict]. destruct (ok resp') eqn:Hok'.
    + destruct (body resp') as [data|e] eqn:Hbody'.
      * destruct (nullish (field data "current")) eqn:Hnull.
        { destruct (run_not_renderable engine pg resp resp' geoData name
                      latitude longitude country data url rest
                      Hcity Hok Hbody Hloc Hurl Hok' Hbody' (or_introl Hnull))
            as (e & _ & Hstate & _).
          exact Hstate. }
        destruct (forallb (converts engine)
                    (name :: country :: shown_fields (field data "current")))
          eqn:Hconv.
        2: { destruct (run_not_renderable engine pg resp resp' geoData name
                         latitude longitude country data url rest
                         Hcity Hok Hbody Hloc Hurl Hok' Hbody'
                         (or_intror Hconv))
               as (e & _ & Hstate & _).
             exact Hstate. }
        destruct (texts_exist _ _ _ _ Hconv) as [t Ht].
        assert (Hcur : get_prop data "current" = Some (field data "current")).
        { unfold field. destruct (get_prop data "current") as [c|] eqn:E;
            [reflexivity|].
          unfold field in Hnull. rewrite E in Hnull. discriminate Hnull. }
        rewrite (run_rendered engine pg resp resp' geoData name
                   latitude longitude country data url rest
                   Hcity Hok Hbody Hloc Hurl Hok' Hbody' _ t Hcur Hnull Ht).
        apply completed_result_state.
        apply quiet_panels; [reflexivity|apply prologue_panels].
      * rewrite (run_searching _ _ _ Hcity),
          (run_geocoding_answered _ _ _ _ _ _ Hok Hbody), Hloc.
        rewrite (run_weather_unreadable _ _ _ _ _ _ _ Hurl _ _ _ Hok' Hbody').
        unfold preceded. cbn [final]. apply caught_state, prologue_panels.
    + rewrite (run_searching _ _ _ Hcity),
        (run_geocoding_answered _ _ _ _ _ _ Hok Hbody), Hloc.
      rewrite (run_weather_refused _ _ _ _ _ _ _ Hurl _ _ Hok').
      unfold preceded. cbn [final]. apply caught_state, prologue_panels.
  - rewrite (run_searching _ _ _ Hcity),
      (run_geocoding_answered _ _ _ _ _ _ Hok Hbody), Hloc.
    rewrite (run_weather_rejected _ _ _ _ _ _ _ Hurl).
    unfold preceded. cbn [final]. apply caught_state, prologue_panels.
Qed.

(** X14: the state in which a search leaves the page is decided by the
    answers of the network alone, not by what the page showed before.  The
    page stays in the Loading state for as long as a call that was sent is
    unanswered (the script sets no timeout); it shows the result exactly when
    both calls are fulfilled with a success status and a readable body, the
    geocoding answer has a first result that can be destructured, the weather
    answer a [current] block other than [null], and every value the script
    converts (the coordinates, the name, the country and the five fields of
    the block) can be converted; every other answer leads to the Error
    state, coordinates that cannot be converted before the weather call is
    sent. *)
Theorem search_verdict
    (engine : Engine) (pg : Page) (net : list (Settled Response)) :
  trim (value (dom pg cityInput)) <> "" ->
  ui_state (final (run (handleSearch engine) net pg))
  = Some (verdict engine net).
Proof.
  intros Hcity. destruct net as [|[resp|e] rest].
  - rewrite (run_searching _ _ _ Hcity), run_unanswered. cbn [final].
    unfold ui_state. now rewrite prologue_panels.
  - cbn [verdict]. destruct (ok resp) eqn:Hok.
    + destruct (body resp) as [geoData|e] eqn:Hbody.
      * destruct (located geoData) as [[[[name latitude] longitude] country]|]
          eqn:Hloc.
        -- pose proof (weather_url_converts engine latitude longitude) as Hc.
           destruct (weather_url engine latitude longitude) as [url|e]
             eqn:Hurl.
           ++ rewrite Hc.
              now apply (located_weather_state engine pg resp geoData
                           name latitude longitude country url).
           ++ destruct Hc as [-> _].
              rewrite (run_searching _ _ _ Hcity),
                (run_geocoding_answered _ _ _ _ _ _ Hok Hbody), Hloc.
              rewrite (run_weather_unsent _ _ _ _ _ _ _ _ Hurl).
              unfold preceded. cbn [final].
              apply caught_state, prologue_panels.
        -- rewrite (run_searching _ _ _ Hcity),
             (run_geocoding_answered _ _ _ _ _ _ Hok Hbody), Hloc.
           apply caught_state, quiet_panels;
             [reflexivity|apply prologue_panels].
      * rewrite (run_searching _ _ _ Hcity),
          (run_geocoding_unreadable _ _ _ _ _ _ Hok Hbody).
        apply caught_state, quiet_panels; [reflexivity|apply prologue_panels].
    + rewrite (run_searching _ _ _ Hcity),
        (run_geocoding_refused _ _ _ _ _ Hok).
      apply caught_state, quiet_panels; [reflexivity|apply prologue_panels].
  - rewrite (run_searching _ _ _ Hcity), run_geocoding_rejected.
    apply caught_state, quiet_panels; [reflexivity|apply prologue_panels].
Qed.

Lemma search_verdict_witness :
  trim (value (dom sample_page cityInput)) <> ""
  /\ verdict sample_engine [answer sample_place; answer no_weather] = Error
  /\ verdict sample_engine [answer sample_place; answer odd_weather] = Error
  /\ ui_state (final (run (handleSearch sample_engine)
                        [answer sample_place; answer no_weather] sample_page))
     = Some Error
  /\ ui_state (final (run (handleSearch sample_engine)
                        [answer sample_place; answer odd_weather] sample_page))
     = Some Error.
Proof.
  assert (Hcity : trim (value (dom sample_page cityInput)) <> "")
    by (vm_compute; discriminate).
  split; [exact Hcity|]. split; [reflexivity|]. split; [reflexivity|]. split.
  - exact (search_verdict sample_engine sample_page
             [answer sample_place; answer no_weather] Hcity).
  - exact (search_verdict sample_engine sample_page
             [answer sample_place; answer odd_weather] Hcity).
Defined.

(** ** The first result of the geocoder *)




(** ** Searches that overlap *)

Lemma after_turn_step (a : Action) (t : Turn) (s : Panels) :
  after_turn (turn_step a t) s = panel_step (Did a) (after_turn t s).
Proof.
  destruct t as [[w e] l], s as [[w0 e0] l0].
  destruct a as [el token|el token|el text|el name|label err]; simpl;
    try reflexivity.
  - destruct (token =? "hidden")%string; destruct el; reflexivity.
  - destruct (token =? "hidden")%string; destruct el; reflexivity.
  - destruct el; reflexivity.
Qed.

Lemma observe_turns (acts : list Action) :
  forall t fine,
    observe turns_step (map Did acts) (t, fine)
    = (fold_left (fun t a => turn_step a t) acts t, fine).
Proof.
  unfold observe. induction acts as [|a acts IH]; intros t fine; simpl;
    [reflexivity|]. apply IH.
Qed.

Lemma after_turn_replay (acts : list Action) :
  forall t pg,
    after_turn (fold_left (fun t a => turn_step a t) acts t)
      (panels_hidden pg)
    = observe panel_step (map Did acts) (after_turn t (panels_hidden pg)).
Proof.
  unfold observe. induction acts as [|a acts IH]; intros t pg; simpl;
    [reflexivity|]. now rewrite IH, after_turn_step.
Qed.

Lemma keeps_alone_sound (t : Turn) (s : Panels) :
  keeps_alone t = true -> indicator_alone s -> indicator_alone (after_turn t s).
Proof.
  destruct t as [[[[|]|] [[|]|]] [[|]|]], s as [[[|] [|]] [|]]; simpl;
    intros H1 H2 H3; try discriminate; auto;
    destruct (H2 eq_refl); split; congruence.
Qed.

Lemma hides_indicator_sound (t : Turn) (s : Panels) :
  hides_indicator t = true -> snd (after_turn t s) = true.
Proof.
  destruct t as [[w e] [[|]|]], s as [[w0 e0] l0]; simpl; intros H;
    try discriminate; reflexivity.
Qed.

Lemma waiting_continues (t : Prog unit) (fine_turn : Turn) :
  match t with
  | AwaitFetch _ _ | AwaitJson _ _ => True
  | _ => False
  end ->
  always turns_step turns_fine turns_end turns_thrown t (fine_turn, true) ->
  keeps_alone fine_turn = true /\ waiting t.
Proof.
  destruct t as [| | | |url k|resp k]; simpl; try contradiction;
    intros _ [Hfine Hk]; unfold turns_fine in Hfine; simpl in Hfine;
    rewrite Hfine in Hk; split; assumption.
Qed.

(** One turn of a search whose turns are accepted, on any page. *)
Lemma turn_overlap (p : Prog unit) (pg pg' : Page) acts st :
  always turns_step turns_fine turns_end turns_thrown p (untouched, true) ->
  advance p pg = (pg', acts, st) ->
  indicator_alone (panels_hidden pg) ->
  indicator_alone (panels_hidden pg')
  /\ Forall waiting (still st)
  /\ (still st = [] -> hidden pg' loadingIndicator = true).
Proof.
  intros Hp Hadv Halone.
  pose proof (always_advance _ _ _ _ p _ _ _ _ _ Hp Hadv) as Hacc.
  rewrite observe_turns in Hacc.
  pose proof (advance_replay p _ _ _ _ Hadv) as Hpg.
  assert (Hpanels : panels_hidden pg'
                    = after_turn (fold_left (fun t a => turn_step a t) acts
                                    untouched) (panels_hidden pg)).
  { rewrite after_turn_replay, Hpg, panels_replay.
    destruct (panels_hidden pg) as [[w e] l]. reflexivity. }
  destruct st as [[]|e|t]; simpl in Hacc.
  - destruct Hacc as (_ & Hkeep & Hhide). simpl in Hkeep, Hhide.
    split; [rewrite Hpanels; now apply keeps_alone_sound|].
    split; [constructor|]. intros _.
    pose proof (hides_indicator_sound _ (panels_hidden pg) Hhide) as H.
    rewrite <- Hpanels in H. exact H.
  - contradiction.
  - pose proof (advance_suspended p _ _ _ _ Hadv) as Ht.
    destruct (waiting_continues t _ Ht Hacc) as [Hkeep Hwait].
    split; [rewrite Hpanels; now apply keeps_alone_sound|].
    split; [repeat constructor; exact Hwait|].
    intros H. discriminate H.
Qed.

Lemma searching_turns (engine : Engine) (city : string) :
  always turns_step turns_fine turns_end turns_thrown
    (searching engine city) (untouched, true).
Proof.
  explore. all: unfold turns_fine, turns_end; simpl; auto.
Qed.

Lemma Forall_take {A : Type} (P : A -> Prop) (n : nat) :
  forall l : list A, Forall P l -> Forall P (firstn n l).
Proof.
  induction n as [|n IH]; intros l H; [constructor|].
  destruct H as [|x l Hx Hl]; simpl; [constructor|].
  constructor; [exact Hx|now apply IH].
Qed.

Lemma Forall_drop {A : Type} (P : A -> Prop) (n : nat) :
  forall l : list A, Forall P l -> Forall P (skipn n l).
Proof.
  induction n as [|n IH]; intros l H; [exact H|].
  destruct H as [|x l Hx Hl]; simpl; [constructor|now apply IH].
Qed.

Lemma Forall_replace {A : Type} (P : A -> Prop) (l mid : list A) (i : nat) :
  Forall P l -> Forall P mid ->
  Forall P (firstn i l ++ mid ++ skipn (Datatypes.S i) l).
Proof.
  intros Hl Hmid. apply Forall_app. split; [now apply Forall_take|].
  apply Forall_app. split; [exact Hmid|now apply Forall_drop].
Qed.

Lemma replace_nil {A : Type} (l mid : list A) (i : nat) (x : A) :
  nth_error l i = Some x ->
  (firstn i l ++ mid ++ skipn (Datatypes.S i) l = [])%list ->
  mid = [].
Proof.
  intros _ H. apply app_eq_nil in H as [_ H].
  now apply app_eq_nil in H as [H _].
Qed.

Lemma resume_overlap (p : Prog unit) (l : Loop) (i : nat) (t : Prog unit) :
  overlap_invariant l ->
  nth_error (pending l) i = Some t ->
  always turns_step turns_fine turns_end turns_thrown p (untouched, true) ->
  overlap_invariant (resume i p l).
Proof.
  intros (Halone & _ & Hwait) Hnth Hp. unfold resume.
  destruct (advance p (page l)) as [[pg' acts] st] eqn:E.
  destruct (turn_overlap _ _ _ _ _ Hp E Halone) as (Halone' & Hst & Hhid).
  unfold overlap_invariant. cbn [page pending].
  split; [exact Halone'|]. split.
  - intros Hnil. apply Hhid. eapply replace_nil; eassumption.
  - now apply Forall_replace.
Qed.

Lemma start_overlap (engine : Engine) (l : Loop) :
  overlap_invariant l -> overlap_invariant (start (handleSearch engine) l).
Proof.
  intros (Halone & Hidle & Hwait). unfold start.
  destruct (String.eqb_spec (trim (value (dom (page l) cityInput))) "")
    as [Hblank|Hcity].
  - rewrite (advance_blank _ _ Hblank). unfold overlap_invariant.
    cbn [page pending still]. rewrite app_nil_r.
    split; [exact Halone|]. split; [exact Hidle|exact Hwait].
  - rewrite (advance_searching _ _ Hcity).
    destruct (advance _ (page l)) as [[pg' acts] st] eqn:E.
    destruct (turn_overlap _ _ _ _ _
                (searching_turns engine (trim (value (dom (page l) cityInput))))
                E Halone) as (Halone' & Hst & Hhid).
    unfold overlap_invariant. cbn [page pending].
    split; [exact Halone'|]. split.
    + intros Hnil. apply app_eq_nil in Hnil as [_ Hnil]. now apply Hhid.
    + apply Forall_app. now split.
Qed.

Lemma loop_step_overlap (engine : Engine) (l l' : Loop) (inp : Input) :
  overlap_invariant l -> loop_step engine l inp = Some l' ->
  overlap_invariant l'.
Proof.
  intros Hinv Hstep. destruct inp as [|key|text|i r|i]; simpl in Hstep.
  - inversion Hstep; subst. now apply start_overlap.
  - inversion Hstep; subst. unfold on_keypress.
    destruct (key =? "Enter")%string; [now apply start_overlap|].
    unfold start. simpl. rewrite app_nil_r. destruct l; exact Hinv.
  - inversion Hstep; subst. destruct Hinv as (Halone & Hidle & Hwait).
    unfold overlap_invariant. cbn [page pending].
    split; [exact Halone|]. split; [exact Hidle|exact Hwait].
  - destruct (nth_error (pending l) i) as [t|] eqn:Hnth; [|discriminate].
    destruct t as [| | | |url k|]; try discriminate Hstep.
    inversion Hstep; subst.
    apply (resume_overlap _ _ _ _ Hinv Hnth).
    destruct Hinv as (_ & _ & Hwait).
    rewrite Forall_forall in Hwait.
    apply (Hwait _ (nth_error_In _ _ Hnth)).
  - destruct (nth_error (pending l) i) as [t|] eqn:Hnth; [|discriminate].
    destruct t as [| | | | |resp k]; try discriminate Hstep.
    inversion Hstep; subst.
    apply (resume_overlap _ _ _ _ Hinv Hnth).
    destruct Hinv as (_ & _ & Hwait).
    rewrite Forall_forall in Hwait.
    apply (Hwait _ (nth_error_In _ _ Hnth)).
Qed.

Lemma loop_run_overlap (engine : Engine) (inputs : list Input) :
  forall l l',
    overlap_invariant l -> loop_run engine l inputs = Some l' ->
    overlap_invariant l'.
Proof.
  induction inputs as [|inp rest IH]; intros l l' Hinv Hrun; simpl in Hrun.
  - now inversion Hrun; subst.
  - destruct (loop_step engine l inp) as [l1|] eqn:Hstep; [|discriminate].
    apply (IH l1 l'); [|exact Hrun].
    eapply loop_step_overlap; eassumption.
Qed.

(** X16: two facts hold however searches overlap.  Started from a page
    where no search is in flight and the loading indicator is hidden, the
    event loop only reaches states in which the indicator, when it is shown,
    is the only panel shown and some search is suspended; and whenever no
    search is suspended any more the indicator is hidden. *)
Theorem overlapping_searches_indicator
    (engine : Engine) (l l' : Loop) (inputs : list Input) :
  pending l = [] ->
  hidden (page l) loadingIndicator = true ->
  loop_run engine l inputs = Some l' ->
  (visible (page l') loadingIndicator = true ->
   hidden (page l') weatherContainer = true
   /\ hidden (page l') errorContainer = true
   /\ pending l' <> [])
  /\ (pending l' = [] -> hidden (page l') loadingIndicator = true).
Proof.
  intros Hidle Hhidden Hrun.
  assert (Hinv : overlap_invariant l).
  { unfold overlap_invariant. rewrite Hidle.
    split; [|split; [intros _; exact Hhidden|constructor]].
    unfold indicator_alone, panels_hidden. rewrite Hhidden.
    intros H. discriminate H. }
  destruct (loop_run_overlap engine inputs l l' Hinv Hrun)
    as (Halone & Hnone & _).
  split; [|exact Hnone].
  unfold visible. intros Hvis. apply negb_true_iff in Hvis.
  unfold indicator_alone, panels_hidden in Halone.
  destruct (Halone Hvis) as [Hw He].
  split; [exact Hw|]. split; [exact He|].
  intros Hp. rewrite (Hnone Hp) in Hvis. discriminate Hvis.
Qed.

Lemma overlapping_searches_indicator_witness :
  pending (mkLoop sample_page []) = []
  /\ hidden sample_page loadingIndicator = true
  /\ exists l',
       loop_run sample_engine (mkLoop sample_page []) overlapping_inputs
       = Some l'
       /\ (pending l' = [] -> hidden (page l') loadingIndicator = true).
Proof.
  assert (Hrun : option_map (fun _ => tt)
                   (loop_run sample_engine (mkLoop sample_page [])
                      overlapping_inputs) = Some tt)
    by (vm_compute; reflexivity).
  apply option_map_Some in Hrun as (l' & E & _).
  split; [reflexivity|]. split; [reflexivity|].
  exists l'. split; [exact E|].
  exact (proj2 (overlapping_searches_indicator sample_engine
                  (mkLoop sample_page []) l' overlapping_inputs
                  eq_refl eq_refl E)).
Defined.
